(** * Customer churn notebook: data generation, preprocessing, tuning split

    A shallow embedding of [main.ipynb].  The notebook is a straight line of
    calls into numpy, pandas and scikit-learn, so the embedding has three
    layers:

    - the library operations the notebook calls, modelled after their
      documented behaviour ([NpRandom], [Pandas], [Sklearn], [Metrics],
      [Inspection]);
    - the notebook cells themselves, written with the library layer in the
      order and with the arguments of the source ([Notebook]);
    - the properties of the cells.

    Numbers: int64 columns are [Z]; float64 columns are [option R], [None]
    standing for NaN, and arithmetic is exact (no rounding).  The random
    source is a stream of raw words consumed through a cursor. *)

From Stdlib Require Import String Ascii.
From Stdlib Require Import List ZArith NArith Arith Lia Bool.
From Stdlib Require Import Permutation Sorted Reals Lra Psatz.
From Stdlib Require OrdersEx.
Import ListNotations.

Open Scope string_scope.
Open Scope list_scope.
Open Scope nat_scope.

(** ** Errors and the notebook monad *)

(** The Python exceptions the modelled calls raise. *)
Inductive error :=
| KeyError (col : string)
| ValueError (msg : string).

Inductive result (A : Type) :=
| Ok (a : A)
| Err (e : error).
Arguments Ok {A} a.
Arguments Err {A} e.

Definition rbind {A B} (r : result A) (k : A -> result B) : result B :=
  match r with
  | Ok a => k a
  | Err e => Err e
  end.

Declare Scope res_scope.
Delimit Scope res_scope with res.
Notation "x <- c ;; k" := (rbind c (fun x => k))
  (at level 61, c at next level, right associativity) : res_scope.

(** ** numpy.random *)

Module NpRandom.

(** A [RandomState]: the raw words the generator will produce, and how many
    were consumed. *)
Record RandomState := mkRandomState { bits : nat -> N; cursor : nat }.

(** Computations that draw from the random state and may raise. *)
Definition M (A : Type) := RandomState -> result A * RandomState.

Definition ret {A} (a : A) : M A := fun s => (Ok a, s).
Definition raise {A} (e : error) : M A := fun s => (Err e, s).
Definition bind {A B} (m : M A) (k : A -> M B) : M B :=
  fun s => match m s with
           | (Ok a, s') => k a s'
           | (Err e, s') => (Err e, s')
           end.
Definition lift {A} (r : result A) : M A := fun s => (r, s).

Declare Scope rand_scope.
Delimit Scope rand_scope with rand.
Notation "x <- c ;; k" := (bind c (fun x => k))
  (at level 61, c at next level, right associativity) : rand_scope.

(** [m] returns, whatever the random state, with a value satisfying [P]. *)
Definition succeeds {A} (m : M A) (P : A -> Prop) : Prop :=
  forall s, exists a s', m s = (Ok a, s') /\ P a.

Definition next_raw : M N :=
  fun s => (Ok (bits s (cursor s)), mkRandomState (bits s) (S (cursor s))).

(** [size] successive draws of [m], first draw first. *)
Fixpoint draws {A} (size : nat) (m : M A) : M (list A) :=
  match size with
  | O => ret []
  | S k => (x <- m ;; xs <- draws k m ;; ret (x :: xs))%rand
  end.

(** A uniform integer in [[0, max]]. *)
Definition random_interval (max : N) : M N :=
  (r <- next_raw ;; ret (r mod (max + 1))%N)%rand.

(** [random_sample()]: a 53-bit fraction in [[0, 1)], kept as its numerator
    over [2^53]. *)
Definition two53 : Z := 9007199254740992.
Definition random_sample : M Z :=
  (r <- next_raw ;; ret (Z.of_N r mod two53)%Z)%rand.

(** [randint(low, high, size)]: integers in [[low, high)]. *)
Definition randint (low high : Z) (size : nat) : M (list Z) :=
  if (high <=? low)%Z then raise (ValueError "low >= high")
  else draws size
         (r <- random_interval (Z.to_N (high - low - 1)) ;;
          ret (low + Z.of_N r)%Z)%rand.

(** [choice(a, size)] with replacement and uniform weights:
    [a[randint(0, len(a), size)]]. *)
Definition choice {A} (d : A) (a : list A) (size : nat) : M (list A) :=
  match a with
  | [] => raise (ValueError "a must be non-empty")
  | _ => (idx <- randint 0 (Z.of_nat (length a)) size ;;
          ret (map (fun i => nth (Z.to_nat i) a d) idx))%rand
  end.

(** Running sums of the weights, as integers over a common denominator. *)
Fixpoint cumsum (acc : Z) (p : list Z) : list Z :=
  match p with
  | [] => []
  | x :: p' => (acc + x)%Z :: cumsum (acc + x)%Z p'
  end.

(** [searchsorted(cdf, u, side='right')]: how many entries are [<= u]. *)
Definition searchsorted_right (cdf : list Z) (u : Z) : nat :=
  length (filter (fun c => (c <=? u)%Z) cdf).

(** [choice(a, size, p=p)]: the weights [p] are given in units of [1/den];
    a uniform sample [k / 2^53] selects the first entry whose cumulative
    weight exceeds it. *)
Definition choice_p {A} (d : A) (a : list A) (p : list Z) (den : Z)
    (size : nat) : M (list A) :=
  if negb (length a =? length p) then
    raise (ValueError "a and p must have same size")
  else if negb (fold_right Z.add 0%Z p =? den)%Z then
    raise (ValueError "probabilities do not sum to 1")
  else draws size
         (k <- random_sample ;;
          ret (nth (searchsorted_right
                      (map (fun c => (c * two53)%Z) (cumsum 0 p))
                      (k * den)%Z) a d))%rand.

(** Round-half-even of [num / den] for [den > 0]. *)
Definition round_half_even (num den : Z) : Z :=
  let q := (num / den)%Z in
  let r := (num mod den)%Z in
  if (2 * r <? den)%Z then q
  else if (den <? 2 * r)%Z then (q + 1)%Z
  else if Z.even q then q else (q + 1)%Z.

(** [np.round(np.random.uniform(low, high, size), 2)]: each value is
    [low + (high - low) * u] for a uniform sample [u], rounded to two
    decimals.  The result is kept in hundredths. *)
Definition uniform_round2 (low high : Z) (size : nat) : M (list Z) :=
  draws size
    (k <- random_sample ;;
     ret (round_half_even (100 * (low * two53 + (high - low) * k)) two53))%rand.

(** [arr[i] = x], for [i] within the array (the shuffle never leaves it). *)
Fixpoint update {A} (l : list A) (i : nat) (x : A) : list A :=
  match l, i with
  | [], _ => []
  | _ :: l', O => x :: l'
  | h :: l', S i' => h :: update l' i' x
  end.

(** [buf[i], buf[j] = buf[j], buf[i]]. *)
Definition swap (buf : list nat) (i j : nat) : list nat :=
  let xi := nth i buf O in
  let xj := nth j buf O in
  update (update buf i xj) j xi.

(** The loop of [shuffle]: [for i in reversed(range(1, n))], swapping
    position [i] with a uniform position in [[0, i]]. *)
Fixpoint shuffle_from (i : nat) (buf : list nat) : M (list nat) :=
  match i with
  | O => ret buf
  | S i' => (j <- random_interval (N.of_nat i) ;;
             shuffle_from i' (swap buf i (N.to_nat j)))%rand
  end.

Definition shuffle (buf : list nat) : M (list nat) :=
  shuffle_from (length buf - 1) buf.

(** [permutation(n)] shuffles [arange(n)]. *)
Definition permutation (n : nat) : M (list nat) := shuffle (seq 0 n).

(** [choice(a, size, replace=False)]: [a[permutation(len(a))[:size]]]. *)
Definition choice_no_replace (a : list nat) (size : nat) : M (list nat) :=
  if length a <? size then
    raise (ValueError "Cannot take a larger sample than population")
  else (perm <- permutation (length a) ;;
        ret (map (fun i => nth i a O) (firstn size perm)))%rand.

End NpRandom.

(** ** pandas *)

Module Pandas.

(** A column.  [SFloat] holds float64 values, [None] being NaN; infinities
    are not represented (a non-zero value divided by zero is left as the
    unspecified real [x / 0]). *)
Inductive Series :=
| SInt (v : list Z)
| SFloat (v : list (option R))
| SObj (v : list string).

(** Columns in order, by name. *)
Definition DataFrame := list (string * Series).

Definition series_len (s : Series) : nat :=
  match s with
  | SInt v => length v
  | SFloat v => length v
  | SObj v => length v
  end.

Definition nrows (df : DataFrame) : nat :=
  match df with
  | [] => 0
  | (_, s) :: _ => series_len s
  end.

Definition columns (df : DataFrame) : list string := map fst df.

(** [df.index] of a frame with the default range index. *)
Definition index (df : DataFrame) : list nat := seq 0 (nrows df).

(** [pd.DataFrame({...})]: all arrays must have the same length. *)
Definition DataFrame_of_dict (d : list (string * Series)) : result DataFrame :=
  if forallb (fun kv => series_len (snd kv) =? nrows d) d then Ok d
  else Err (ValueError "All arrays must be of the same length").

(** [df[c]]. *)
Fixpoint get_col (c : string) (df : DataFrame) : result Series :=
  match df with
  | [] => Err (KeyError c)
  | (k, s) :: df' => if String.eqb k c then Ok s else get_col c df'
  end.

Fixpoint replace_col (c : string) (s : Series) (df : DataFrame) : DataFrame :=
  match df with
  | [] => [(c, s)]
  | (k, s0) :: df' =>
      if String.eqb k c then (k, s) :: df' else (k, s0) :: replace_col c s df'
  end.

(** [df[c] = s]: replaces the column in place, or appends it. *)
Definition set_col (c : string) (s : Series) (df : DataFrame)
  : result DataFrame :=
  match df with
  | [] => Ok [(c, s)]
  | _ => if series_len s =? nrows df then Ok (replace_col c s df)
         else Err (ValueError "Length of values does not match length of index")
  end.

(** [df[[c1; ...]]]: raises on the first absent name. *)
Fixpoint get_cols (cs : list string) (df : DataFrame)
  : result (list Series) :=
  match cs with
  | [] => Ok []
  | c :: cs' => (s <- get_col c df ;; ss <- get_cols cs' df ;; Ok (s :: ss))%res
  end.

(** [df.drop(columns=cs)]: every name must be a column. *)
Definition drop (cs : list string) (df : DataFrame) : result DataFrame :=
  (_ <- get_cols cs df ;;
   Ok (filter (fun kv => negb (existsb (String.eqb (fst kv)) cs)) df))%res.

(** [df[[c1; ...]] = [s1; ...]]. *)
Fixpoint set_cols (cs : list string) (ss : list Series) (df : DataFrame)
  : result DataFrame :=
  match cs, ss with
  | [], [] => Ok df
  | c :: cs', s :: ss' => (df' <- set_col c s df ;; set_cols cs' ss' df')%res
  | _, _ => Err (ValueError "Columns must be same length as key")
  end.

(** Values of a numeric column as floats. *)
Definition to_float (s : Series) : result (list (option R)) :=
  match s with
  | SInt v => Ok (map (fun z => Some (IZR z)) v)
  | SFloat v => Ok v
  | SObj _ => Err (ValueError "could not convert string to float")
  end.

Fixpoint map2 {A B C} (f : A -> B -> C) (l : list A) (l' : list B) : list C :=
  match l, l' with
  | a :: t, b :: t' => f a b :: map2 f t t'
  | _, _ => []
  end.

Definition fmul (a b : option R) : option R :=
  match a, b with
  | Some x, Some y => Some (x * y)%R
  | _, _ => None
  end.

(** True division.  [0 / 0] is NaN; [x / 0] for another [x] is an infinity
    in numpy, which is not null: it stays the unspecified real [x / 0]. *)
Definition fdiv (a b : option R) : option R :=
  match a, b with
  | Some x, Some y =>
      if Req_dec_T y 0 then
        if Req_dec_T x 0 then None else Some (x / y)%R
      else Some (x / y)%R
  | _, _ => None
  end.

(** [a * b] on numeric columns of equal length. *)
Definition series_mul (a b : Series) : result Series :=
  match a, b with
  | SInt x, SInt y =>
      if length x =? length y then Ok (SInt (map2 Z.mul x y))
      else Err (ValueError "operands could not be broadcast together")
  | _, _ =>
      (x <- to_float a ;; y <- to_float b ;;
       if length x =? length y then Ok (SFloat (map2 fmul x y))
       else Err (ValueError "operands could not be broadcast together"))%res
  end.

(** [a / b] on numeric columns of equal length; always float. *)
Definition series_div (a b : Series) : result Series :=
  (x <- to_float a ;; y <- to_float b ;;
   if length x =? length y then Ok (SFloat (map2 fdiv x y))
   else Err (ValueError "operands could not be broadcast together"))%res.

(** [np.where(s == 0, 1, s)].  NaN and strings never compare equal to 0. *)
Definition where_eq0 (s : Series) : Series :=
  match s with
  | SInt v => SInt (map (fun t => if (t =? 0)%Z then 1%Z else t) v)
  | SFloat v =>
      SFloat (map (fun t => match t with
                            | Some x => if Req_dec_T x 0 then Some 1%R else Some x
                            | None => None
                            end) v)
  | SObj v => SObj v
  end.

(** Apply [f] at the positions listed in [idx]. *)
Definition at_positions {A} (idx : list nat) (f : A -> A) (v : list A)
  : list A :=
  map (fun ix => if existsb (Nat.eqb (fst ix)) idx then f (snd ix) else snd ix)
      (combine (seq 0 (length v)) v).

Definition check_labels (idx : list nat) (df : DataFrame) : result unit :=
  if forallb (fun i => i <? nrows df) idx then Ok tt
  else Err (KeyError "index label not found").

(** [df.loc[idx, c] = np.nan]: an absent column is created, all NaN. *)
Definition loc_set_nan (idx : list nat) (c : string) (df : DataFrame)
  : result DataFrame :=
  (_ <- check_labels idx df ;;
   match get_col c df with
   | Ok s => (v <- to_float s ;;
              set_col c (SFloat (at_positions idx (fun _ => None) v)) df)
   | Err _ => set_col c (SFloat (repeat None (nrows df))) df
   end)%res.

(** [df.loc[idx, c] *= k]. *)
Definition loc_imul (idx : list nat) (c : string) (k : R) (df : DataFrame)
  : result DataFrame :=
  (_ <- check_labels idx df ;;
   s <- get_col c df ;;
   v <- to_float s ;;
   set_col c (SFloat (at_positions idx (fun x => fmul x (Some k)) v)) df)%res.

(** [df.iloc[rows]].  The splitters only pass parts of a permutation of
    the row positions (see [SplitFacts]), so no position is out of range;
    there Python would raise and the model reads the default. *)
Definition take_series (rows : list nat) (s : Series) : Series :=
  match s with
  | SInt v => SInt (map (fun i => nth i v 0%Z) rows)
  | SFloat v => SFloat (map (fun i => nth i v None) rows)
  | SObj v => SObj (map (fun i => nth i v "") rows)
  end.

Definition iloc (rows : list nat) (df : DataFrame) : DataFrame :=
  map (fun kv => (fst kv, take_series rows (snd kv))) df.

(** [s.isnull().sum()]. *)
Definition count_null (s : Series) : nat :=
  match s with
  | SFloat v => length (filter (fun x => match x with None => true | _ => false end) v)
  | _ => 0
  end.

End Pandas.

(** ** scikit-learn and imbalanced-learn *)

Module Sklearn.
Import NpRandom Pandas.

Definition non_null (v : list (option R)) : list R :=
  flat_map (fun x => match x with Some r => [r] | None => [] end) v.

Definition Rsum (l : list R) : R := fold_right Rplus 0%R l.

Definition mean (l : list R) : R := (Rsum l / INR (length l))%R.

(** Population variance ([ddof = 0]). *)
Definition var (l : list R) : R :=
  mean (map (fun x => ((x - mean l) * (x - mean l))%R) l).

Definition std (l : list R) : R := sqrt (var l).

(** A missing entry is replaced by [m]. *)
Definition fill (m : R) (x : option R) : option R :=
  match x with
  | Some r => Some r
  | None => Some m
  end.

(** [SimpleImputer(strategy='mean').fit_transform] on one column: every
    missing entry becomes the mean of the observed ones.  A column without
    any observed value is dropped by the imputer, and assigning the empty
    result back raises. *)
Definition impute_mean (s : Series) : result Series :=
  (v <- to_float s ;;
   match non_null v with
   | [] => Err (ValueError "no observed value to impute from")
   | xs => Ok (SFloat (map (fill (mean xs)) v))
   end)%res.

(** Position of [x] among the sorted distinct values of [col]. *)
Definition rank {A} (eq_dec : forall a b : A, {a = b} + {a <> b})
    (ltb : A -> A -> bool) (col : list A) (x : A) : Z :=
  Z.of_nat (length (nodup eq_dec (filter (fun y => ltb y x) col))).

Definition float_eq_dec (a b : option R) : {a = b} + {a <> b}.
Proof.
  destruct a as [x|], b as [y|];
    [ destruct (Req_dec_T x y); [left; congruence | right; congruence]
    | right; discriminate | right; discriminate | left; reflexivity ].
Defined.

(** Order of float labels; NaN sorts last. *)
Definition float_ltb (a b : option R) : bool :=
  match a, b with
  | Some x, Some y => if Rlt_dec x y then true else false
  | Some _, None => true
  | None, _ => false
  end.

(** [LabelEncoder().fit_transform(s)]: each label is replaced by its index
    in the sorted table of distinct labels. *)
Definition LabelEncoder_fit_transform (s : Series) : Series :=
  match s with
  | SInt v => SInt (map (rank Z.eq_dec Z.ltb v) v)
  | SFloat v => SInt (map (rank float_eq_dec float_ltb v) v)
  | SObj v => SInt (map (rank string_dec String.ltb v) v)
  end.

(** [_handle_zeros_in_scale]: a constant column is scaled by 1. *)
Definition handle_zeros_in_scale (variance : R) : R :=
  if Req_dec_T variance 0 then 1%R else sqrt variance.

(** The standardized values of a column: NaN is ignored by the fit and kept
    by the transform; a column that is all NaN stays so. *)
Definition scaled_values (v : list (option R)) : list (option R) :=
  let xs := non_null v in
  match xs with
  | [] => map (fun _ => None) v
  | _ => map (option_map
                (fun x => ((x - mean xs) / handle_zeros_in_scale (var xs))%R))
             v
  end.

(** [StandardScaler().fit_transform] on one column. *)
Definition standardize (s : Series) : result Series :=
  (v <- to_float s ;; Ok (SFloat (scaled_values v)))%res.

Fixpoint standardize_all (ss : list Series) : result (list Series) :=
  match ss with
  | [] => Ok []
  | s :: ss' =>
      (z <- standardize s ;; zs <- standardize_all ss' ;; Ok (z :: zs))%res
  end.

(** [StandardScaler().fit_transform(X)] on the selected columns; at least
    one sample is required. *)
Definition StandardScaler_fit_transform (ss : list Series)
  : result (list Series) :=
  match ss with
  | s :: _ =>
      if series_len s =? 0 then
        Err (ValueError "Found array with 0 sample(s)")
      else standardize_all ss
  | [] => Err (ValueError "at least one array or dtype is required")
  end.

(** *** Splitting *)

(** [_validate_shuffle_split] with [test_size = num/den] and no train size:
    [n_test = ceil(test_size * n)], [n_train = n - n_test]. *)
Definition validate_shuffle_split (n num den : nat) : result (nat * nat) :=
  let n_test := (num * n + den - 1) / den in
  let n_train := n - n_test in
  if n_train =? 0 then Err (ValueError "the resulting train set will be empty")
  else Ok (n_train, n_test).

(** [ShuffleSplit]: one permutation, test rows first. *)
Definition ShuffleSplit (n n_train n_test : nat) : M (list nat * list nat) :=
  (perm <- permutation n ;;
   ret (firstn n_train (skipn n_test perm), firstn n_test perm))%rand.

Fixpoint insert_desc (x : nat) (l : list nat) : list nat :=
  match l with
  | [] => [x]
  | y :: l' => if y <? x then x :: l
               else if y =? x then l
               else y :: insert_desc x l'
  end.

(** [np.sort(np.unique(a))[::-1]]. *)
Definition sort_unique_desc (a : list nat) : list nat :=
  fold_right insert_desc [] a.

(** [np.where(a == value)]. *)
Definition positions_eq (a : list nat) (value : nat) : list nat :=
  map fst (filter (fun ix => snd ix =? value) (combine (seq 0 (length a)) a)).

(** [floored[inds] += 1]. *)
Definition incr_at (inds : list nat) (floored : list nat) : list nat :=
  at_positions inds S floored.

(** The loop of [_approximate_mode] over the distinct remainders, largest
    first, drawing among ties. *)
Fixpoint add_by_remainder (values : list nat) (remainder floored : list nat)
    (need_to_add : nat) : M (list nat) :=
  match values with
  | [] => ret floored
  | value :: rest =>
      let inds := positions_eq remainder value in
      let add_now := Nat.min (length inds) need_to_add in
      (chosen <- choice_no_replace inds add_now ;;
       let floored' := incr_at chosen floored in
       let need' := need_to_add - add_now in
       if need' =? 0 then ret floored'
       else add_by_remainder rest remainder floored' need')%rand
  end.

Definition sum_nat (l : list nat) : nat := fold_right Nat.add 0 l.

(** [_approximate_mode(class_counts, n_draws, rng)]: the share
    [count * n_draws / total] of each class rounded down, the missing draws
    given to the largest fractional parts.  Fractional parts are kept as
    numerators over [total]. *)
Definition approximate_mode (class_counts : list nat) (n_draws : nat)
  : M (list nat) :=
  let total := sum_nat class_counts in
  let floored := map (fun c => c * n_draws / total) class_counts in
  let remainder := map (fun c => (c * n_draws) mod total) class_counts in
  let need_to_add := n_draws - sum_nat floored in
  if 0 <? need_to_add then
    add_by_remainder (sort_unique_desc remainder) remainder floored need_to_add
  else ret floored.

Fixpoint insert_asc (x : Z) (l : list Z) : list Z :=
  match l with
  | [] => [x]
  | y :: l' => if (x <? y)%Z then x :: l
               else if (x =? y)%Z then l
               else y :: insert_asc x l'
  end.

(** [np.unique(y)]. *)
Definition unique (y : list Z) : list Z := fold_right insert_asc [] y.

(** Rows of class [c], in row order. *)
Definition rows_of_class (y : list Z) (c : Z) : list nat :=
  map fst (filter (fun iy => (snd iy =? c)%Z) (combine (seq 0 (length y)) y)).

(** The per-class loop of [StratifiedShuffleSplit._iter_indices]. *)
Fixpoint assign_classes (class_indices : list (list nat)) (n_i t_i : list nat)
    (train test : list nat) : M (list nat * list nat) :=
  match class_indices, n_i, t_i with
  | inds :: cs, n :: ns, t :: ts =>
      (perm <- permutation (length inds) ;;
       let perm_indices := map (fun i => nth i inds 0) perm in
       assign_classes cs ns ts
         (train ++ firstn n perm_indices)
         (test ++ firstn t (skipn n perm_indices)))%rand
  | _, _, _ => ret (train, test)
  end.

(** [StratifiedShuffleSplit(...).split(X, y)], first split. *)
Definition StratifiedShuffleSplit (y : list Z) (n_train n_test : nat)
  : M (list nat * list nat) :=
  let classes := unique y in
  let class_indices := map (rows_of_class y) classes in
  let class_counts := map (@length nat) class_indices in
  if existsb (fun c => c <? 2) class_counts then
    raise (ValueError "The least populated class in y has only 1 member")
  else if n_train <? length classes then
    raise (ValueError "n_train should be at least the number of classes")
  else if n_test <? length classes then
    raise (ValueError "n_test should be at least the number of classes")
  else
    (n_i <- approximate_mode class_counts n_train ;;
     t_i <- approximate_mode (map2 Nat.sub class_counts n_i) n_test ;;
     tt <- assign_classes class_indices n_i t_i [] [] ;;
     train <- shuffle (fst tt) ;;
     test <- shuffle (snd tt) ;;
     ret (train, test))%rand.

(** [train_test_split(X, y, test_size=num/den, random_state=rs,
    stratify=...)]: [(X_train, X_test, y_train, y_test)].  The split draws
    from its own random state [rs]. *)
Definition train_test_split (X : DataFrame) (y : list Z) (num den : nat)
    (rs : RandomState) (stratify : bool)
  : result (DataFrame * DataFrame * list Z * list Z) :=
  if negb (nrows X =? length y) then
    Err (ValueError "Found input variables with inconsistent numbers of samples")
  else
    (nn <- validate_shuffle_split (length y) num den ;;
     let (n_train, n_test) := nn : nat * nat in
     tt <- fst ((if stratify then StratifiedShuffleSplit y n_train n_test
                 else ShuffleSplit (length y) n_train n_test) rs) ;;
     let (train, test) := tt : list nat * list nat in
     Ok (iloc train X, iloc test X,
         map (fun i => nth i y 0%Z) train,
         map (fun i => nth i y 0%Z) test))%res.

(** *** Counting vocabulary for the split *)

(** How many classes the remainder values [values] can serve. *)
Definition slots (values remainder : list nat) : nat :=
  sum_nat (map (fun v => length (positions_eq remainder v)) values).

(** How many of the rows [rows] carry the label [c]. *)
Definition count_label (y : list Z) (c : Z) (rows : list nat) : nat :=
  count_occ Z.eq_dec (map (fun i => nth i y 0%Z) rows) c.

(** The entry of [ns] that belongs to the class [c] of [classes]. *)
Definition class_entry (c : Z) (classes : list Z) (ns : list nat) : nat :=
  sum_nat (map2 (fun c' n => if (c' =? c)%Z then n else 0) classes ns).

End Sklearn.

(** ** The notebook *)

Module Notebook.
Import NpRandom Pandas Sklearn.

(** *** Data generation *)

Definition n_records : nat := 5000.

(** [np.arange(low, high)]. *)
Definition arange (low high : nat) : list Z :=
  map Z.of_nat (seq low (high - low)).

Definition float_values (v : list Z) : list (option R) :=
  map (fun c => Some (IZR c / 100)%R) v.

(** A column of two-decimal floats from its values in hundredths. *)
Definition hundredths (v : list Z) : Series := SFloat (float_values v).

(** Cell "Generate synthetic data": the columns are drawn in the order of
    the dictionary literal. *)
Definition generate_data : M DataFrame :=
  (age <- randint 18 70 n_records ;;
   gender <- choice "" ["Male"; "Female"] n_records ;;
   contract <- choice "" ["Month-to-month"; "One year"; "Two year"] n_records ;;
   monthly <- uniform_round2 20 120 n_records ;;
   total <- uniform_round2 100 8000 n_records ;;
   tech <- choice "" ["Yes"; "No"] n_records ;;
   internet <- choice "" ["DSL"; "Fiber optic"; "No"] n_records ;;
   tenure <- randint 1 72 n_records ;;
   paperless <- choice "" ["Yes"; "No"] n_records ;;
   payment <- choice "" ["Cash"; "UPI"; "Internet Banking"; "Debit card";
                         "Credit card"] n_records ;;
   churn <- choice_p "" ["Yes"; "No"] [2; 8]%Z 10 n_records ;;
   lift (DataFrame_of_dict
           [("CustomerID", SInt (arange 1 (n_records + 1)));
            ("Age", SInt age);
            ("Gender", SObj gender);
            ("ContractType", SObj contract);
            ("MonthlyCharges", hundredths monthly);
            ("TotalCharges", hundredths total);
            ("TechSupport", SObj tech);
            ("InternetService", SObj internet);
            ("Tenure", SInt tenure);
            ("PaperlessBilling", SObj paperless);
            ("PaymentMethod", SObj payment);
            ("Churn", SObj churn)]))%rand.

(** Cell "Derived features". *)
Definition derived_features (data : DataFrame) : result DataFrame :=
  (total <- get_col "TotalCharges" data ;;
   tenure <- get_col "Tenure" data ;;
   avg <- series_div total (where_eq0 tenure) ;;
   data <- set_col "average_monthly_charges" avg data ;;
   monthly <- get_col "MonthlyCharges" data ;;
   tenure <- get_col "Tenure" data ;;
   clv <- series_mul monthly tenure ;;
   set_col "customer_lifetime_value" clv data)%res.

(** Cell "Introduce missing values / Introduce outliers". *)
Definition introduce_missing_and_outliers (data : DataFrame) : M DataFrame :=
  (missing <- choice_no_replace (index data) 50 ;;
   data <- lift (loc_set_nan missing "TotalCharges" data) ;;
   outliers <- choice_no_replace (index data) 10 ;;
   lift (loc_imul outliers "MonthlyCharges" 1.5%R data))%rand.

(** The generation stage up to the table written to
    [data/customer_data.csv].  [to_csv] followed by [read_csv] gives the same
    table back, so this is also the table every later cell starts from. *)
Definition data_generation : M DataFrame :=
  (data <- generate_data ;;
   data <- lift (derived_features data) ;;
   introduce_missing_and_outliers data)%rand.

(** Everything the generation stage draws from the random source. *)
Record Draws := mkDraws {
  age : list Z;
  gender : list string;
  contract : list string;
  monthly : list Z;
  total : list Z;
  tech : list string;
  internet : list string;
  tenure : list Z;
  paperless : list string;
  payment : list string;
  churn : list string
}.

(** The table [generate_data] builds from its draws. *)
Definition raw_table (d : Draws) : DataFrame :=
  [("CustomerID", SInt (arange 1 (n_records + 1)));
   ("Age", SInt (age d));
   ("Gender", SObj (gender d));
   ("ContractType", SObj (contract d));
   ("MonthlyCharges", hundredths (monthly d));
   ("TotalCharges", hundredths (total d));
   ("TechSupport", SObj (tech d));
   ("InternetService", SObj (internet d));
   ("Tenure", SInt (tenure d));
   ("PaperlessBilling", SObj (paperless d));
   ("PaymentMethod", SObj (payment d));
   ("Churn", SObj (churn d))].

Definition int_values (v : list Z) : list (option R) :=
  map (fun z => Some (IZR z)) v.

Definition guard0 (t : Z) : Z := if (t =? 0)%Z then 1%Z else t.

(** The table after the cell "Derived features". *)
Definition derived_table (d : Draws) : DataFrame :=
  raw_table d ++
  [("average_monthly_charges",
     SFloat (map2 fdiv (float_values (total d))
               (int_values (map guard0 (tenure d)))));
   ("customer_lifetime_value",
     SFloat (map2 fmul (float_values (monthly d)) (int_values (tenure d))))].

(** The table [data_generation] ends with, column by column: [missing] and
    [outliers] are the rows drawn by the last cell. *)
Definition final_table (d : Draws) (missing outliers : list nat)
  : DataFrame :=
  [("CustomerID", SInt (arange 1 (n_records + 1)));
   ("Age", SInt (age d));
   ("Gender", SObj (gender d));
   ("ContractType", SObj (contract d));
   ("MonthlyCharges",
     SFloat (at_positions outliers (fun x => fmul x (Some 1.5%R))
               (float_values (monthly d))));
   ("TotalCharges",
     SFloat (at_positions missing (fun _ => None)
               (float_values (total d))));
   ("TechSupport", SObj (tech d));
   ("InternetService", SObj (internet d));
   ("Tenure", SInt (tenure d));
   ("PaperlessBilling", SObj (paperless d));
   ("PaymentMethod", SObj (payment d));
   ("Churn", SObj (churn d));
   ("average_monthly_charges",
     SFloat (map2 fdiv (float_values (total d))
               (int_values (map guard0 (tenure d)))));
   ("customer_lifetime_value",
     SFloat (map2 fmul (float_values (monthly d)) (int_values (tenure d))))].

(** What is known of the draws, whatever the random source. *)
Record draws_ok (d : Draws) : Prop := mkDrawsOk {
  age_len : length (age d) = n_records;
  gender_len : length (gender d) = n_records;
  contract_len : length (contract d) = n_records;
  monthly_len : length (monthly d) = n_records;
  total_len : length (total d) = n_records;
  tech_len : length (tech d) = n_records;
  internet_len : length (internet d) = n_records;
  tenure_len : length (tenure d) = n_records;
  paperless_len : length (paperless d) = n_records;
  payment_len : length (payment d) = n_records;
  churn_len : length (churn d) = n_records;
  age_range : Forall (fun a => (18 <= a < 70)%Z) (age d);
  monthly_range : Forall (fun c => (2000 <= c <= 12000)%Z) (monthly d);
  total_range : Forall (fun c => (10000 <= c <= 800000)%Z) (total d);
  tenure_range : Forall (fun t => (1 <= t < 72)%Z) (tenure d)
}.

(** What is known of a draw of [size] rows without replacement. *)
Definition rows_ok (size : nat) (rows : list nat) : Prop :=
  length rows = size /\ NoDup rows /\ Forall (fun i => i < n_records) rows.

(** *** Data preprocessing *)

(** Cell "Handle missing values". *)
Definition handle_missing_values (data : DataFrame) : result DataFrame :=
  (total <- get_col "TotalCharges" data ;;
   imputed <- impute_mean total ;;
   set_col "TotalCharges" imputed data)%res.

Definition categorical_columns : list string :=
  ["Gender"; "ContractType"; "TechSupport"; "InternetService";
   "PaperlessBilling"; "PaymentMethod"; "Churn"].

(** Cell "Encode categorical features": the loop over the column names. *)
Fixpoint encode_categorical (cols : list string) (data : DataFrame)
  : result DataFrame :=
  match cols with
  | [] => Ok data
  | col :: rest =>
      (s <- get_col col data ;;
       data <- set_col col (LabelEncoder_fit_transform s) data ;;
       encode_categorical rest data)%res
  end.

Definition numeric_columns : list string :=
  ["Age"; "MonthlyCharges"; "TotalCharges"; "Tenure";
   "average_monthly_charges"; "customer_lifetime_value"].

(** Cell "Feature scaling". *)
Definition feature_scaling (data : DataFrame) : result DataFrame :=
  (selected <- get_cols numeric_columns data ;;
   scaled <- StandardScaler_fit_transform selected ;;
   set_cols numeric_columns scaled data)%res.

(** The variables bound by the cell "Split dataset". *)
Record Split := mkSplit {
  X : DataFrame;
  y : list Z;
  X_train : DataFrame;
  X_test : DataFrame;
  y_train : list Z;
  y_test : list Z
}.

(** Cell "Split dataset"; [rs42] is [RandomState(42)]. *)
Definition split_dataset (rs42 : RandomState) (data : DataFrame)
  : result Split :=
  (X <- drop ["CustomerID"; "Churn"] data ;;
   churn <- get_col "Churn" data ;;
   y <- match churn with
        | SInt v => Ok v
        | _ => Err (ValueError "Unknown label type")
        end ;;
   parts <- train_test_split X y 1 5 rs42 true ;;
   let '(X_train, X_test, y_train, y_test) := parts in
   Ok (mkSplit X y X_train X_test y_train y_test))%res.

(** The preprocessor: the four cells in order. *)
Definition preprocess (rs42 : RandomState) (data : DataFrame) : result Split :=
  (data <- handle_missing_values data ;;
   data <- encode_categorical categorical_columns data ;;
   data <- feature_scaling data ;;
   split_dataset rs42 data)%res.

(** *** Feature engineering *)

(** One line of the cell "Example feature engineering". *)
Definition add_monthly_to_tenure_ratio (X : DataFrame) : result DataFrame :=
  (monthly <- get_col "MonthlyCharges" X ;;
   tenure <- get_col "Tenure" X ;;
   ratio <- series_div monthly (where_eq0 tenure) ;;
   set_col "monthly_to_tenure_ratio" ratio X)%res.

Definition feature_engineering (s : Split) : result Split :=
  (X_train' <- add_monthly_to_tenure_ratio (X_train s) ;;
   X_test' <- add_monthly_to_tenure_ratio (X_test s) ;;
   Ok (mkSplit (X s) (y s) X_train' X_test' (y_train s) (y_test s)))%res.

(** *** Class imbalance and the tuning split *)

(** [SMOTE(random_state=42).fit_resample], taken as given. *)
Definition Resampler := DataFrame -> list Z -> result (DataFrame * list Z).

(** The variables bound by the cell "Address class imbalance using SMOTE". *)
Record Tuning := mkTuning {
  X_resampled : DataFrame;
  y_resampled : list Z;
  X_train_smote : DataFrame;
  X_test_smote : DataFrame;
  y_train_smote : list Z;
  y_test_smote : list Z
}.

Definition address_class_imbalance (smote : Resampler) (rs42 : RandomState)
    (s : Split) : result Tuning :=
  (resampled <- smote (X s) (y s) ;;
   let (X_resampled, y_resampled) := resampled : DataFrame * list Z in
   parts <- train_test_split X_resampled y_resampled 1 5 rs42 false ;;
   let '(X_train_smote, X_test_smote, y_train_smote, y_test_smote) := parts in
   Ok (mkTuning X_resampled y_resampled
                X_train_smote X_test_smote y_train_smote y_test_smote))%res.

(** *** The whole run

    [rs42] is the random state seeded with 42: the global one after
    [np.random.seed(42)], and the fresh [RandomState(42)] each scikit-learn
    call builds from [random_state=42]. *)
Definition run (smote : Resampler) (rs42 : RandomState)
  : result (DataFrame * Split * Tuning) :=
  (data <- fst (data_generation rs42) ;;
   s <- preprocess rs42 data ;;
   s' <- feature_engineering s ;;
   t <- address_class_imbalance smote rs42 s' ;;
   Ok (data, s', t))%res.

(** *** Vocabulary of the properties *)

(** The reading of "customer_lifetime_value = MonthlyCharges * Tenure" on
    the columns of one table. *)
Definition clv_is_monthly_times_tenure (data : DataFrame) : Prop :=
  exists monthly tenure clv,
    get_col "MonthlyCharges" data = Ok (SFloat monthly) /\
    get_col "Tenure" data = Ok (SInt tenure) /\
    get_col "customer_lifetime_value" data = Ok (SFloat clv) /\
    forall i, i < nrows data ->
      nth i clv None = fmul (nth i monthly None) (Some (IZR (nth i tenure 0%Z))).

(** A divisor equal to 0 is replaced by 1. *)
Definition guardR (t : option R) : option R :=
  match t with
  | Some x => if Req_dec_T x 0 then Some 1%R else Some x
  | None => None
  end.

(** MonthlyCharges over Tenure, the divisor replaced by 1 when Tenure is 0. *)
Definition guarded_ratio (monthly tenure : option R) : option R :=
  fdiv monthly (guardR tenure).

(** The columns the preprocessing cells ask the table for. *)
Definition requested_columns : list string :=
  "TotalCharges" :: categorical_columns ++ numeric_columns ++ ["CustomerID"].

(** Share of the label [c] among [labels]. *)
Definition rate (c : Z) (labels : list Z) : R :=
  (INR (count_occ Z.eq_dec labels c) / INR (length labels))%R.

(** [X'] is [X] with a monthly_to_tenure_ratio column holding, row by row,
    the guarded ratio of the MonthlyCharges and Tenure of [X]. *)
Definition has_guarded_ratio (X X' : DataFrame) : Prop :=
  exists ms ts monthly tenure ratio,
    get_col "MonthlyCharges" X = Ok ms /\ to_float ms = Ok monthly /\
    get_col "Tenure" X = Ok ts /\ to_float ts = Ok tenure /\
    get_col "monthly_to_tenure_ratio" X' = Ok (SFloat ratio) /\
    length ratio = length monthly /\
    forall i, i < length monthly ->
      nth i ratio None = guarded_ratio (nth i monthly None) (nth i tenure None) /\
      (nth i tenure None = Some 0%R -> nth i ratio None = nth i monthly None).

(** The codes [LabelEncoder] gives a column of strings. *)
Definition codes (v : list string) : list Z :=
  map (rank string_dec String.ltb v) v.

(** TotalCharges after the missing-value and the imputation cells. *)
Definition imputed_total (d : Draws) (missing : list nat) : list (option R) :=
  let total := at_positions missing (fun _ => None) (float_values (total d)) in
  map (fill (mean (non_null total))) total.

(** MonthlyCharges after the outlier cell. *)
Definition inflated_monthly (d : Draws) (outliers : list nat) : list (option R) :=
  at_positions outliers (fun x => fmul x (Some 1.5%R)) (float_values (monthly d)).

(** The feature table [X] of the cell "Split dataset", column by column. *)
Definition feature_table (d : Draws) (missing outliers : list nat)
  : DataFrame :=
  [("Age", SFloat (scaled_values (int_values (age d))));
   ("Gender", SInt (codes (gender d)));
   ("ContractType", SInt (codes (contract d)));
   ("MonthlyCharges", SFloat (scaled_values (inflated_monthly d outliers)));
   ("TotalCharges", SFloat (scaled_values (imputed_total d missing)));
   ("TechSupport", SInt (codes (tech d)));
   ("InternetService", SInt (codes (internet d)));
   ("Tenure", SFloat (scaled_values (int_values (tenure d))));
   ("PaperlessBilling", SInt (codes (paperless d)));
   ("PaymentMethod", SInt (codes (payment d)));
   ("average_monthly_charges",
     SFloat (scaled_values
               (map2 fdiv (float_values (total d))
                  (int_values (map guard0 (tenure d))))));
   ("customer_lifetime_value",
     SFloat (scaled_values
               (map2 fmul (float_values (monthly d)) (int_values (tenure d)))))].

(** The table after the cell "Feature scaling". *)
Definition scaled_table (d : Draws) (missing outliers : list nat)
  : DataFrame :=
  [("CustomerID", SInt (arange 1 (n_records + 1)));
   ("Age", SFloat (scaled_values (int_values (age d))));
   ("Gender", SInt (codes (gender d)));
   ("ContractType", SInt (codes (contract d)));
   ("MonthlyCharges", SFloat (scaled_values (inflated_monthly d outliers)));
   ("TotalCharges", SFloat (scaled_values (imputed_total d missing)));
   ("TechSupport", SInt (codes (tech d)));
   ("InternetService", SInt (codes (internet d)));
   ("Tenure", SFloat (scaled_values (int_values (tenure d))));
   ("PaperlessBilling", SInt (codes (paperless d)));
   ("PaymentMethod", SInt (codes (payment d)));
   ("Churn", SInt (codes (churn d)));
   ("average_monthly_charges",
     SFloat (scaled_values
               (map2 fdiv (float_values (total d))
                  (int_values (map guard0 (tenure d))))));
   ("customer_lifetime_value",
     SFloat (scaled_values
               (map2 fmul (float_values (monthly d)) (int_values (tenure d)))))].

(** A resampler that hands its input back. *)
Definition no_resampling : Resampler := fun X y => Ok (X, y).

(** A ten-row table with the columns of the persisted dataset. *)
Definition sample_table : DataFrame :=
  [("CustomerID", SInt [1; 2; 3; 4; 5; 6; 7; 8; 9; 10]%Z);
   ("Age", SInt [30; 41; 52; 23; 64; 35; 46; 57; 28; 69]%Z);
   ("Gender", SObj ["Male"; "Female"; "Male"; "Female"; "Male";
                    "Female"; "Male"; "Female"; "Male"; "Female"]);
   ("ContractType", SObj ["One year"; "Two year"; "One year"; "Two year";
                          "One year"; "Two year"; "One year"; "Two year";
                          "One year"; "Two year"]);
   ("MonthlyCharges", SFloat [Some 20; Some 30; Some 40; Some 50; Some 60;
                              Some 70; Some 80; Some 90; Some 100;
                              Some 110]%R);
   ("TotalCharges", SFloat [Some 100; None; Some 300; Some 400; Some 500;
                            Some 600; Some 700; Some 800; Some 900;
                            Some 1000]%R);
   ("TechSupport", SObj ["Yes"; "No"; "Yes"; "No"; "Yes"; "No"; "Yes";
                         "No"; "Yes"; "No"]);
   ("InternetService", SObj ["DSL"; "No"; "DSL"; "No"; "DSL"; "No"; "DSL";
                             "No"; "DSL"; "No"]);
   ("Tenure", SInt [1; 2; 3; 4; 5; 6; 7; 8; 9; 10]%Z);
   ("PaperlessBilling", SObj ["Yes"; "No"; "Yes"; "No"; "Yes"; "No";
                              "Yes"; "No"; "Yes"; "No"]);
   ("PaymentMethod", SObj ["Cash"; "UPI"; "Cash"; "UPI"; "Cash"; "UPI";
                           "Cash"; "UPI"; "Cash"; "UPI"]);
   ("Churn", SObj ["Yes"; "No"; "Yes"; "No"; "Yes"; "No"; "Yes"; "No";
                   "Yes"; "No"]);
   ("average_monthly_charges",
     SFloat [Some 100; Some 100; Some 100; Some 100; Some 100; Some 100;
             Some 100; Some 100; Some 100; Some 100]%R);
   ("customer_lifetime_value",
     SFloat [Some 20; Some 60; Some 120; Some 200; Some 300; Some 420;
             Some 560; Some 720; Some 900; Some 1100]%R)].

(** A table of [n_records] rows, 1000 of them with the churn code 1. *)
Definition churn_table : DataFrame :=
  [("CustomerID", SInt (arange 1 (n_records + 1)));
   ("Tenure", SInt (repeat 12%Z n_records));
   ("Churn", SInt (repeat 1%Z 1000 ++ repeat 0%Z 4000))].

(** A random source whose raw words are all zero. *)
Definition zeros : RandomState := mkRandomState (fun _ => 0%N) 0.

End Notebook.

(** ** sklearn.metrics *)

Module Metrics.
Import Pandas Sklearn.

(** [check_consistent_length(y_true, y_pred)]. *)
Definition check_consistent_length (y_true y_pred : list Z) : result unit :=
  if length y_true =? length y_pred then Ok tt
  else Err (ValueError
              "Found input variables with inconsistent numbers of samples").

(** [unique_labels(y_true, y_pred)]: the distinct labels of both, sorted. *)
Definition unique_labels (y_true y_pred : list Z) : list Z :=
  unique (y_true ++ y_pred).

(** How many rows have the true label [t] and the predicted label [p]. *)
Definition count_pairs (y_true y_pred : list Z) (t p : Z) : nat :=
  length (filter (fun tp => (fst tp =? t)%Z && (snd tp =? p)%Z)
            (combine y_true y_pred)).

(** [confusion_matrix(y_true, y_pred)]: one row per true label and one
    column per predicted label, in the order of [unique_labels]. *)
Definition confusion_matrix (y_true y_pred : list Z)
  : result (list (list nat)) :=
  (_ <- check_consistent_length y_true y_pred ;;
   let labels := unique_labels y_true y_pred in
   Ok (map (fun t => map (count_pairs y_true y_pred t) labels) labels))%res.

(** [accuracy_score(y_true, y_pred)]: the share of rows whose prediction is
    the true label; the mean of no rows is NaN. *)
Definition accuracy_score (y_true y_pred : list Z) : result (option R) :=
  (_ <- check_consistent_length y_true y_pred ;;
   Ok (fdiv
         (Some (INR (length (filter (fun tp => (fst tp =? snd tp)%Z)
                               (combine y_true y_pred)))))
         (Some (INR (length y_true)))))%res.

(** The checks of [average='binary'] with [pos_label=1]: at most two labels
    occur, and 1 is one of them when two do. *)
Definition check_binary (y_true y_pred : list Z) : result unit :=
  (_ <- check_consistent_length y_true y_pred ;;
   let present := unique_labels y_true y_pred in
   if 2 <? length present then
     Err (ValueError "Target is multiclass but average='binary'")
   else if (2 <=? length present) && negb (existsb (Z.eqb 1) present) then
     Err (ValueError "pos_label=1 is not a valid label")
   else Ok tt)%res.

(** [_prf_divide] with [zero_division='warn']: a ratio with a zero
    denominator is 0. *)
Definition prf_divide (num den : nat) : R :=
  if den =? 0 then 0%R else (INR num / INR den)%R.

(** Rows of the positive class predicted positive. *)
Definition tp_sum (y_true y_pred : list Z) : nat :=
  count_pairs y_true y_pred 1 1.

(** Rows predicted positive. *)
Definition pred_sum (y_pred : list Z) : nat := count_occ Z.eq_dec y_pred 1%Z.

(** Rows of the positive class. *)
Definition true_sum (y_true : list Z) : nat := count_occ Z.eq_dec y_true 1%Z.

(** [precision_score(y_true, y_pred)]. *)
Definition precision_score (y_true y_pred : list Z) : result R :=
  (_ <- check_binary y_true y_pred ;;
   Ok (prf_divide (tp_sum y_true y_pred) (pred_sum y_pred)))%res.

(** [recall_score(y_true, y_pred)]. *)
Definition recall_score (y_true y_pred : list Z) : result R :=
  (_ <- check_binary y_true y_pred ;;
   Ok (prf_divide (tp_sum y_true y_pred) (true_sum y_true)))%res.

(** [f1_score(y_true, y_pred)]. *)
Definition f1_score (y_true y_pred : list Z) : result R :=
  (_ <- check_binary y_true y_pred ;;
   Ok (prf_divide (2 * tp_sum y_true y_pred)
         (true_sum y_true + pred_sum y_pred)))%res.

(** The sum of the diagonal of a matrix. *)
Definition trace (m : list (list nat)) : nat :=
  sum_nat (map (fun i => nth i (nth i m []) 0) (seq 0 (length m))).

(** The sum of all entries of a matrix. *)
Definition matrix_total (m : list (list nat)) : nat :=
  sum_nat (map sum_nat m).

End Metrics.

(** ** pandas: looking at a table *)

Module Inspection.
Import Pandas.

(** [df.shape]: rows and columns. *)
Definition shape (df : DataFrame) : nat * nat :=
  (nrows df, length (columns df)).

Definition is_number (s : Series) : bool :=
  match s with
  | SInt _ | SFloat _ => true
  | SObj _ => false
  end.

(** [df.select_dtypes(include=[np.number])]: the integer and float
    columns, in their order. *)
Definition select_dtypes_number (df : DataFrame) : DataFrame :=
  filter (fun kv => is_number (snd kv)) df.

End Inspection.

(** * Properties *)

(** ** The random source *)

Module NpRandomFacts.
Import NpRandom.

Lemma ret_succeeds {A} (a : A) (P : A -> Prop) : P a -> succeeds (ret a) P.
Proof. intros H s. exists a, s. split; [reflexivity | exact H]. Qed.

Lemma bind_succeeds {A B} (m : M A) (k : A -> M B) (P : A -> Prop)
    (Q : B -> Prop) :
  succeeds m P -> (forall a, P a -> succeeds (k a) Q) -> succeeds (bind m k) Q.
Proof.
  intros Hm Hk s. destruct (Hm s) as (a & s1 & E & Pa).
  destruct (Hk a Pa s1) as (b & s2 & E2 & Qb).
  exists b, s2. unfold bind. rewrite E. split; assumption.
Qed.

Lemma succeeds_weaken {A} (m : M A) (P Q : A -> Prop) :
  succeeds m P -> (forall a, P a -> Q a) -> succeeds m Q.
Proof.
  intros Hm HPQ s. destruct (Hm s) as (a & s' & E & Pa).
  exists a, s'. split; [exact E | apply HPQ, Pa].
Qed.

Lemma next_raw_succeeds : succeeds next_raw (fun _ => True).
Proof. intros s. eexists; eexists. split; [reflexivity | exact I]. Qed.

Lemma draws_succeeds {A} (m : M A) (P : A -> Prop) (size : nat) :
  succeeds m P ->
  succeeds (draws size m) (fun l => length l = size /\ Forall P l).
Proof.
  intros Hm. induction size as [|k IH]; simpl.
  - apply ret_succeeds. split; [reflexivity | constructor].
  - eapply bind_succeeds; [exact Hm |]. intros x Px.
    eapply bind_succeeds; [exact IH |]. intros xs [Hlen Hall].
    apply ret_succeeds. simpl. split; [now rewrite Hlen | now constructor].
Qed.

Lemma random_interval_succeeds (max : N) :
  succeeds (random_interval max) (fun r => (r <= max)%N).
Proof.
  unfold random_interval. eapply bind_succeeds; [apply next_raw_succeeds |].
  intros r _. apply ret_succeeds.
  assert (r mod (max + 1) < max + 1)%N by (apply N.mod_lt; lia). lia.
Qed.

Lemma random_sample_succeeds :
  succeeds random_sample (fun k => (0 <= k < two53)%Z).
Proof.
  unfold random_sample. eapply bind_succeeds; [apply next_raw_succeeds |].
  intros r _. apply ret_succeeds. apply Z.mod_pos_bound. reflexivity.
Qed.

Lemma randint_succeeds (low high : Z) (size : nat) :
  (low < high)%Z ->
  succeeds (randint low high size)
    (fun l => length l = size /\ Forall (fun z => (low <= z < high)%Z) l).
Proof.
  intros Hlt. unfold randint.
  destruct (Z.leb_spec high low); [lia |].
  apply draws_succeeds.
  eapply bind_succeeds; [apply random_interval_succeeds |].
  intros r Hr. apply ret_succeeds.
  apply N2Z.inj_le in Hr. rewrite Z2N.id in Hr by lia. lia.
Qed.

Lemma choice_succeeds {A} (d : A) (a : list A) (size : nat) :
  a <> [] ->
  succeeds (choice d a size) (fun l => length l = size /\ Forall (fun x => In x a) l).
Proof.
  intros Hne. unfold choice. destruct a as [|a0 a']; [congruence |].
  eapply bind_succeeds.
  - apply randint_succeeds. simpl length. lia.
  - intros idx [Hlen Hall]. apply ret_succeeds.
    split; [now rewrite length_map |].
    apply Forall_map. eapply Forall_impl; [| exact Hall].
    intros z Hz. cbv beta in Hz. apply nth_In. simpl length in *. lia.
Qed.

Lemma round_half_even_bounds (num den a b : Z) :
  (0 < den)%Z -> (a * den <= num <= b * den)%Z ->
  (a <= round_half_even num den <= b)%Z.
Proof.
  intros Hden [Ha Hb]. unfold round_half_even.
  pose proof (Z.div_mod num den ltac:(lia)) as E.
  pose proof (Z.mod_pos_bound num den Hden) as Hr.
  assert (a <= num / den)%Z by (apply Z.div_le_lower_bound; lia).
  assert (num / den <= b)%Z by (apply Z.div_le_upper_bound; lia).
  assert (num / den = b -> num mod den = 0)%Z
    by (intros Hq; rewrite Hq in E; lia).
  destruct (Z.ltb_spec (2 * (num mod den)) den); [lia |].
  destruct (Z.ltb_spec den (2 * (num mod den))); [lia |].
  destruct (Z.even (num / den)); lia.
Qed.

Lemma uniform_round2_succeeds (low high : Z) (size : nat) :
  (low <= high)%Z ->
  succeeds (uniform_round2 low high size)
    (fun l => length l = size /\
              Forall (fun c => (100 * low <= c <= 100 * high)%Z) l).
Proof.
  intros Hle. unfold uniform_round2. apply draws_succeeds.
  eapply bind_succeeds; [apply random_sample_succeeds |].
  intros k Hk. apply ret_succeeds.
  apply round_half_even_bounds; [reflexivity |].
  unfold two53 in *. nia.
Qed.

Lemma choice_p_succeeds {A} (d : A) (a : list A) (p : list Z) (den : Z)
    (size : nat) :
  length a = length p -> fold_right Z.add 0%Z p = den ->
  succeeds (choice_p d a p den size) (fun l => length l = size).
Proof.
  intros Hlen Hsum. unfold choice_p.
  rewrite Hlen, Nat.eqb_refl, Hsum, Z.eqb_refl. simpl negb. cbv iota.
  eapply succeeds_weaken.
  - apply (draws_succeeds _ (fun _ => True)).
    eapply bind_succeeds; [apply random_sample_succeeds |].
    intros k _. now apply ret_succeeds.
  - now intros l [H _].
Qed.

Lemma update_length {A} (l : list A) (i : nat) (x : A) :
  length (update l i x) = length l.
Proof.
  revert i. induction l as [|h t IH]; intros [|i]; simpl; auto.
Qed.

Lemma nth_update {A} (l : list A) (i k : nat) (x d : A) :
  i < length l ->
  nth k (update l i x) d = if k =? i then x else nth k l d.
Proof.
  revert i k. induction l as [|h t IH]; intros i k Hi; simpl in Hi; [lia |].
  destruct i as [|i], k as [|k]; simpl; auto.
  apply IH. lia.
Qed.

(** Overwriting position [i] trades the old element for the new one. *)
Lemma update_Permutation {A} (l : list A) (i : nat) (x d : A) :
  i < length l ->
  Permutation (x :: l) (nth i l d :: update l i x).
Proof.
  revert i. induction l as [|h t IH]; intros i Hi; simpl in Hi; [lia |].
  destruct i as [|i]; simpl.
  - apply perm_swap.
  - rewrite perm_swap. rewrite (IH i) by lia. apply perm_swap.
Qed.

Lemma swap_length (buf : list nat) (i j : nat) :
  length (swap buf i j) = length buf.
Proof. unfold swap. now rewrite !update_length. Qed.

Lemma swap_Permutation (buf : list nat) (i j : nat) :
  i < length buf -> j < length buf -> Permutation buf (swap buf i j).
Proof.
  intros Hi Hj. unfold swap.
  set (xi := nth i buf 0). set (xj := nth j buf 0).
  pose proof (update_Permutation buf i xj 0 Hi) as P1. fold xi in P1.
  assert (Hj' : j < length (update buf i xj)) by now rewrite update_length.
  pose proof (update_Permutation (update buf i xj) j xi 0 Hj') as P2.
  assert (E : nth j (update buf i xj) 0 = xj).
  { rewrite nth_update by exact Hi.
    destruct (Nat.eqb_spec j i); [reflexivity | reflexivity]. }
  rewrite E in P2. apply (Permutation_cons_inv (a := xj)).
  now rewrite P1, P2.
Qed.

Lemma shuffle_from_succeeds (i : nat) (buf : list nat) :
  i < length buf \/ i = 0 ->
  succeeds (shuffle_from i buf) (fun l => Permutation buf l).
Proof.
  revert buf. induction i as [|i IH]; intros buf Hi; simpl.
  - now apply ret_succeeds.
  - destruct Hi as [Hi | Hi]; [| discriminate].
    eapply bind_succeeds; [apply random_interval_succeeds |].
    intros j Hj. cbv beta in Hj.
    assert (Hj' : N.to_nat j < length buf) by lia.
    eapply succeeds_weaken.
    + apply IH. rewrite swap_length. lia.
    + intros l Hl. cbv beta in Hl. rewrite <- Hl.
      apply swap_Permutation; assumption.
Qed.

Lemma shuffle_succeeds (buf : list nat) :
  succeeds (shuffle buf) (fun l => Permutation buf l).
Proof.
  unfold shuffle. apply shuffle_from_succeeds.
  destruct buf; simpl; lia.
Qed.

Lemma permutation_succeeds (n : nat) :
  succeeds (permutation n) (fun l => Permutation (seq 0 n) l).
Proof. apply shuffle_succeeds. Qed.

Lemma map_nth_seq {A} (a : list A) (d : A) :
  map (fun i => nth i a d) (seq 0 (length a)) = a.
Proof.
  induction a as [|h t IH]; simpl; [reflexivity |].
  f_equal. rewrite <- seq_shift, map_map. exact IH.
Qed.

(** A draw without replacement is a prefix of a rearrangement of the
    population. *)
Lemma choice_no_replace_succeeds (a : list nat) (size : nat) :
  size <= length a ->
  succeeds (choice_no_replace a size)
    (fun l => length l = size /\ exists rest, Permutation a (l ++ rest)).
Proof.
  intros Hsize. unfold choice_no_replace.
  destruct (Nat.ltb_spec (length a) size); [lia |].
  eapply bind_succeeds; [apply permutation_succeeds |].
  intros perm Hperm. cbv beta in Hperm. apply ret_succeeds.
  assert (Hlen : length perm = length a)
    by now rewrite <- (Permutation_length Hperm), length_seq.
  split.
  - rewrite length_map, length_firstn. lia.
  - exists (map (fun i => nth i a 0) (skipn size perm)).
    rewrite <- map_app, firstn_skipn.
    rewrite <- (map_nth_seq a 0) at 1. now apply Permutation_map.
Qed.

Lemma choice_index_succeeds (n size : nat) :
  size <= n ->
  succeeds (choice_no_replace (seq 0 n) size)
    (fun l => length l = size /\ NoDup l /\ Forall (fun i => i < n) l).
Proof.
  intros Hsize. eapply succeeds_weaken.
  - apply choice_no_replace_succeeds. now rewrite length_seq.
  - intros l [Hlen [rest Hperm]]. split; [exact Hlen |].
    assert (Hnd : NoDup (l ++ rest))
      by (eapply Permutation_NoDup; [exact Hperm | apply seq_NoDup]).
    split; [now apply NoDup_app_remove_r in Hnd |].
    apply Forall_forall. intros i Hi.
    assert (Hin : In i (seq 0 n)).
    { eapply Permutation_in; [symmetry; exact Hperm |].
      apply in_or_app. now left. }
    apply in_seq in Hin. lia.
Qed.

End NpRandomFacts.

(** ** Frames and columns *)

Module PandasFacts.
Import Pandas.

Lemma map2_length {A B C} (f : A -> B -> C) (l : list A) (l' : list B) :
  length l = length l' -> length (map2 f l l') = length l.
Proof.
  revert l'. induction l as [|a t IH]; intros [|b t'] H; simpl in *;
    try discriminate; auto.
Qed.

Lemma nth_map2 {A B C} (f : A -> B -> C) (l : list A) (l' : list B)
    (i : nat) (da : A) (db : B) (dc : C) :
  length l = length l' -> i < length l ->
  nth i (map2 f l l') dc = f (nth i l da) (nth i l' db).
Proof.
  revert l' i. induction l as [|a t IH]; intros [|b t'] i H Hi; simpl in *;
    try discriminate; try lia.
  destruct i as [|i]; [reflexivity |]. apply IH; lia.
Qed.

Lemma at_positions_length {A} (idx : list nat) (f : A -> A) (v : list A) :
  length (at_positions idx f v) = length v.
Proof.
  unfold at_positions.
  now rewrite length_map, length_combine, length_seq, Nat.min_id.
Qed.

Lemma existsb_eqb_In (i : nat) (idx : list nat) :
  existsb (Nat.eqb i) idx = true <-> In i idx.
Proof.
  rewrite existsb_exists. split.
  - intros (x & Hx & E). apply Nat.eqb_eq in E. now subst.
  - intros H. exists i. split; [exact H | apply Nat.eqb_refl].
Qed.

Lemma nth_combine_seq {A} (v : list A) (i : nat) (d : A) :
  i < length v ->
  nth i (combine (seq 0 (length v)) v) (0, d) = (i, nth i v d).
Proof.
  intros Hi. rewrite combine_nth by now rewrite length_seq.
  now rewrite seq_nth.
Qed.

Lemma nth_map_lt {A B} (f : A -> B) (l : list A) (i : nat) (d : B) (d' : A) :
  i < length l -> nth i (map f l) d = f (nth i l d').
Proof.
  revert i. induction l as [|a t IH]; intros i Hi; simpl in *; [lia |].
  destruct i as [|i]; [reflexivity |]. apply IH. lia.
Qed.

Lemma nth_at_positions {A} (idx : list nat) (f : A -> A) (v : list A)
    (i : nat) (d : A) :
  i < length v ->
  nth i (at_positions idx f v) d =
  if existsb (Nat.eqb i) idx then f (nth i v d) else nth i v d.
Proof.
  intros Hi. unfold at_positions.
  rewrite (nth_map_lt _ _ _ _ (0, d))
    by now rewrite length_combine, length_seq, Nat.min_id.
  rewrite nth_combine_seq by exact Hi. reflexivity.
Qed.

Lemma nth_at_positions_in {A} (idx : list nat) (f : A -> A) (v : list A)
    (i : nat) (d : A) :
  i < length v -> In i idx -> nth i (at_positions idx f v) d = f (nth i v d).
Proof.
  intros Hi Hin. rewrite nth_at_positions by exact Hi.
  apply existsb_eqb_In in Hin. now rewrite Hin.
Qed.

Lemma nth_at_positions_out {A} (idx : list nat) (f : A -> A) (v : list A)
    (i : nat) (d : A) :
  i < length v -> ~ In i idx -> nth i (at_positions idx f v) d = nth i v d.
Proof.
  intros Hi Hout. rewrite nth_at_positions by exact Hi.
  destruct (existsb (Nat.eqb i) idx) eqn:E; [| reflexivity].
  apply existsb_eqb_In in E. contradiction.
Qed.

Lemma get_col_replace_same (c : string) (s : Series) (df : DataFrame) :
  get_col c (replace_col c s df) = Ok s.
Proof.
  induction df as [|[k s0] df IH]; simpl.
  - now rewrite String.eqb_refl.
  - destruct (String.eqb k c) eqn:E; simpl; rewrite E; auto.
Qed.

Lemma get_col_replace_other (c c' : string) (s : Series) (df : DataFrame) :
  c <> c' -> get_col c' (replace_col c s df) = get_col c' df.
Proof.
  intros Hne. induction df as [|[k s0] df IH]; simpl.
  - destruct (String.eqb_spec c c'); [contradiction | reflexivity].
  - destruct (String.eqb_spec k c) as [-> | Hk]; simpl.
    + destruct (String.eqb_spec c c'); [contradiction | reflexivity].
    + destruct (String.eqb k c'); auto.
Qed.

Lemma get_col_In (c : string) (df : DataFrame) :
  (exists s, get_col c df = Ok s) <-> In c (columns df).
Proof.
  unfold columns. induction df as [|[k s0] df IH]; simpl.
  - split; [intros [s H]; discriminate | tauto].
  - destruct (String.eqb_spec k c) as [-> | Hk].
    + split; [tauto | eauto].
    + rewrite IH. split; [tauto | intros [H | H]; [contradiction | exact H]].
Qed.

Lemma set_col_rows (c : string) (s : Series) (df : DataFrame) :
  0 < nrows df -> series_len s = nrows df ->
  set_col c s df = Ok (replace_col c s df).
Proof.
  intros Hpos H. destruct df as [|kv df]; [simpl in Hpos; lia |].
  unfold set_col. now rewrite H, Nat.eqb_refl.
Qed.

End PandasFacts.

(** ** The generation stage *)

Module GenerationFacts.
Import NpRandom Pandas Sklearn Notebook NpRandomFacts PandasFacts.

Ltac lookup :=
  cbn [get_col replace_col String.eqb Ascii.eqb Bool.eqb andb app raw_table
       derived_table rbind].

Ltac run_draw E := unfold bind at 1; rewrite E; cbv beta iota.

Lemma arange_length : length (arange 1 (n_records + 1)) = n_records.
Proof. unfold arange. rewrite length_map, length_seq. lia. Qed.

Lemma float_values_length (v : list Z) : length (float_values v) = length v.
Proof. apply length_map. Qed.

Lemma int_values_length (v : list Z) : length (int_values v) = length v.
Proof. apply length_map. Qed.

Lemma nrows_raw_table (d : Draws) : nrows (raw_table d) = n_records.
Proof. exact arange_length. Qed.

Lemma nrows_derived_table (d : Draws) : nrows (derived_table d) = n_records.
Proof. exact arange_length. Qed.

Lemma where_eq0_int (t : list Z) : where_eq0 (SInt t) = SInt (map guard0 t).
Proof. reflexivity. Qed.

Lemma series_div_float_int (x : list (option R)) (t : list Z) :
  length x = length t ->
  series_div (SFloat x) (SInt t) = Ok (SFloat (map2 fdiv x (int_values t))).
Proof.
  intros H. unfold series_div, to_float, rbind. fold (int_values t).
  now rewrite int_values_length, H, Nat.eqb_refl.
Qed.

Lemma series_mul_float_int (x : list (option R)) (t : list Z) :
  length x = length t ->
  series_mul (SFloat x) (SInt t) = Ok (SFloat (map2 fmul x (int_values t))).
Proof.
  intros H. unfold series_mul, to_float, rbind. fold (int_values t).
  now rewrite int_values_length, H, Nat.eqb_refl.
Qed.

Lemma n_records_pos : 0 < n_records.
Proof. unfold n_records. lia. Qed.

Lemma derived_features_raw (d : Draws) :
  length (monthly d) = n_records -> length (total d) = n_records ->
  length (tenure d) = n_records ->
  derived_features (raw_table d) = Ok (derived_table d).
Proof.
  intros Hm Ht Hn. pose proof n_records_pos as Hpos.
  unfold derived_features. lookup.
  rewrite where_eq0_int. unfold hundredths.
  rewrite series_div_float_int
    by now rewrite float_values_length, length_map, Ht, Hn.
  lookup. rewrite set_col_rows.
  2:{ now rewrite nrows_raw_table. }
  2:{ cbn [series_len]. rewrite nrows_raw_table, map2_length, float_values_length.
      - exact Ht.
      - now rewrite float_values_length, int_values_length, length_map, Ht, Hn. }
  lookup. unfold hundredths.
  rewrite series_mul_float_int by now rewrite float_values_length, Hm, Hn.
  lookup. rewrite set_col_rows.
  2:{ cbn [nrows series_len]. now rewrite arange_length. }
  2:{ cbn [series_len nrows]. rewrite map2_length, float_values_length.
      - now rewrite Hm, arange_length.
      - now rewrite float_values_length, int_values_length, Hm, Hn. }
  lookup. reflexivity.
Qed.

Lemma generate_data_spec (rs : RandomState) :
  exists d rs1, generate_data rs = (Ok (raw_table d), rs1) /\ draws_ok d.
Proof.
  destruct (randint_succeeds 18 70 n_records ltac:(lia) rs)
    as (v_age & s1 & E1 & L1 & R1).
  destruct (choice_succeeds "" ["Male"; "Female"] n_records
              ltac:(discriminate) s1) as (v_gender & s2 & E2 & L2 & _).
  destruct (choice_succeeds "" ["Month-to-month"; "One year"; "Two year"]
              n_records ltac:(discriminate) s2)
    as (v_contract & s3 & E3 & L3 & _).
  destruct (uniform_round2_succeeds 20 120 n_records ltac:(lia) s3)
    as (v_monthly & s4 & E4 & L4 & R4).
  destruct (uniform_round2_succeeds 100 8000 n_records ltac:(lia) s4)
    as (v_total & s5 & E5 & L5 & R5).
  destruct (choice_succeeds "" ["Yes"; "No"] n_records ltac:(discriminate) s5)
    as (v_tech & s6 & E6 & L6 & _).
  destruct (choice_succeeds "" ["DSL"; "Fiber optic"; "No"] n_records
              ltac:(discriminate) s6) as (v_internet & s7 & E7 & L7 & _).
  destruct (randint_succeeds 1 72 n_records ltac:(lia) s7)
    as (v_tenure & s8 & E8 & L8 & R8).
  destruct (choice_succeeds "" ["Yes"; "No"] n_records ltac:(discriminate) s8)
    as (v_paperless & s9 & E9 & L9 & _).
  destruct (choice_succeeds ""
              ["Cash"; "UPI"; "Internet Banking"; "Debit card"; "Credit card"]
              n_records ltac:(discriminate) s9)
    as (v_payment & s10 & E10 & L10 & _).
  destruct (choice_p_succeeds "" ["Yes"; "No"] [2; 8]%Z 10 n_records
              eq_refl eq_refl s10) as (v_churn & s11 & E11 & L11).
  exists (mkDraws v_age v_gender v_contract v_monthly v_total v_tech
            v_internet v_tenure v_paperless v_payment v_churn), s11.
  split.
  - unfold generate_data.
    run_draw E1. run_draw E2. run_draw E3. run_draw E4. run_draw E5.
    run_draw E6. run_draw E7. run_draw E8. run_draw E9. run_draw E10.
    run_draw E11.
    unfold lift, DataFrame_of_dict.
    cbn [forallb snd series_len nrows hundredths].
    rewrite arange_length, !float_values_length.
    rewrite L1, L2, L3, L4, L5, L6, L7, L8, L9, L10, L11.
    rewrite Nat.eqb_refl. reflexivity.
  - constructor; cbn [age gender contract monthly total tech internet tenure
                      paperless payment churn]; try assumption.
Qed.

Lemma check_labels_ok (idx : list nat) (df : DataFrame) :
  Forall (fun i => i < nrows df) idx -> check_labels idx df = Ok tt.
Proof.
  intros H. unfold check_labels.
  assert (E : forallb (fun i => i <? nrows df) idx = true).
  { apply forallb_forall. intros i Hi. apply Nat.ltb_lt.
    revert i Hi. now apply Forall_forall. }
  now rewrite E.
Qed.

Lemma data_generation_spec (rs : RandomState) :
  exists d missing outliers rs1 rs2,
    generate_data rs = (Ok (raw_table d), rs1) /\
    data_generation rs = (Ok (final_table d missing outliers), rs2) /\
    draws_ok d /\ rows_ok 50 missing /\ rows_ok 10 outliers.
Proof.
  destruct (generate_data_spec rs) as (d & rs1 & E & Hd).
  pose proof n_records_pos as Hpos.
  assert (H50 : 50 <= n_records) by (unfold n_records; lia).
  assert (H10 : 10 <= n_records) by (unfold n_records; lia).
  destruct (choice_index_succeeds n_records 50 H50 rs1)
    as (missing & rs2 & E2 & Hmiss).
  destruct (choice_index_succeeds n_records 10 H10 rs2)
    as (outliers & rs3 & E3 & Hout).
  exists d, missing, outliers, rs1, rs3.
  split; [exact E |]. split; [| split; [exact Hd | split; assumption]].
  destruct Hd. destruct Hmiss as (Lm & _ & Rm). destruct Hout as (Lo & _ & Ro).
  unfold data_generation. run_draw E.
  unfold bind at 1, lift at 1.
  rewrite derived_features_raw by assumption. cbv beta iota.
  unfold introduce_missing_and_outliers, index.
  rewrite nrows_derived_table. run_draw E2.
  unfold bind at 1, lift at 1, loc_set_nan.
  rewrite check_labels_ok by now rewrite nrows_derived_table.
  lookup. unfold hundredths, to_float. lookup.
  rewrite set_col_rows.
  2:{ cbn [nrows series_len]. now rewrite arange_length. }
  2:{ cbn [nrows series_len]. rewrite at_positions_length, float_values_length.
      now rewrite arange_length. }
  lookup. cbv beta iota. cbn [nrows series_len]. rewrite arange_length.
  run_draw E3.
  unfold lift, loc_imul.
  rewrite check_labels_ok by (cbn [nrows series_len]; now rewrite arange_length).
  lookup. unfold hundredths, to_float. lookup.
  rewrite set_col_rows.
  2:{ cbn [nrows series_len]. now rewrite arange_length. }
  2:{ cbn [nrows series_len]. rewrite at_positions_length, float_values_length.
      now rewrite arange_length. }
  lookup. reflexivity.
Qed.

Section FinalTable.
Variables (d : Draws) (missing outliers : list nat).
Hypothesis Hd : draws_ok d.

Lemma final_tenure :
  get_col "Tenure" (final_table d missing outliers) = Ok (SInt (tenure d)).
Proof. reflexivity. Qed.

Lemma final_monthly :
  get_col "MonthlyCharges" (final_table d missing outliers) =
  Ok (SFloat (at_positions outliers (fun x => fmul x (Some 1.5%R))
                (float_values (monthly d)))).
Proof. reflexivity. Qed.

Lemma final_total :
  get_col "TotalCharges" (final_table d missing outliers) =
  Ok (SFloat (at_positions missing (fun _ => None) (float_values (total d)))).
Proof. reflexivity. Qed.

Lemma final_avg :
  get_col "average_monthly_charges" (final_table d missing outliers) =
  Ok (SFloat (map2 fdiv (float_values (total d))
                (int_values (map guard0 (tenure d))))).
Proof. reflexivity. Qed.

Lemma final_clv :
  get_col "customer_lifetime_value" (final_table d missing outliers) =
  Ok (SFloat (map2 fmul (float_values (monthly d)) (int_values (tenure d)))).
Proof. reflexivity. Qed.

Lemma nrows_final_table : nrows (final_table d missing outliers) = n_records.
Proof. exact arange_length. Qed.

Lemma nth_float_values (v : list Z) (i : nat) :
  i < length v -> nth i (float_values v) None = Some (IZR (nth i v 0%Z) / 100)%R.
Proof. intros Hi. unfold float_values. now rewrite (nth_map_lt _ _ _ _ 0%Z). Qed.

Lemma nth_int_values (v : list Z) (i : nat) :
  i < length v -> nth i (int_values v) None = Some (IZR (nth i v 0%Z)).
Proof. intros Hi. unfold int_values. now rewrite (nth_map_lt _ _ _ _ 0%Z). Qed.

Lemma nth_tenure_range (i : nat) :
  i < n_records -> (1 <= nth i (tenure d) 0 < 72)%Z.
Proof.
  intros Hi. destruct Hd.
  apply (proj1 (Forall_nth _ _) tenure_range0). now rewrite tenure_len0.
Qed.

Lemma nth_monthly_range (i : nat) :
  i < n_records -> (2000 <= nth i (monthly d) 0 <= 12000)%Z.
Proof.
  intros Hi. destruct Hd.
  apply (proj1 (Forall_nth _ _) monthly_range0). now rewrite monthly_len0.
Qed.

(** The lifetime value of row [i] is the generated monthly charge times the
    tenure. *)
Lemma nth_clv (i : nat) :
  i < n_records ->
  nth i (map2 fmul (float_values (monthly d)) (int_values (tenure d))) None =
  Some (IZR (nth i (monthly d) 0%Z) / 100 * IZR (nth i (tenure d) 0%Z))%R.
Proof.
  intros Hi. destruct Hd.
  rewrite (nth_map2 _ _ _ _ None None)
    by (rewrite ?float_values_length, ?int_values_length; lia).
  rewrite nth_float_values, nth_int_values by lia. reflexivity.
Qed.

Lemma guard0_tenure : map guard0 (tenure d) = tenure d.
Proof.
  destruct Hd. rewrite <- (map_id (tenure d)) at 2.
  apply map_ext_Forall. eapply Forall_impl; [| exact tenure_range0].
  intros t Ht. cbv beta in Ht. unfold guard0.
  destruct (Z.eqb_spec t 0); [lia | reflexivity].
Qed.

Lemma nth_avg (i : nat) :
  i < n_records ->
  nth i (map2 fdiv (float_values (total d))
           (int_values (map guard0 (tenure d)))) None =
  Some (IZR (nth i (total d) 0%Z) / 100 / IZR (nth i (tenure d) 0%Z))%R.
Proof.
  intros Hi. rewrite guard0_tenure.
  pose proof (nth_tenure_range i Hi) as Ht. destruct Hd.
  rewrite (nth_map2 _ _ _ _ None None)
    by (rewrite ?float_values_length, ?int_values_length; lia).
  rewrite nth_float_values, nth_int_values by lia.
  unfold fdiv. destruct (Req_dec_T (IZR (nth i (tenure d) 0%Z)) 0) as [E | _].
  - apply eq_IZR in E. lia.
  - reflexivity.
Qed.

End FinalTable.

(** Counting the rows a positional update touched. *)
Lemma filter_at_positions_from {A} (p : A -> bool) (f : A -> A)
    (idx : list nat) (v : list A) (k : nat) :
  (forall x, In x v -> p x = false) -> (forall x, p (f x) = true) ->
  length (filter p (map (fun ix => if existsb (Nat.eqb (fst ix)) idx
                                   then f (snd ix) else snd ix)
                      (combine (seq k (length v)) v))) =
  length (filter (fun i => existsb (Nat.eqb i) idx) (seq k (length v))).
Proof.
  intros Hv Hf. revert k. induction v as [|x v IH]; intros k; [reflexivity |].
  specialize (IH (fun y Hy => Hv y (or_intror Hy)) (S k)).
  cbn [length seq combine map filter fst snd].
  destruct (existsb (Nat.eqb k) idx).
  - rewrite Hf. cbn [length]. now rewrite IH.
  - rewrite (Hv x (or_introl eq_refl)). exact IH.
Qed.

Lemma count_selected (idx : list nat) (n : nat) :
  NoDup idx -> Forall (fun i => i < n) idx ->
  length (filter (fun i => existsb (Nat.eqb i) idx) (seq 0 n)) = length idx.
Proof.
  intros Hnd Hlt. apply Permutation_length, NoDup_Permutation.
  - apply NoDup_filter, seq_NoDup.
  - exact Hnd.
  - intros i. rewrite filter_In, existsb_eqb_In, in_seq. split; [tauto |].
    intros Hi. split; [| exact Hi].
    pose proof (proj1 (Forall_forall _ _) Hlt i Hi). cbv beta in *. lia.
Qed.

Lemma count_null_at_positions (idx : list nat) (v : list Z) :
  NoDup idx -> Forall (fun i => i < length v) idx ->
  count_null (SFloat (at_positions idx (fun _ => None) (float_values v))) =
  length idx.
Proof.
  intros Hnd Hlt. unfold count_null.
  transitivity (length (filter (fun i => existsb (Nat.eqb i) idx)
                          (seq 0 (length (float_values v))))).
  - apply (filter_at_positions_from
             (fun x : option R => match x with None => true | _ => false end)
             (fun _ => None)).
    + intros x Hx. unfold float_values in Hx. apply in_map_iff in Hx.
      destruct Hx as (c & <- & _). reflexivity.
    + reflexivity.
  - rewrite float_values_length. now apply count_selected.
Qed.

(** C9: every generated row has a tenure in [1, 71]; no tenure is 0, so the
    tenure = 0 substitution of the average_monthly_charges computation
    never fires on the generator's output. *)
Theorem tenure_range_guard_unreachable (rs : RandomState) :
  exists raw rs1 data rs2 tenure,
    generate_data rs = (Ok raw, rs1) /\
    data_generation rs = (Ok data, rs2) /\
    get_col "Tenure" raw = Ok (SInt tenure) /\
    get_col "Tenure" data = Ok (SInt tenure) /\
    length tenure = n_records /\
    Forall (fun t => (1 <= t <= 71)%Z) tenure /\
    ~ In 0%Z tenure /\
    where_eq0 (SInt tenure) = SInt tenure.
Proof.
  destruct (data_generation_spec rs)
    as (d & missing & outliers & rs1 & rs2 & E1 & E2 & Hd & _ & _).
  exists (raw_table d), rs1, (final_table d missing outliers), rs2, (tenure d).
  split; [exact E1 |]. split; [exact E2 |].
  split; [reflexivity |]. split; [reflexivity |].
  split; [apply (tenure_len d Hd) |].
  assert (Hr : Forall (fun t => (1 <= t <= 71)%Z) (tenure d)).
  { eapply Forall_impl; [| apply (tenure_range d Hd)].
    intros t Ht. cbv beta in Ht. lia. }
  split; [exact Hr |]. split.
  - intros H0. pose proof (proj1 (Forall_forall _ _) Hr 0%Z H0) as H.
    cbv beta in H. lia.
  - rewrite where_eq0_int. f_equal. now apply guard0_tenure.
Qed.

(** C10: in the persisted table both derived columns hold a value in every
    row, the 50 rows without TotalCharges included: they were computed from
    the generated charges before the missing values were written. *)
Theorem derived_fields_non_null (rs : RandomState) :
  exists data rs2 total avg clv,
    data_generation rs = (Ok data, rs2) /\
    get_col "TotalCharges" data = Ok (SFloat total) /\
    get_col "average_monthly_charges" data = Ok (SFloat avg) /\
    get_col "customer_lifetime_value" data = Ok (SFloat clv) /\
    length total = n_records /\ length avg = n_records /\
    length clv = n_records /\
    count_null (SFloat total) = 50 /\
    count_null (SFloat avg) = 0 /\ count_null (SFloat clv) = 0 /\
    forall i, i < n_records ->
      nth i avg None <> None /\ nth i clv None <> None.
Proof.
  destruct (data_generation_spec rs)
    as (d & missing & outliers & rs1 & rs2 & E1 & E2 & Hd & Hm & _).
  destruct Hm as (Lm & Nm & Rm).
  pose proof (total_len d Hd) as Lt. pose proof (tenure_len d Hd) as Ln.
  pose proof (monthly_len d Hd) as Lc.
  assert (Lavg : length (map2 fdiv (float_values (total d))
                           (int_values (map guard0 (tenure d)))) = n_records).
  { rewrite map2_length, float_values_length; [exact Lt |].
    now rewrite float_values_length, int_values_length, length_map, Lt, Ln. }
  assert (Lclv : length (map2 fmul (float_values (monthly d))
                           (int_values (tenure d))) = n_records).
  { rewrite map2_length, float_values_length; [exact Lc |].
    now rewrite float_values_length, int_values_length, Lc, Ln. }
  assert (Hrows : forall i, i < n_records ->
            nth i (map2 fdiv (float_values (total d))
                     (int_values (map guard0 (tenure d)))) None <> None /\
            nth i (map2 fmul (float_values (monthly d))
                     (int_values (tenure d))) None <> None).
  { intros i Hi. rewrite (nth_avg d Hd i Hi), (nth_clv d Hd i Hi).
    split; discriminate. }
  assert (Hnone : forall l : list (option R),
            length l = n_records ->
            (forall i, i < n_records -> nth i l None <> None) ->
            count_null (SFloat l) = 0).
  { intros l Hl Hall. unfold count_null.
    destruct (filter _ l) as [|x t] eqn:Ef; [reflexivity |].
    assert (Hin : In x (filter (fun x => match x with None => true
                                         | Some _ => false end) l))
      by (rewrite Ef; now left).
    apply filter_In in Hin. destruct Hin as [Hin Hx].
    destruct x; [discriminate |].
    destruct (In_nth _ _ None Hin) as (i & Hi & Ei).
    exfalso. apply (Hall i); [now rewrite <- Hl | exact Ei]. }
  eexists; exists rs2; eexists; eexists; eexists.
  split; [exact E2 |].
  split; [apply final_total |]. split; [apply final_avg |].
  split; [apply final_clv |].
  split; [now rewrite at_positions_length, float_values_length |].
  split; [exact Lavg |]. split; [exact Lclv |].
  split; [rewrite count_null_at_positions; [exact Lm | exact Nm |
                                             now rewrite Lt] |].
  split; [apply Hnone; [exact Lavg | intros i Hi; apply Hrows, Hi] |].
  split; [apply Hnone; [exact Lclv | intros i Hi; apply Hrows, Hi] |].
  exact Hrows.
Qed.

Lemma monthly_positive (d : Draws) (i : nat) :
  draws_ok d -> i < n_records -> (20 <= IZR (nth i (monthly d) 0%Z) / 100)%R.
Proof.
  intros Hd Hi. pose proof (nth_monthly_range d Hd i Hi) as [Hlo _].
  apply IZR_le in Hlo. lra.
Qed.

(** C7: after the generation stage exactly 50 rows have no TotalCharges and
    exactly 10 rows have a MonthlyCharges 1.5 times the generated one; each
    group of rows is drawn without replacement.  [missing] and [outliers]
    are the drawn rows: 50 and 10 distinct rows of the table, and a row is
    blanked, or inflated, exactly when it is one of them. *)
Theorem fifty_missing_ten_inflated (rs : RandomState) :
  exists raw rs1 data rs2 missing outliers monthly0 monthly total,
    generate_data rs = (Ok raw, rs1) /\
    data_generation rs = (Ok data, rs2) /\
    get_col "MonthlyCharges" raw = Ok (SFloat monthly0) /\
    get_col "MonthlyCharges" data = Ok (SFloat monthly) /\
    get_col "TotalCharges" data = Ok (SFloat total) /\
    nrows data = n_records /\
    length monthly0 = n_records /\ length monthly = n_records /\
    length total = n_records /\
    (length missing = 50 /\ NoDup missing /\
     Forall (fun i => i < n_records) missing /\
     count_null (SFloat total) = 50 /\
     (forall i, In i missing <-> i < n_records /\ nth i total None = None) /\
     forall i, i < n_records -> (nth i total None = None <-> In i missing)) /\
    (length outliers = 10 /\ NoDup outliers /\
     Forall (fun i => i < n_records) outliers /\
     (forall i, In i outliers <->
                i < n_records /\ nth i monthly None <> nth i monthly0 None) /\
     forall i, i < n_records ->
       (nth i monthly None <> nth i monthly0 None <-> In i outliers) /\
       (In i outliers ->
        exists x, nth i monthly0 None = Some x /\
                  nth i monthly None = Some (x * 1.5)%R)).
Proof.
  destruct (data_generation_spec rs)
    as (d & missing & outliers & rs1 & rs2 & E1 & E2 & Hd & Hm & Ho).
  destruct Hm as (Lm & Nm & Rm). destruct Ho as (Lo & No & Ro).
  pose proof (total_len d Hd) as Lt. pose proof (monthly_len d Hd) as Lc.
  exists (raw_table d), rs1, (final_table d missing outliers), rs2,
    missing, outliers.
  eexists; eexists; eexists.
  split; [exact E1 |]. split; [exact E2 |].
  split; [reflexivity |]. split; [apply final_monthly |].
  split; [apply final_total |]. split; [apply nrows_final_table |].
  split; [unfold hundredths; cbn [series_len];
          now rewrite float_values_length |].
  split; [now rewrite at_positions_length, float_values_length |].
  split; [now rewrite at_positions_length, float_values_length |].
  assert (Hmiss : forall i, i < n_records ->
            (nth i (at_positions missing (fun _ => None)
                      (float_values (total d))) None = None
             <-> In i missing)).
  { intros i Hi. rewrite nth_at_positions
      by now rewrite float_values_length, Lt.
    rewrite nth_float_values by now rewrite Lt.
    rewrite <- existsb_eqb_In.
    destruct (existsb (Nat.eqb i) missing); split; congruence. }
  assert (Hout : forall i, i < n_records ->
            (nth i (at_positions outliers (fun x => fmul x (Some 1.5%R))
                      (float_values (monthly d))) None <>
             nth i (float_values (monthly d)) None <-> In i outliers) /\
            (In i outliers ->
             exists x, nth i (float_values (monthly d)) None = Some x /\
                       nth i (at_positions outliers
                                (fun x => fmul x (Some 1.5%R))
                                (float_values (monthly d))) None =
                       Some (x * 1.5)%R)).
  { intros i Hi. rewrite nth_at_positions
      by now rewrite float_values_length, Lc.
    rewrite nth_float_values by now rewrite Lc.
    pose proof (monthly_positive d i Hd Hi) as Hpos.
    rewrite <- existsb_eqb_In. cbn [fmul].
    destruct (existsb (Nat.eqb i) outliers); split.
    + split; [reflexivity |]. intros _ E. injection E as E. lra.
    + intros _. eexists. split; reflexivity.
    + split; [congruence | discriminate].
    + discriminate. }
  split.
  - split; [exact Lm |]. split; [exact Nm |]. split; [exact Rm |].
    split; [rewrite count_null_at_positions;
            [exact Lm | exact Nm | now rewrite Lt] |].
    split; [| exact Hmiss].
    intros i. split.
    + intros Hin.
      assert (Hi : i < n_records)
        by (revert i Hin; now apply Forall_forall).
      split; [exact Hi | now apply Hmiss].
    + intros [Hi Hnull]. now apply Hmiss.
  - split; [exact Lo |]. split; [exact No |]. split; [exact Ro |].
    split; [| exact Hout].
    intros i. split.
    + intros Hin.
      assert (Hi : i < n_records)
        by (revert i Hin; now apply Forall_forall).
      split; [exact Hi | now apply (Hout i Hi)].
    + intros [Hi Hne]. now apply (Hout i Hi).
Qed.

(** C1, as stated, fails: with the all-zero random source the persisted
    table has a row whose lifetime value is not its final monthly charge
    times its tenure. *)
Lemma clv_final_monthly_counterexample :
  exists data rs',
    data_generation zeros = (Ok data, rs') /\
    ~ clv_is_monthly_times_tenure data.
Proof.
  destruct (data_generation_spec zeros)
    as (d & missing & outliers & rs1 & rs2 & E1 & E2 & Hd & Hm & Ho).
  destruct Ho as (Lo & No & Ro).
  exists (final_table d missing outliers), rs2. split; [exact E2 |].
  intros (monthly & tenure & clv & Hmc & Hten & Hclv & Hrows).
  rewrite final_monthly in Hmc. rewrite final_tenure in Hten.
  rewrite final_clv in Hclv.
  injection Hmc as <-. injection Hten as <-. injection Hclv as <-.
  destruct outliers as [|i rest]; [discriminate |].
  assert (Hi : i < n_records) by now inversion Ro.
  specialize (Hrows i). rewrite nrows_final_table in Hrows.
  specialize (Hrows Hi). pose proof (monthly_len d Hd) as Lc.
  rewrite (nth_clv d Hd i Hi) in Hrows.
  rewrite nth_at_positions_in in Hrows
    by first [now left | now rewrite float_values_length, Lc].
  rewrite nth_float_values in Hrows by now rewrite Lc.
  cbn [fmul] in Hrows. injection Hrows as E.
  pose proof (monthly_positive d i Hd Hi) as Hpos.
  pose proof (nth_tenure_range d Hd i Hi) as [Hlo _].
  apply IZR_le in Hlo. nra.
Qed.

(** C1, amended: the lifetime value of every persisted row is the monthly
    charge as generated times the tenure.  On a row the outlier step left
    alone this is the final monthly charge times the tenure; on the 10 rows
    it drew, 10 distinct rows of the table, the final monthly charge is 1.5
    times the generated one and the lifetime value is not the final charge
    times the tenure. *)
Theorem clv_generated_monthly_times_tenure (rs : RandomState) :
  exists raw rs1 data rs2 outliers monthly0 monthly tenure clv,
    generate_data rs = (Ok raw, rs1) /\
    data_generation rs = (Ok data, rs2) /\
    get_col "MonthlyCharges" raw = Ok (SFloat monthly0) /\
    get_col "MonthlyCharges" data = Ok (SFloat monthly) /\
    get_col "Tenure" data = Ok (SInt tenure) /\
    get_col "customer_lifetime_value" data = Ok (SFloat clv) /\
    nrows data = n_records /\
    length outliers = 10 /\ NoDup outliers /\
    Forall (fun i => i < n_records) outliers /\
    (forall i, In i outliers <->
               i < n_records /\ nth i monthly None <> nth i monthly0 None) /\
    forall i, i < n_records ->
      nth i clv None =
        fmul (nth i monthly0 None) (Some (IZR (nth i tenure 0%Z))) /\
      (~ In i outliers ->
       nth i monthly None = nth i monthly0 None /\
       nth i clv None =
         fmul (nth i monthly None) (Some (IZR (nth i tenure 0%Z)))) /\
      (In i outliers ->
       nth i monthly None = fmul (nth i monthly0 None) (Some 1.5%R) /\
       exists x,
         nth i monthly0 None = Some x /\
         nth i monthly None = Some (x * 1.5)%R /\
         nth i clv None = Some (x * IZR (nth i tenure 0%Z))%R /\
         nth i clv None <>
           fmul (nth i monthly None) (Some (IZR (nth i tenure 0%Z)))).
Proof.
  destruct (data_generation_spec rs)
    as (d & missing & outliers & rs1 & rs2 & E1 & E2 & Hd & Hm & Ho).
  destruct Ho as (Lo & No & Ro). pose proof (monthly_len d Hd) as Lc.
  exists (raw_table d), rs1, (final_table d missing outliers), rs2, outliers.
  eexists; eexists; eexists; eexists.
  split; [exact E1 |]. split; [exact E2 |].
  split; [reflexivity |]. split; [apply final_monthly |].
  split; [apply final_tenure |]. split; [apply final_clv |].
  split; [apply nrows_final_table |].
  split; [exact Lo |]. split; [exact No |]. split; [exact Ro |].
  assert (Hchanged : forall i, i < n_records ->
            (nth i (at_positions outliers (fun x => fmul x (Some 1.5%R))
                      (float_values (monthly d))) None <>
             nth i (float_values (monthly d)) None <-> In i outliers)).
  { intros i Hi. rewrite nth_at_positions
      by now rewrite float_values_length, Lc.
    rewrite nth_float_values by now rewrite Lc.
    pose proof (monthly_positive d i Hd Hi) as Hpos.
    rewrite <- existsb_eqb_In. cbn [fmul].
    destruct (existsb (Nat.eqb i) outliers); split.
    - reflexivity.
    - intros _ E. injection E as E. lra.
    - congruence.
    - discriminate. }
  split.
  { intros i. split.
    - intros Hin.
      assert (Hi : i < n_records)
        by (revert i Hin; now apply Forall_forall).
      split; [exact Hi | now apply Hchanged].
    - intros [Hi Hne]. now apply Hchanged. }
  intros i Hi.
  assert (Hclv : nth i (map2 fmul (float_values (monthly d))
                          (int_values (tenure d))) None =
                 fmul (nth i (float_values (monthly d)) None)
                      (Some (IZR (nth i (tenure d) 0%Z)))).
  { rewrite (nth_clv d Hd i Hi), nth_float_values by now rewrite Lc.
    reflexivity. }
  split; [exact Hclv |]. split.
  - intros Hout.
    rewrite nth_at_positions_out
      by (rewrite ?float_values_length, ?Lc; assumption).
    split; [reflexivity | exact Hclv].
  - intros Hin.
    rewrite nth_at_positions_in
      by (rewrite ?float_values_length, ?Lc; assumption).
    split; [reflexivity |].
    rewrite (nth_clv d Hd i Hi), nth_float_values by now rewrite Lc.
    pose proof (monthly_positive d i Hd Hi) as Hpos.
    pose proof (nth_tenure_range d Hd i Hi) as [Hlo _].
    apply IZR_le in Hlo.
    eexists. split; [reflexivity |]. cbn [fmul].
    split; [reflexivity |]. split; [reflexivity |].
    intros E. injection E as E. nra.
Qed.

End GenerationFacts.

(** ** Imputation and standardization *)

Module SklearnFacts.
Import Pandas Sklearn PandasFacts.

Local Open Scope R_scope.

Lemma Rsum_scale (a : R) (l : list R) :
  Rsum (map (fun x => a * x) l) = a * Rsum l.
Proof.
  induction l as [|x t IH]; simpl; [lra |]. rewrite IH. lra.
Qed.

Lemma Rsum_shift (c : R) (l : list R) :
  Rsum (map (fun x => x - c) l) = Rsum l - INR (length l) * c.
Proof.
  induction l as [|x t IH]; [simpl; lra |].
  cbn [map Rsum fold_right length]. fold (Rsum (map (fun x => x - c) t)).
  fold (Rsum t). rewrite IH, S_INR. lra.
Qed.

Lemma Rsum_squares_nonneg (f : R -> R) (l : list R) :
  0 <= Rsum (map (fun x => f x * f x) l).
Proof.
  induction l as [|x t IH]; simpl; [lra |].
  fold (Rsum (map (fun x => f x * f x) t)). nra.
Qed.

Lemma INR_length_pos {A} (l : list A) : l <> [] -> 0 < INR (length l).
Proof.
  intros H. destruct l; [congruence |]. apply lt_0_INR. simpl. lia.
Qed.

Lemma var_nonneg (l : list R) : l <> [] -> 0 <= var l.
Proof.
  intros H. unfold var, mean. rewrite length_map.
  pose proof (INR_length_pos l H).
  pose proof (Rsum_squares_nonneg (fun x => x - Rsum l / INR (length l)) l).
  apply Rmult_le_pos; [assumption |].
  left. now apply Rinv_0_lt_compat.
Qed.

(** The centred values sum to zero. *)
Lemma Rsum_centred (l : list R) :
  l <> [] -> Rsum (map (fun x => x - mean l) l) = 0.
Proof.
  intros H. rewrite Rsum_shift. unfold mean.
  pose proof (INR_length_pos l H). field. lra.
Qed.

Section Standardized.
Variable xs : list R.
Hypothesis Hne : xs <> [].
Hypothesis Hvar : var xs <> 0.

Let z (x : R) : R := (x - mean xs) / handle_zeros_in_scale (var xs).

Lemma scale_is_std : handle_zeros_in_scale (var xs) = sqrt (var xs).
Proof.
  unfold handle_zeros_in_scale.
  destruct (Req_dec_T (var xs) 0); [contradiction | reflexivity].
Qed.

Lemma std_pos : 0 < sqrt (var xs).
Proof.
  apply sqrt_lt_R0. pose proof (var_nonneg xs Hne). lra.
Qed.

Lemma standardized_mean : mean (map z xs) = 0.
Proof.
  unfold mean. rewrite length_map.
  replace (map z xs)
    with (map (fun y => / sqrt (var xs) * y) (map (fun x => x - mean xs) xs)).
  - rewrite Rsum_scale, Rsum_centred by exact Hne.
    unfold Rdiv. now rewrite Rmult_0_r, Rmult_0_l.
  - rewrite map_map. apply map_ext. intros x. unfold z.
    rewrite scale_is_std. pose proof std_pos. field. lra.
Qed.

Lemma standardized_var : var (map z xs) = 1.
Proof.
  unfold var at 1. rewrite standardized_mean, map_map.
  unfold mean at 1. rewrite length_map.
  replace (map (fun x => (z x - 0) * (z x - 0)) xs)
    with (map (fun y => / var xs * y)
            (map (fun x => (x - mean xs) * (x - mean xs)) xs)).
  - rewrite Rsum_scale.
    pose proof (INR_length_pos xs Hne) as Hn.
    assert (E : Rsum (map (fun x => (x - mean xs) * (x - mean xs)) xs) =
                var xs * INR (length xs)).
    { unfold var. set (sq := map _ xs). unfold mean.
      replace (length sq) with (length xs) by (unfold sq; now rewrite length_map).
      field. lra. }
    rewrite E. field. split; lra.
  - rewrite map_map. apply map_ext. intros x. unfold z.
    rewrite scale_is_std. pose proof std_pos as Hs.
    pose proof (sqrt_sqrt (var xs) ltac:(pose proof (var_nonneg xs Hne); lra))
      as Hsq.
    rewrite <- Hsq at 1. field. lra.
Qed.

Lemma standardized_std : std (map z xs) = 1.
Proof. unfold std. rewrite standardized_var. apply sqrt_1. Qed.

End Standardized.

Lemma non_null_map (f : R -> R) (v : list (option R)) :
  non_null (map (option_map f) v) = map f (non_null v).
Proof.
  induction v as [|[x|] t IH]; simpl; [reflexivity | | exact IH].
  now rewrite IH.
Qed.

(** The divisor of the standardization is never zero. *)
Lemma scale_nonzero (xs : list R) : handle_zeros_in_scale (var xs) <> 0.
Proof.
  unfold handle_zeros_in_scale.
  destruct (Req_dec_T (var xs) 0) as [E | N]; [lra |].
  destruct xs as [|x t].
  - exfalso. apply N. unfold var, mean. simpl. lra.
  - pose proof (var_nonneg (x :: t) ltac:(discriminate)).
    pose proof (sqrt_lt_R0 (var (x :: t)) ltac:(lra)). lra.
Qed.

End SklearnFacts.

(** ** The preprocessing cells *)

Module PreprocessFacts.
Import NpRandom Pandas Sklearn Notebook PandasFacts SklearnFacts.

Lemma set_col_Ok (c : string) (s : Series) (df df' : DataFrame) :
  set_col c s df = Ok df' -> df' = replace_col c s df.
Proof.
  unfold set_col. destruct df as [|kv df]; [now intros [= <-] |].
  destruct (series_len s =? nrows (kv :: df)); [now intros [= <-] | discriminate].
Qed.

Lemma columns_replace_existing (c : string) (s : Series) (df : DataFrame) :
  In c (columns df) -> columns (replace_col c s df) = columns df.
Proof.
  unfold columns. induction df as [|[k s0] df IH]; simpl; [tauto |].
  intros H. destruct (String.eqb_spec k c) as [-> | Hk]; [reflexivity |].
  simpl. f_equal. apply IH. destruct H; [contradiction | assumption].
Qed.

Lemma non_null_nil_count (v : list (option R)) :
  non_null v = [] -> count_null (SFloat v) = length v.
Proof.
  unfold count_null. induction v as [|[x|] t IH]; simpl;
    [reflexivity | discriminate |].
  intros H. now rewrite IH.
Qed.

Lemma impute_mean_Ok (s : Series) (before : list (option R)) :
  to_float s = Ok before -> non_null before <> [] ->
  impute_mean s = Ok (SFloat (map (fill (mean (non_null before))) before)).
Proof.
  intros Hf Hne. unfold impute_mean. rewrite Hf. cbn [rbind].
  destruct (non_null before) as [|x xs] eqn:E; [congruence | reflexivity].
Qed.

Lemma count_null_fill (m : R) (v : list (option R)) :
  count_null (SFloat (map (fill m) v)) = 0.
Proof.
  unfold count_null. induction v as [|[x|] t IH]; simpl; auto.
Qed.

(** C3: after the imputation cell no TotalCharges entry is missing; an
    entry that was missing holds the mean of the entries observed before
    the cell ran, and an observed entry keeps its value. *)
Theorem imputation_fills_with_mean (data : DataFrame) (s : Series)
    (before : list (option R)) :
  get_col "TotalCharges" data = Ok s ->
  to_float s = Ok before ->
  non_null before <> [] ->
  length before = nrows data ->
  exists after data',
    handle_missing_values data = Ok data' /\
    get_col "TotalCharges" data' = Ok (SFloat after) /\
    length after = length before /\
    count_null (SFloat after) = 0 /\
    forall i, i < length before ->
      match nth i before None with
      | None => nth i after None = Some (mean (non_null before))
      | Some x => nth i after None = Some x
      end.
Proof.
  intros Hget Hf Hne Hlen.
  exists (map (fill (mean (non_null before))) before).
  exists (replace_col "TotalCharges"
            (SFloat (map (fill (mean (non_null before))) before)) data).
  assert (Hpos : 0 < nrows data).
  { rewrite <- Hlen. destruct before; [now elim Hne | simpl; lia]. }
  split.
  - unfold handle_missing_values. rewrite Hget. cbn [rbind].
    rewrite (impute_mean_Ok s before Hf Hne). cbn [rbind].
    apply set_col_rows; [exact Hpos |].
    cbn [series_len]. now rewrite length_map.
  - split; [apply get_col_replace_same |].
    split; [apply length_map |].
    split; [apply count_null_fill |].
    intros i Hi. rewrite (nth_map_lt _ _ _ _ None) by exact Hi.
    destruct (nth i before None); reflexivity.
Qed.

Lemma imputation_fills_with_mean_witness :
  exists after data',
    handle_missing_values
      [("TotalCharges", SFloat [Some 1%R; None; Some 3%R])] = Ok data' /\
    get_col "TotalCharges" data' = Ok (SFloat after) /\
    length after = 3 /\
    count_null (SFloat after) = 0 /\
    forall i, i < 3 ->
      match nth i [Some 1%R; None; Some 3%R] None with
      | None => nth i after None = Some (mean [1%R; 3%R])
      | Some x => nth i after None = Some x
      end.
Proof.
  apply (imputation_fills_with_mean
           [("TotalCharges", SFloat [Some 1%R; None; Some 3%R])]
           (SFloat [Some 1%R; None; Some 3%R])
           [Some 1%R; None; Some 3%R]).
  - reflexivity.
  - reflexivity.
  - simpl. discriminate.
  - reflexivity.
Defined.

Lemma rbind_Ok {A B} (r : result A) (k : A -> result B) (b : B) :
  rbind r k = Ok b -> exists a, r = Ok a /\ k a = Ok b.
Proof. destruct r as [a | e]; [eauto | discriminate]. Qed.

Lemma to_float_where_eq0 (ts : Series) (w : list (option R)) :
  to_float (where_eq0 ts) = Ok w ->
  exists tenure, to_float ts = Ok tenure /\ w = map guardR tenure.
Proof.
  destruct ts as [v | v | v]; cbn [where_eq0 to_float]; intros [= <-].
  - eexists. split; [reflexivity |]. rewrite !map_map. apply map_ext.
    intros t. cbn [guardR].
    destruct (Z.eqb_spec t 0) as [-> | Hne].
    + destruct (Req_dec_T 0 0); [reflexivity | contradiction].
    + destruct (Req_dec_T (IZR t) 0) as [E | _]; [| reflexivity].
      apply eq_IZR in E. contradiction.
  - exists v. split; reflexivity.
Qed.

Lemma series_div_Ok (a b r : Series) :
  series_div a b = Ok r ->
  exists x y, to_float a = Ok x /\ to_float b = Ok y /\
              length x = length y /\ r = SFloat (map2 fdiv x y).
Proof.
  unfold series_div. intros H.
  apply rbind_Ok in H. destruct H as (x & Hx & H).
  apply rbind_Ok in H. destruct H as (y & Hy & H).
  destruct (Nat.eqb_spec (length x) (length y)); [| discriminate].
  injection H as <-. now exists x, y.
Qed.

Lemma fdiv_one (m : option R) : fdiv m (Some 1%R) = m.
Proof.
  destruct m as [x|]; [| reflexivity]. cbn [fdiv].
  destruct (Req_dec_T 1 0); [lra |]. f_equal. field.
Qed.

Lemma add_ratio_spec (X X' : DataFrame) :
  add_monthly_to_tenure_ratio X = Ok X' -> has_guarded_ratio X X'.
Proof.
  unfold add_monthly_to_tenure_ratio. intros H.
  apply rbind_Ok in H. destruct H as (ms & Hms & H).
  apply rbind_Ok in H. destruct H as (ts & Hts & H).
  apply rbind_Ok in H. destruct H as (r & Hr & H).
  apply series_div_Ok in Hr.
  destruct Hr as (monthly & w & Hm & Hw & Hlen & ->).
  apply to_float_where_eq0 in Hw. destruct Hw as (tenure & Ht & ->).
  apply set_col_Ok in H. subst X'.
  rewrite length_map in Hlen.
  exists ms, ts, monthly, tenure, (map2 fdiv monthly (map guardR tenure)).
  split; [exact Hms |]. split; [exact Hm |].
  split; [exact Hts |]. split; [exact Ht |].
  split; [apply get_col_replace_same |].
  split; [apply map2_length; now rewrite length_map |].
  intros i Hi.
  rewrite (nth_map2 _ _ _ _ None None) by (rewrite ?length_map; lia).
  rewrite (nth_map_lt _ _ _ _ None) by lia.
  split; [reflexivity |].
  intros E. rewrite E. cbn [guardR].
  destruct (Req_dec_T 0 0); [apply fdiv_one | contradiction].
Qed.

(** C2: on each split subset the added monthly_to_tenure_ratio is, row by
    row, MonthlyCharges divided by Tenure with 1 in place of a Tenure equal
    to 0; a row whose Tenure is 0 gets its MonthlyCharges as ratio. *)
Theorem ratio_guards_zero_tenure (s s' : Split) :
  feature_engineering s = Ok s' ->
  has_guarded_ratio (X_train s) (X_train s') /\
  has_guarded_ratio (X_test s) (X_test s').
Proof.
  unfold feature_engineering. intros H.
  apply rbind_Ok in H. destruct H as (X1 & H1 & H).
  apply rbind_Ok in H. destruct H as (X2 & H2 & H).
  injection H as <-. cbn [X_train X_test].
  split; now apply add_ratio_spec.
Qed.

Lemma ratio_guards_zero_tenure_witness :
  exists s',
    feature_engineering
      (mkSplit [] []
         [("MonthlyCharges", SFloat [Some 2%R; Some 3%R]);
          ("Tenure", SFloat [Some 0%R; Some 4%R])]
         [("MonthlyCharges", SFloat [Some 5%R]);
          ("Tenure", SInt [0%Z])]
         [0%Z; 1%Z] [1%Z]) = Ok s' /\
    has_guarded_ratio
      [("MonthlyCharges", SFloat [Some 2%R; Some 3%R]);
       ("Tenure", SFloat [Some 0%R; Some 4%R])] (X_train s') /\
    has_guarded_ratio
      [("MonthlyCharges", SFloat [Some 5%R]); ("Tenure", SInt [0%Z])]
      (X_test s').
Proof.
  eexists. split; [reflexivity |].
  apply (ratio_guards_zero_tenure
           (mkSplit [] []
              [("MonthlyCharges", SFloat [Some 2%R; Some 3%R]);
               ("Tenure", SFloat [Some 0%R; Some 4%R])]
              [("MonthlyCharges", SFloat [Some 5%R]);
               ("Tenure", SInt [0%Z])]
              [0%Z; 1%Z] [1%Z])).
  reflexivity.
Defined.

Lemma get_cols_Forall2 (cs : list string) (df : DataFrame) (ss : list Series) :
  get_cols cs df = Ok ss -> Forall2 (fun c s => get_col c df = Ok s) cs ss.
Proof.
  revert ss. induction cs as [|c cs IH]; intros ss H; cbn [get_cols] in H.
  - injection H as <-. constructor.
  - apply rbind_Ok in H. destruct H as (s & Hs & H).
    apply rbind_Ok in H. destruct H as (ss' & Hss & H).
    injection H as <-. constructor; [exact Hs | now apply IH].
Qed.

Lemma get_cols_absent (cs : list string) (df : DataFrame) (c : string) :
  In c cs -> ~ In c (columns df) -> exists e, get_cols cs df = Err e.
Proof.
  intros Hin Habs. destruct (get_cols cs df) as [ss | e] eqn:E; [| eauto].
  exfalso. apply get_cols_Forall2 in E. apply Habs.
  induction E as [|c0 s cs' ss' Hc _ IH]; [contradiction |].
  destruct Hin as [-> | Hin]; [| now apply IH].
  apply get_col_In. eauto.
Qed.

Lemma standardize_all_Forall2 (ss zs : list Series) :
  standardize_all ss = Ok zs -> Forall2 (fun s z => standardize s = Ok z) ss zs.
Proof.
  revert zs. induction ss as [|s ss IH]; intros zs H; cbn [standardize_all] in H.
  - injection H as <-. constructor.
  - apply rbind_Ok in H. destruct H as (z & Hz & H).
    apply rbind_Ok in H. destruct H as (zs' & Hzs & H).
    injection H as <-. constructor; [exact Hz | now apply IH].
Qed.

Lemma get_col_set_col_same (c : string) (s : Series) (df df' : DataFrame) :
  set_col c s df = Ok df' -> get_col c df' = Ok s.
Proof. intros H. apply set_col_Ok in H. subst. apply get_col_replace_same. Qed.

Lemma get_col_set_col_other (c c' : string) (s : Series) (df df' : DataFrame) :
  set_col c s df = Ok df' -> c <> c' -> get_col c' df' = get_col c' df.
Proof.
  intros H Hne. apply set_col_Ok in H. subst.
  now apply get_col_replace_other.
Qed.

Lemma columns_set_col (c : string) (s : Series) (df df' : DataFrame) :
  set_col c s df = Ok df' -> In c (columns df) -> columns df' = columns df.
Proof.
  intros H Hin. apply set_col_Ok in H. subst.
  now apply columns_replace_existing.
Qed.

Lemma set_cols_spec (cs : list string) (zs : list Series) (df df' : DataFrame) :
  set_cols cs zs df = Ok df' -> NoDup cs ->
  Forall2 (fun c z => get_col c df' = Ok z) cs zs /\
  (forall c', ~ In c' cs -> get_col c' df' = get_col c' df).
Proof.
  revert zs df. induction cs as [|c cs IH]; intros [|z zs] df H Hnd;
    cbn [set_cols] in H; try discriminate.
  - injection H as <-. split; [constructor | reflexivity].
  - apply rbind_Ok in H. destruct H as (df1 & H1 & H).
    inversion Hnd as [|? ? Hnotin Hnd']; subst.
    destruct (IH zs df1 H Hnd') as [Hall Hother]. split.
    + constructor; [| exact Hall].
      rewrite (Hother c Hnotin). now apply (get_col_set_col_same c z df).
    + intros c' Hc'. rewrite Hother by (intros Hin; apply Hc'; now right).
      apply (get_col_set_col_other c c' z df); [exact H1 |].
      intros ->. apply Hc'. now left.
Qed.

Lemma set_cols_columns (cs : list string) (zs : list Series)
    (df df' : DataFrame) :
  set_cols cs zs df = Ok df' -> (forall c, In c cs -> In c (columns df)) ->
  columns df' = columns df.
Proof.
  revert zs df. induction cs as [|c cs IH]; intros [|z zs] df H Hin;
    cbn [set_cols] in H; try discriminate.
  - now injection H as <-.
  - apply rbind_Ok in H. destruct H as (df1 & H1 & H).
    pose proof (columns_set_col c z df df1 H1 (Hin c (or_introl eq_refl))) as E.
    rewrite (IH zs df1 H); [exact E |].
    intros c' Hc'. rewrite E. apply Hin. now right.
Qed.

Lemma handle_missing_values_columns (data data' : DataFrame) :
  handle_missing_values data = Ok data' ->
  In "TotalCharges" (columns data) /\ columns data' = columns data.
Proof.
  unfold handle_missing_values. intros H.
  apply rbind_Ok in H. destruct H as (s & Hs & H).
  apply rbind_Ok in H. destruct H as (z & Hz & H).
  assert (Hin : In "TotalCharges" (columns data)) by (apply get_col_In; eauto).
  split; [exact Hin | exact (columns_set_col _ _ _ _ H Hin)].
Qed.

Lemma encode_categorical_columns (cols : list string) (data data' : DataFrame) :
  encode_categorical cols data = Ok data' ->
  (forall c, In c cols -> In c (columns data)) /\ columns data' = columns data.
Proof.
  revert data. induction cols as [|col rest IH]; intros data H;
    cbn [encode_categorical] in H.
  - injection H as <-. split; [intros c [] | reflexivity].
  - apply rbind_Ok in H. destruct H as (s & Hs & H).
    apply rbind_Ok in H. destruct H as (d1 & H1 & H).
    assert (Hin : In col (columns data)) by (apply get_col_In; eauto).
    pose proof (columns_set_col _ _ _ _ H1 Hin) as E.
    destruct (IH d1 H) as [Hall Hcols]. rewrite E in Hall, Hcols.
    split; [| exact Hcols].
    intros c [<- | Hc]; [exact Hin | now apply Hall].
Qed.

Lemma feature_scaling_columns (data data' : DataFrame) :
  feature_scaling data = Ok data' ->
  (forall c, In c numeric_columns -> In c (columns data)) /\
  columns data' = columns data.
Proof.
  unfold feature_scaling. intros H.
  apply rbind_Ok in H. destruct H as (ss & Hss & H).
  apply rbind_Ok in H. destruct H as (zs & Hzs & H).
  assert (Hall : forall c, In c numeric_columns -> In c (columns data)).
  { intros c Hc. destruct (in_dec string_dec c (columns data)) as [|Habs];
      [assumption |].
    destruct (get_cols_absent numeric_columns data c Hc Habs) as [e E].
    congruence. }
  split; [exact Hall | exact (set_cols_columns _ _ _ _ H Hall)].
Qed.

Lemma split_dataset_columns (rs42 : RandomState) (data : DataFrame) (s : Split) :
  split_dataset rs42 data = Ok s ->
  In "CustomerID" (columns data) /\ In "Churn" (columns data).
Proof.
  unfold split_dataset, drop. intros H.
  apply rbind_Ok in H. destruct H as (X0 & HX & H).
  apply rbind_Ok in HX. destruct HX as (ss & Hss & _).
  apply get_cols_Forall2 in Hss.
  inversion Hss as [|? ? ? ? H1 Hss']; subst.
  inversion Hss' as [|? ? ? ? H2 _]; subst.
  split; apply get_col_In; eauto.
Qed.

(** A table without one of the requested columns makes the preprocessor
    raise. *)
Lemma preprocess_absent_column (rs42 : RandomState) (data : DataFrame)
    (c : string) :
  In c requested_columns -> ~ In c (columns data) ->
  exists e, preprocess rs42 data = Err e.
Proof.
  intros Hreq Habs. unfold preprocess.
  destruct (handle_missing_values data) as [d1 | e] eqn:E1; [| eexists; reflexivity].
  destruct (handle_missing_values_columns _ _ E1) as [Hin1 C1].
  cbn [rbind].
  destruct (encode_categorical categorical_columns d1) as [d2 | e] eqn:E2;
    [| eexists; reflexivity].
  destruct (encode_categorical_columns _ _ _ E2) as [Hin2 C2].
  cbn [rbind].
  destruct (feature_scaling d2) as [d3 | e] eqn:E3; [| eexists; reflexivity].
  destruct (feature_scaling_columns _ _ E3) as [Hin3 C3].
  cbn [rbind].
  destruct (split_dataset rs42 d3) as [s | e] eqn:E4; [| eexists; reflexivity].
  destruct (split_dataset_columns _ _ _ E4) as [Hin4 Hin4'].
  exfalso. apply Habs. unfold requested_columns in Hreq.
  destruct Hreq as [<- | Hreq]; [exact Hin1 |].
  apply in_app_or in Hreq. destruct Hreq as [Hreq | Hreq].
  { rewrite <- C1. now apply Hin2. }
  apply in_app_or in Hreq. destruct Hreq as [Hreq | Hreq].
  { rewrite <- C1, <- C2. now apply Hin3. }
  destruct Hreq as [<- | []]. now rewrite <- C1, <- C2, <- C3.
Qed.

Lemma Rsum_repeat (x : R) (n : nat) : Rsum (repeat x n) = (INR n * x)%R.
Proof.
  induction n as [|n IH]; [simpl; lra |].
  cbn [repeat Rsum fold_right]. fold (Rsum (repeat x n)).
  rewrite IH, S_INR. lra.
Qed.

Lemma mean_repeat (x : R) (n : nat) : 0 < n -> mean (repeat x n) = x.
Proof.
  intros Hn. unfold mean. rewrite Rsum_repeat, repeat_length.
  apply lt_INR in Hn. simpl in Hn. field. lra.
Qed.

Lemma var_repeat (x : R) (n : nat) : 0 < n -> var (repeat x n) = 0%R.
Proof.
  intros Hn. unfold var. rewrite (mean_repeat x n Hn), map_repeat.
  rewrite (mean_repeat _ n Hn). ring.
Qed.

Lemma non_null_repeat (x : R) (n : nat) :
  non_null (repeat (Some x) n) = repeat x n.
Proof. induction n as [|n IH]; simpl; [reflexivity | now rewrite IH]. Qed.

Lemma standardize_constant (x : R) (n : nat) :
  0 < n ->
  standardize (SFloat (repeat (Some x) n)) = Ok (SFloat (repeat (Some 0%R) n)).
Proof.
  intros Hn. unfold standardize, scaled_values. cbn [to_float rbind].
  rewrite non_null_repeat.
  destruct (repeat x n) as [|y l] eqn:E.
  { destruct n; [lia | discriminate]. }
  rewrite <- E. rewrite (var_repeat x n Hn), (mean_repeat x n Hn).
  unfold handle_zeros_in_scale.
  destruct (Req_dec_T 0 0); [| contradiction].
  rewrite map_repeat. cbn [option_map].
  replace ((x - x) / 1)%R with 0%R by field. reflexivity.
Qed.

(** C8: the preprocessor raises when the table lacks a column it asks for;
    the divisor of the standardization is never zero, a constant column
    being scaled by 1 (its standardized values are all 0). *)
Theorem absent_column_raises_constant_column_guarded :
  (forall (rs42 : RandomState) (data : DataFrame) (c : string),
      In c requested_columns -> ~ In c (columns data) ->
      exists e, preprocess rs42 data = Err e) /\
  (forall xs : list R, handle_zeros_in_scale (var xs) <> 0%R) /\
  (forall (x : R) (n : nat), 0 < n ->
      var (repeat x n) = 0%R /\
      handle_zeros_in_scale (var (repeat x n)) = 1%R /\
      standardize (SFloat (repeat (Some x) n)) =
        Ok (SFloat (repeat (Some 0%R) n))).
Proof.
  split; [exact preprocess_absent_column |].
  split; [exact scale_nonzero |].
  intros x n Hn. split; [now apply var_repeat |].
  split; [| now apply standardize_constant].
  rewrite (var_repeat x n Hn). unfold handle_zeros_in_scale.
  destruct (Req_dec_T 0 0); [reflexivity | contradiction].
Qed.

Lemma absent_column_raises_constant_column_guarded_witness :
  (exists e, preprocess zeros [("Age", SInt [30%Z])] = Err e) /\
  standardize (SFloat (repeat (Some 7%R) 3)) =
    Ok (SFloat (repeat (Some 0%R) 3)).
Proof.
  split.
  - apply (proj1 absent_column_raises_constant_column_guarded
             zeros [("Age", SInt [30%Z])] "TotalCharges").
    + simpl. tauto.
    + simpl. intros [H | []]. discriminate.
  - apply (proj2 (proj2 absent_column_raises_constant_column_guarded) 7%R 3).
    lia.
Defined.

Lemma var_nil : var [] = 0%R.
Proof. unfold var, mean. simpl. unfold Rdiv. apply Rmult_0_l. Qed.

(** What [standardize] returns on a column with some spread. *)
Lemma standardize_spec (s z : Series) :
  standardize s = Ok z ->
  exists before after,
    to_float s = Ok before /\ z = SFloat after /\
    length after = length before /\
    (var (non_null before) <> 0%R ->
     after = map (option_map
                    (fun x => ((x - mean (non_null before))
                               / std (non_null before))%R)) before /\
     mean (non_null after) = 0%R /\ std (non_null after) = 1%R).
Proof.
  unfold standardize, scaled_values. intros H.
  apply rbind_Ok in H. destruct H as (before & Hf & H).
  destruct (non_null before) as [|x xs] eqn:E.
  - injection H as <-. exists before. eexists.
    split; [exact Hf |]. split; [reflexivity |].
    split; [apply length_map |].
    intros Hv. exfalso. apply Hv. rewrite E. apply var_nil.
  - rewrite <- E in *. injection H as <-. exists before. eexists.
    split; [exact Hf |]. split; [reflexivity |].
    split; [apply length_map |].
    intros Hv.
    assert (Hne : non_null before <> []) by (rewrite E; discriminate).
    split.
    + apply map_ext. intros [y|]; [| reflexivity]. cbn [option_map].
      unfold std. now rewrite (scale_is_std _ Hv).
    + rewrite non_null_map.
      split; [now apply standardized_mean | now apply standardized_std].
Qed.

Lemma Forall2_chain {A B C} (R1 : A -> B -> Prop) (R2 : B -> C -> Prop)
    (R3 : A -> C -> Prop) (la : list A) (lb : list B) (lc : list C) :
  Forall2 R1 la lb -> Forall2 R2 lb lc -> Forall2 R3 la lc ->
  forall a, In a la -> exists b c, R1 a b /\ R2 b c /\ R3 a c.
Proof.
  intros H1. revert lc. induction H1 as [|a0 b0 la lb Hab _ IH];
    intros lc H2 H3 a Hin; [contradiction |].
  inversion H2 as [|? c0 ? lc' Hbc H2']; subst.
  inversion H3 as [|? ? ? ? Hac H3']; subst.
  destruct Hin as [<- | Hin]; [now exists b0, c0 |].
  now apply (IH lc').
Qed.

Lemma numeric_columns_NoDup : NoDup numeric_columns.
Proof.
  unfold numeric_columns.
  repeat (constructor; [simpl; intuition discriminate |]). constructor.
Qed.

Lemma feature_scaling_spec (data data' : DataFrame) (c : string) :
  feature_scaling data = Ok data' -> In c numeric_columns ->
  exists src z,
    get_col c data = Ok src /\ standardize src = Ok z /\
    get_col c data' = Ok z.
Proof.
  unfold feature_scaling. intros H Hc.
  apply rbind_Ok in H. destruct H as (ss & Hss & H).
  apply rbind_Ok in H. destruct H as (zs & Hzs & H).
  apply get_cols_Forall2 in Hss.
  assert (Hall : standardize_all ss = Ok zs).
  { unfold StandardScaler_fit_transform in Hzs.
    destruct ss as [|s0 ss]; [discriminate |].
    destruct (series_len s0 =? 0); [discriminate | exact Hzs]. }
  apply standardize_all_Forall2 in Hall.
  destruct (set_cols_spec _ _ _ _ H numeric_columns_NoDup) as [Hset _].
  exact (Forall2_chain _ _ _ _ _ _ Hss Hall Hset c Hc).
Qed.

Lemma get_col_filter (p : string -> bool) (c : string) (df : DataFrame) :
  p c = true ->
  get_col c (filter (fun kv => p (fst kv)) df) = get_col c df.
Proof.
  intros Hp. induction df as [|[k s] df IH]; [reflexivity |].
  cbn [filter fst get_col].
  destruct (String.eqb_spec k c) as [-> | Hk].
  - rewrite Hp. cbn [get_col]. now rewrite String.eqb_refl.
  - destruct (p k); [| exact IH]. cbn [get_col].
    destruct (String.eqb_spec k c); [contradiction | exact IH].
Qed.

Lemma get_col_drop (cs : list string) (df df' : DataFrame) (c : string) :
  drop cs df = Ok df' -> ~ In c cs -> get_col c df' = get_col c df.
Proof.
  unfold drop. intros H Hc.
  apply rbind_Ok in H. destruct H as (ss & _ & H). injection H as <-.
  apply (get_col_filter (fun k => negb (existsb (String.eqb k) cs))).
  apply negb_true_iff. destruct (existsb (String.eqb c) cs) eqn:E;
    [| reflexivity].
  apply existsb_exists in E. destruct E as (k & Hk & E).
  apply String.eqb_eq in E. subst. contradiction.
Qed.

(** The subsets a split returns are rows of the table it was given. *)
Lemma train_test_split_Ok (X0 : DataFrame) (y0 : list Z) (num den : nat)
    (rs : RandomState) (stratify : bool)
    (parts : DataFrame * DataFrame * list Z * list Z) :
  train_test_split X0 y0 num den rs stratify = Ok parts ->
  exists n_train n_test train test,
    nrows X0 = length y0 /\
    validate_shuffle_split (length y0) num den = Ok (n_train, n_test) /\
    fst ((if stratify then StratifiedShuffleSplit y0 n_train n_test
          else ShuffleSplit (length y0) n_train n_test) rs)
      = Ok (train, test) /\
    parts = (iloc train X0, iloc test X0,
             map (fun i => nth i y0 0%Z) train,
             map (fun i => nth i y0 0%Z) test).
Proof.
  unfold train_test_split. intros H.
  destruct (Nat.eqb_spec (nrows X0) (length y0)) as [Hn | Hn];
    [| discriminate]. cbn [negb] in H.
  apply rbind_Ok in H. destruct H as ([n_train n_test] & Hv & H).
  apply rbind_Ok in H. destruct H as ([train test] & Hs & H).
  injection H as <-. now exists n_train, n_test, train, test.
Qed.

Lemma split_dataset_Ok (rs42 : RandomState) (data : DataFrame) (s : Split) :
  split_dataset rs42 data = Ok s ->
  drop ["CustomerID"; "Churn"] data = Ok (X s) /\
  get_col "Churn" data = Ok (SInt (y s)) /\
  train_test_split (X s) (y s) 1 5 rs42 true =
    Ok (X_train s, X_test s, y_train s, y_test s).
Proof.
  unfold split_dataset. intros H.
  apply rbind_Ok in H. destruct H as (X0 & HX & H).
  apply rbind_Ok in H. destruct H as (churn & Hc & H).
  apply rbind_Ok in H. destruct H as (y0 & Hy & H).
  apply rbind_Ok in H. destruct H as ([[[Xtr Xte] ytr] yte] & Hs & H).
  injection H as <-. cbn [X y X_train X_test y_train y_test].
  destruct churn as [v | v | v]; try discriminate. injection Hy as ->.
  now repeat split.
Qed.

(** C6: the six numeric columns are standardized on the whole table, by
    the cell that runs before the split; the split subsets are rows of the
    standardized table.  A column whose variance is not zero comes out with
    mean 0 and standard deviation 1 over the whole table. *)
Theorem standardized_before_split (rs42 : RandomState) (data : DataFrame)
    (s : Split) :
  preprocess rs42 data = Ok s ->
  exists imputed encoded scaled train test,
    handle_missing_values data = Ok imputed /\
    encode_categorical categorical_columns imputed = Ok encoded /\
    feature_scaling encoded = Ok scaled /\
    split_dataset rs42 scaled = Ok s /\
    X_train s = iloc train (X s) /\ X_test s = iloc test (X s) /\
    forall c, In c numeric_columns ->
      exists src before after,
        get_col c encoded = Ok src /\ to_float src = Ok before /\
        get_col c scaled = Ok (SFloat after) /\
        get_col c (X s) = Ok (SFloat after) /\
        length after = length before /\
        (var (non_null before) <> 0%R ->
         after = map (option_map
                        (fun x => ((x - mean (non_null before))
                                   / std (non_null before))%R)) before /\
         mean (non_null after) = 0%R /\ std (non_null after) = 1%R).
Proof.
  unfold preprocess. intros H.
  apply rbind_Ok in H. destruct H as (imputed & H1 & H).
  apply rbind_Ok in H. destruct H as (encoded & H2 & H).
  apply rbind_Ok in H. destruct H as (scaled & H3 & H4).
  destruct (split_dataset_Ok _ _ _ H4) as (HX & Hy & Hs).
  destruct (train_test_split_Ok _ _ _ _ _ _ _ Hs)
    as (n_train & n_test & train & test & _ & _ & _ & Hparts).
  injection Hparts as Etr Ete _ _.
  exists imputed, encoded, scaled, train, test.
  repeat (split; [assumption |]).
  intros c Hc.
  destruct (feature_scaling_spec _ _ c H3 Hc) as (src & z & Hsrc & Hz & Hget).
  destruct (standardize_spec _ _ Hz)
    as (before & after & Hf & -> & Hlen & Hstat).
  exists src, before, after.
  split; [exact Hsrc |]. split; [exact Hf |]. split; [exact Hget |].
  split; [| split; [exact Hlen | exact Hstat]].
  rewrite (get_col_drop _ _ _ c HX); [exact Hget |].
  unfold numeric_columns in Hc. simpl in Hc. simpl.
  intuition (subst; discriminate).
Qed.

(** Evaluate the cells on a concrete table, leaving the arithmetic on real
    numbers alone. *)
Ltac run_cells :=
  lazy -[Rplus Rminus Rmult Rdiv Rinv Ropp IZR INR sqrt Req_dec_T Rlt_dec
         mean var std Rsum handle_zeros_in_scale];
  reflexivity.

Lemma standardized_before_split_witness :
  exists s imputed encoded scaled train test,
    preprocess zeros sample_table = Ok s /\
    handle_missing_values sample_table = Ok imputed /\
    encode_categorical categorical_columns imputed = Ok encoded /\
    feature_scaling encoded = Ok scaled /\
    X_train s = iloc train (X s) /\ X_test s = iloc test (X s).
Proof.
  assert (E : exists s, preprocess zeros sample_table = Ok s)
    by (eexists; run_cells).
  destruct E as [s E].
  destruct (standardized_before_split zeros sample_table s E)
    as (imputed & encoded & scaled & train & test & H1 & H2 & H3 & _ & Htr
        & Hte & _).
  exists s, imputed, encoded, scaled, train, test. tauto.
Defined.

End PreprocessFacts.

(** ** The stratified split *)

Module SplitFacts.
Import NpRandom Pandas Sklearn Notebook NpRandomFacts PandasFacts.
Import PreprocessFacts.

(** *** Sorted tables of distinct values *)

Lemma insert_asc_In (x c : Z) (l : list Z) :
  In c (insert_asc x l) <-> c = x \/ In c l.
Proof.
  induction l as [|y l IH]; simpl; [intuition |].
  destruct (Z.ltb_spec x y); [simpl; intuition |].
  destruct (Z.eqb_spec x y) as [-> | Hne]; simpl; [intuition |].
  rewrite IH. intuition.
Qed.

Lemma insert_asc_sorted (x : Z) (l : list Z) :
  StronglySorted Z.lt l -> StronglySorted Z.lt (insert_asc x l).
Proof.
  induction l as [|y l IH]; intros Hs; simpl.
  - repeat constructor.
  - inversion Hs as [|? ? Hl Hy]; subst.
    destruct (Z.ltb_spec x y).
    + constructor; [exact Hs |]. constructor; [assumption |].
      eapply Forall_impl; [| exact Hy]. intros a Ha. cbv beta in Ha. lia.
    + destruct (Z.eqb_spec x y); [exact Hs |].
      constructor; [now apply IH |].
      apply Forall_forall. intros a Ha. apply insert_asc_In in Ha.
      destruct Ha as [-> | Ha]; [lia |].
      now apply (proj1 (Forall_forall _ _) Hy).
Qed.

Lemma sorted_lt_NoDup (l : list Z) : StronglySorted Z.lt l -> NoDup l.
Proof.
  induction 1 as [|a l Hs IH Ha]; constructor; [| exact IH].
  intros Hin. pose proof (proj1 (Forall_forall _ _) Ha a Hin). lia.
Qed.

Lemma unique_In (y : list Z) (c : Z) : In c (unique y) <-> In c y.
Proof.
  unfold unique. induction y as [|x y IH]; simpl; [tauto |].
  rewrite insert_asc_In, IH. intuition.
Qed.

Lemma unique_NoDup (y : list Z) : NoDup (unique y).
Proof.
  apply sorted_lt_NoDup. unfold unique.
  induction y as [|x y IH]; simpl; [constructor | now apply insert_asc_sorted].
Qed.

Lemma insert_desc_In (x c : nat) (l : list nat) :
  In c (insert_desc x l) <-> c = x \/ In c l.
Proof.
  induction l as [|y l IH]; simpl; [intuition |].
  destruct (Nat.ltb_spec y x); [simpl; intuition |].
  destruct (Nat.eqb_spec y x) as [-> | Hne]; simpl; [intuition |].
  rewrite IH. intuition.
Qed.

Lemma insert_desc_sorted (x : nat) (l : list nat) :
  StronglySorted gt l -> StronglySorted gt (insert_desc x l).
Proof.
  induction l as [|y l IH]; intros Hs; simpl.
  - repeat constructor.
  - inversion Hs as [|? ? Hl Hy]; subst.
    destruct (Nat.ltb_spec y x).
    + constructor; [exact Hs |]. constructor; [assumption |].
      eapply Forall_impl; [| exact Hy]. intros a Ha. cbv beta in Ha. lia.
    + destruct (Nat.eqb_spec y x); [exact Hs |].
      constructor; [now apply IH |].
      apply Forall_forall. intros a Ha. apply insert_desc_In in Ha.
      destruct Ha as [-> | Ha]; [lia |].
      now apply (proj1 (Forall_forall _ _) Hy).
Qed.

Lemma sort_unique_desc_In (a : list nat) (c : nat) :
  In c (sort_unique_desc a) <-> In c a.
Proof.
  unfold sort_unique_desc. induction a as [|x a IH]; simpl; [tauto |].
  rewrite insert_desc_In, IH. intuition.
Qed.

Lemma sort_unique_desc_NoDup (a : list nat) : NoDup (sort_unique_desc a).
Proof.
  assert (Hs : StronglySorted gt (sort_unique_desc a)).
  { unfold sort_unique_desc.
    induction a as [|x a IH]; simpl; [constructor | now apply insert_desc_sorted]. }
  induction Hs as [|x l Hs IH Hx]; constructor; [| exact IH].
  intros Hin. pose proof (proj1 (Forall_forall _ _) Hx x Hin). lia.
Qed.

(** *** Positions selected by a test *)

Lemma pos_filter_In {A} (p : A -> bool) (l : list A) (d : A) (k0 k : nat) :
  In k (map fst (filter (fun ix => p (snd ix)) (combine (seq k0 (length l)) l)))
  <-> k0 <= k < k0 + length l /\ p (nth (k - k0) l d) = true.
Proof.
  revert k0. induction l as [|x l IH]; intros k0.
  - simpl. split; [tauto | lia].
  - cbn [length seq combine filter snd].
    assert (Hrec := IH (S k0)).
    destruct (p x) eqn:Px; cbn [map fst In]; rewrite Hrec; clear Hrec IH.
    + split.
      * intros [<- | [Hk Hp]].
        -- split; [lia |]. rewrite Nat.sub_diag. exact Px.
        -- split; [lia |]. replace (k - k0) with (S (k - S k0)) by lia.
           exact Hp.
      * intros [Hk Hp]. destruct (Nat.eq_dec k0 k) as [-> | Hne]; [now left |].
        right. split; [lia |].
        replace (k - k0) with (S (k - S k0)) in Hp by lia. exact Hp.
    + split.
      * intros [Hk Hp]. split; [lia |].
        replace (k - k0) with (S (k - S k0)) by lia. exact Hp.
      * intros [Hk Hp]. destruct (Nat.eq_dec k0 k) as [-> | Hne].
        -- rewrite Nat.sub_diag in Hp. cbn [nth] in Hp. congruence.
        -- split; [lia |].
           replace (k - k0) with (S (k - S k0)) in Hp by lia. exact Hp.
Qed.

Lemma pos_filter_length {A} (p : A -> bool) (l : list A) (k0 : nat) :
  length (map fst (filter (fun ix => p (snd ix))
                     (combine (seq k0 (length l)) l))) =
  length (filter p l).
Proof.
  rewrite length_map. revert k0. induction l as [|x l IH]; intros k0;
    [reflexivity |].
  cbn [length seq combine filter snd]. destruct (p x); cbn [length]; now rewrite IH.
Qed.

Lemma pos_filter_NoDup {A} (p : A -> bool) (l : list A) (k0 : nat) :
  NoDup (map fst (filter (fun ix => p (snd ix)) (combine (seq k0 (length l)) l))).
Proof.
  revert k0. induction l as [|x l IH]; intros k0; [constructor |].
  cbn [length seq combine filter snd]. destruct (p x); [| apply IH].
  cbn [map fst]. constructor; [| apply IH].
  intros Hin. apply (pos_filter_In p l x (S k0) k0) in Hin. lia.
Qed.

Lemma count_occ_filter (y : list Z) (c : Z) :
  count_occ Z.eq_dec y c = length (filter (fun x => (x =? c)%Z) y).
Proof.
  induction y as [|x y IH]; [reflexivity |]. cbn [count_occ filter].
  destruct (Z.eq_dec x c) as [-> | Hne].
  - rewrite Z.eqb_refl. cbn [length]. now rewrite IH.
  - destruct (Z.eqb_spec x c); [contradiction | exact IH].
Qed.

Lemma positions_eq_In (a : list nat) (v k : nat) :
  In k (positions_eq a v) <-> k < length a /\ nth k a 0 = v.
Proof.
  unfold positions_eq.
  rewrite (pos_filter_In (fun x => x =? v) a 0 0 k), Nat.sub_0_r, Nat.eqb_eq.
  intuition lia.
Qed.

Lemma positions_eq_NoDup (a : list nat) (v : nat) : NoDup (positions_eq a v).
Proof. apply (pos_filter_NoDup (fun x => x =? v)). Qed.

Lemma rows_of_class_In (y : list Z) (c : Z) (i : nat) :
  In i (rows_of_class y c) <-> i < length y /\ nth i y 0%Z = c.
Proof.
  unfold rows_of_class.
  rewrite (pos_filter_In (fun x => (x =? c)%Z) y 0%Z 0 i), Nat.sub_0_r, Z.eqb_eq.
  intuition lia.
Qed.

Lemma rows_of_class_NoDup (y : list Z) (c : Z) : NoDup (rows_of_class y c).
Proof. apply (pos_filter_NoDup (fun x => (x =? c)%Z)). Qed.

Lemma rows_of_class_length (y : list Z) (c : Z) :
  length (rows_of_class y c) = count_occ Z.eq_dec y c.
Proof.
  unfold rows_of_class.
  now rewrite (pos_filter_length (fun x => (x =? c)%Z)), count_occ_filter.
Qed.

(** *** Sums *)

Lemma sum_nat_cons (x : nat) (l : list nat) :
  sum_nat (x :: l) = x + sum_nat l.
Proof. reflexivity. Qed.

(** Incrementing at distinct positions adds their number to the sum. *)
Lemma sum_incr_from (idx : list nat) (v : list nat) (k : nat) :
  sum_nat (map (fun ix => if existsb (Nat.eqb (fst ix)) idx
                          then S (snd ix) else snd ix)
             (combine (seq k (length v)) v)) =
  sum_nat v +
  length (filter (fun i => existsb (Nat.eqb i) idx) (seq k (length v))).
Proof.
  revert k. induction v as [|x v IH]; intros k; [reflexivity |].
  cbn [length seq combine map filter fst snd]. rewrite !sum_nat_cons, IH.
  destruct (existsb (Nat.eqb k) idx); cbn [length]; lia.
Qed.

Lemma sum_incr_at (idx : list nat) (v : list nat) :
  NoDup idx -> Forall (fun i => i < length v) idx ->
  sum_nat (incr_at idx v) = sum_nat v + length idx.
Proof.
  intros Hnd Hlt. unfold incr_at, at_positions.
  rewrite sum_incr_from. f_equal.
  now apply GenerationFacts.count_selected.
Qed.

Lemma nth_incr_at (idx : list nat) (v : list nat) (k : nat) :
  nth k (incr_at idx v) 0 =
  if existsb (Nat.eqb k) idx && (k <? length v)
  then S (nth k v 0) else nth k v 0.
Proof.
  unfold incr_at. destruct (Nat.ltb_spec k (length v)) as [Hk | Hk].
  - rewrite nth_at_positions by exact Hk. now rewrite andb_true_r.
  - rewrite andb_false_r.
    rewrite !nth_overflow; [reflexivity | lia |].
    now rewrite at_positions_length.
Qed.

(** *** [_approximate_mode] *)

Lemma add_by_remainder_succeeds (values remainder : list nat) :
  NoDup values ->
  forall (floored : list nat) (need : nat),
  length remainder = length floored ->
  succeeds (add_by_remainder values remainder floored need)
    (fun r =>
       length r = length floored /\
       (forall k, nth k floored 0 <= nth k r 0 <= nth k floored 0 + 1) /\
       (forall k, nth k r 0 <> nth k floored 0 -> In (nth k remainder 0) values) /\
       sum_nat r = sum_nat floored + Nat.min need (slots values remainder)).
Proof.
  induction values as [|value rest IH]; intros Hnd floored need Hlen.
  - apply ret_succeeds. split; [reflexivity |].
    split; [intros k; lia |]. split; [intros k H; congruence |].
    unfold slots. simpl. lia.
  - inversion Hnd as [|? ? Hnotin Hnd']; subst.
    cbn [add_by_remainder].
    set (inds := positions_eq remainder value).
    set (add_now := Nat.min (length inds) need).
    eapply bind_succeeds.
    { apply choice_no_replace_succeeds. unfold add_now. lia. }
    intros chosen [Hch [others Hperm]]. cbv beta.
    assert (Hincl : forall k, In k chosen -> In k inds).
    { intros k Hk. eapply Permutation_in; [symmetry; exact Hperm |].
      apply in_or_app. now left. }
    assert (Hnd_ch : NoDup chosen).
    { eapply NoDup_app_remove_r.
      eapply Permutation_NoDup; [exact Hperm | apply positions_eq_NoDup]. }
    assert (Hlt : Forall (fun i => i < length floored) chosen).
    { apply Forall_forall. intros k Hk. apply Hincl in Hk.
      apply positions_eq_In in Hk. lia. }
    assert (Hsum : sum_nat (incr_at chosen floored) = sum_nat floored + add_now).
    { rewrite sum_incr_at by assumption. now rewrite Hch. }
    assert (Hlen' : length (incr_at chosen floored) = length floored)
      by apply at_positions_length.
    assert (Hstep : forall k,
               nth k floored 0 <= nth k (incr_at chosen floored) 0
               <= nth k floored 0 + 1 /\
               (nth k (incr_at chosen floored) 0 <> nth k floored 0 ->
                nth k remainder 0 = value)).
    { intros k. rewrite nth_incr_at.
      destruct (existsb (Nat.eqb k) chosen) eqn:E; cbn [andb].
      - apply existsb_eqb_In, Hincl, positions_eq_In in E.
        destruct (k <? length floored); split; try lia; intros _; apply E.
      - split; [lia | congruence]. }
    assert (Hslots : slots (value :: rest) remainder =
                     length inds + slots rest remainder) by reflexivity.
    destruct (Nat.eqb_spec (need - add_now) 0) as [Hz | Hnz].
    + apply ret_succeeds. split; [exact Hlen' |].
      split; [intros k; apply Hstep |].
      split; [intros k Hk; left; symmetry; now apply Hstep |].
      rewrite Hsum, Hslots. unfold add_now in *. lia.
    + eapply succeeds_weaken.
      { apply (IH Hnd' (incr_at chosen floored) (need - add_now)).
        now rewrite Hlen'. }
      intros r (Hr1 & Hr2 & Hr3 & Hr4). cbv beta.
      split; [now rewrite Hr1 |]. split; [| split].
      * intros k. destruct (Hstep k) as [Hb Hv]. specialize (Hr2 k).
        specialize (Hr3 k).
        destruct (Nat.eq_dec (nth k (incr_at chosen floored) 0)
                    (nth k floored 0)) as [Heq | Hne]; [lia |].
        destruct (Nat.eq_dec (nth k r 0) (nth k (incr_at chosen floored) 0))
          as [Heq' | Hne']; [lia |].
        exfalso. apply Hnotin. rewrite <- (Hv Hne). now apply Hr3.
      * intros k Hk. destruct (Hstep k) as [_ Hv].
        destruct (Nat.eq_dec (nth k r 0) (nth k (incr_at chosen floored) 0))
          as [Heq' | Hne'].
        -- left. symmetry. apply Hv. congruence.
        -- right. now apply Hr3.
      * rewrite Hr4, Hsum, Hslots. unfold add_now in *. lia.
Qed.

Lemma sum_indicator (values : list nat) (x : nat) :
  NoDup values -> In x values ->
  sum_nat (map (fun v => if x =? v then 1 else 0) values) = 1.
Proof.
  induction 1 as [|v values Hnotin Hnd IH]; intros Hin; [contradiction |].
  cbn [map]. rewrite sum_nat_cons.
  destruct (Nat.eqb_spec x v) as [-> | Hne].
  - assert (E : sum_nat (map (fun v0 => if v =? v0 then 1 else 0) values) = 0).
    { clear IH Hnd Hin. induction values as [|w values IHv]; [reflexivity |].
      cbn [map]. rewrite sum_nat_cons.
      destruct (Nat.eqb_spec v w) as [-> | _]; [exfalso; apply Hnotin; now left |].
      apply IHv. intros H. apply Hnotin. now right. }
    lia.
  - destruct Hin as [-> | Hin]; [contradiction |]. now rewrite IH.
Qed.

Lemma positions_eq_cons_length (x : nat) (a : list nat) (v : nat) :
  length (positions_eq (x :: a) v) =
  (if x =? v then 1 else 0) + length (positions_eq a v).
Proof.
  unfold positions_eq.
  rewrite !(pos_filter_length (fun y => y =? v)). cbn [filter].
  destruct (x =? v); reflexivity.
Qed.

Lemma sum_nat_map_add {A} (f g : A -> nat) (l : list A) :
  sum_nat (map (fun v => f v + g v) l) = sum_nat (map f l) + sum_nat (map g l).
Proof.
  induction l as [|x l IH]; [reflexivity |].
  cbn [map]. rewrite !sum_nat_cons, IH. lia.
Qed.

(** Distinct values that cover the remainders serve every class once. *)
Lemma slots_cover (values remainder : list nat) :
  NoDup values -> (forall x, In x remainder -> In x values) ->
  slots values remainder = length remainder.
Proof.
  intros Hnd. unfold slots. induction remainder as [|x a IH]; intros Hcov.
  - unfold positions_eq. simpl. induction values as [|v values IHv];
      [reflexivity |].
    cbn [map]. rewrite sum_nat_cons. inversion Hnd; subst. now rewrite IHv.
  - rewrite (map_ext _ (fun v => (if x =? v then 1 else 0)
                                 + length (positions_eq a v)))
      by (intros v; apply positions_eq_cons_length).
    rewrite sum_nat_map_add, sum_indicator, IH; cbn [length]; try lia; auto.
    + intros y Hy. apply Hcov. now right.
    + apply Hcov. now left.
Qed.

Lemma shares_sum (T n : nat) (counts : list nat) :
  T <> 0 ->
  T * sum_nat (map (fun c => c * n / T) counts) +
  sum_nat (map (fun c => (c * n) mod T) counts) = sum_nat counts * n /\
  sum_nat (map (fun c => (c * n) mod T) counts) <= length counts * (T - 1).
Proof.
  intros HT. induction counts as [|c counts [IH1 IH2]]; [simpl; lia |].
  cbn [map length]. rewrite !sum_nat_cons.
  pose proof (Nat.div_mod (c * n) T HT) as E.
  pose proof (Nat.mod_upper_bound (c * n) T HT) as B.
  split; nia.
Qed.

Lemma approximate_mode_succeeds (class_counts : list nat) (n_draws : nat) :
  0 < sum_nat class_counts -> n_draws <= sum_nat class_counts ->
  succeeds (approximate_mode class_counts n_draws)
    (fun r =>
       length r = length class_counts /\
       (forall k, nth k class_counts 0 * n_draws / sum_nat class_counts
                  <= nth k r 0
                  <= nth k class_counts 0 * n_draws / sum_nat class_counts + 1) /\
       sum_nat r = n_draws).
Proof.
  intros Hpos Hle. unfold approximate_mode.
  set (T := sum_nat class_counts) in *.
  set (floored := map (fun c => c * n_draws / T) class_counts).
  set (remainder := map (fun c => (c * n_draws) mod T) class_counts).
  destruct (shares_sum T n_draws class_counts ltac:(lia)) as [Hsum Hrem].
  fold floored remainder in Hsum, Hrem. fold T in Hsum.
  assert (Hfl : sum_nat floored <= n_draws) by nia.
  assert (Hneed : n_draws - sum_nat floored <= length class_counts) by nia.
  assert (Hnth : forall k, nth k floored 0 = nth k class_counts 0 * n_draws / T).
  { intros k. unfold floored.
    destruct (Nat.lt_ge_cases k (length class_counts)) as [Hk | Hk].
    - now rewrite (nth_map_lt _ _ _ _ 0).
    - rewrite !nth_overflow by (rewrite ?length_map; lia).
      now rewrite Nat.mul_0_l, Nat.Div0.div_0_l. }
  destruct (Nat.ltb_spec 0 (n_draws - sum_nat floored)) as [Hn | Hn].
  - eapply succeeds_weaken.
    + apply (add_by_remainder_succeeds (sort_unique_desc remainder) remainder
               (sort_unique_desc_NoDup remainder) floored).
      unfold remainder, floored. now rewrite !length_map.
    + intros r (H1 & H2 & _ & H4). cbv beta.
      split; [rewrite H1; apply length_map |].
      split; [intros k; rewrite <- Hnth; apply H2 |].
      rewrite H4, slots_cover.
      * unfold remainder. rewrite length_map. lia.
      * apply sort_unique_desc_NoDup.
      * intros x Hx. now apply sort_unique_desc_In.
  - apply ret_succeeds. split; [apply length_map |].
    split; [intros k; rewrite <- Hnth; lia | lia].
Qed.

(** *** The per-class loop *)

Lemma count_label_app (y : list Z) (c : Z) (l l' : list nat) :
  count_label y c (l ++ l') = count_label y c l + count_label y c l'.
Proof. unfold count_label. now rewrite map_app, count_occ_app. Qed.

Lemma count_label_const (y : list Z) (c c0 : Z) (l : list nat) :
  Forall (fun i => nth i y 0%Z = c0) l ->
  count_label y c l = if (c0 =? c)%Z then length l else 0.
Proof.
  unfold count_label. induction 1 as [|i l Hi _ IH]; cbn [map count_occ length].
  - now destruct (c0 =? c)%Z.
  - rewrite Hi, IH. destruct (Z.eq_dec c0 c) as [-> | Hne].
    + now rewrite Z.eqb_refl.
    + now destruct (Z.eqb_spec c0 c).
Qed.

Lemma count_label_Permutation (y : list Z) (c : Z) (l l' : list nat) :
  Permutation l l' -> count_label y c l = count_label y c l'.
Proof.
  intros H. unfold count_label.
  apply Permutation_count_occ. now apply Permutation_map.
Qed.

Lemma class_entry_cons (c c0 : Z) (cs : list Z) (n : nat) (ns : list nat) :
  class_entry c (c0 :: cs) (n :: ns) =
  (if (c0 =? c)%Z then n else 0) + class_entry c cs ns.
Proof. reflexivity. Qed.

Lemma assign_classes_succeeds (y : list Z) :
  forall (clss : list (list nat)) (cs : list Z) (ns ts train0 test0 : list nat),
  Forall2 (fun c cls => Forall (fun i => nth i y 0%Z = c) cls) cs clss ->
  Forall2 (fun cls nt => fst nt + snd nt = length cls) clss (combine ns ts) ->
  length ns = length ts ->
  succeeds (assign_classes clss ns ts train0 test0)
    (fun tt =>
       Permutation (fst tt ++ snd tt) (train0 ++ test0 ++ concat clss) /\
       length (fst tt) = length train0 + sum_nat ns /\
       length (snd tt) = length test0 + sum_nat ts /\
       forall c,
         count_label y c (fst tt) = count_label y c train0 + class_entry c cs ns /\
         count_label y c (snd tt) = count_label y c test0 + class_entry c cs ts).
Proof.
  induction clss as [|inds clss IH]; intros cs ns ts train0 test0 Hlab Hnt Hlen.
  - inversion Hlab; subst. cbn [assign_classes].
    apply ret_succeeds. cbn [fst snd concat]. split; [now rewrite app_nil_r |].
    destruct ns; destruct ts; try discriminate; [| inversion Hnt].
    split; [cbn; lia |]. split; [cbn; lia |].
    intros c. unfold class_entry. cbn [map2 map sum_nat fold_right]. lia.
  - inversion Hlab as [|c0 ? cs' ? Hc0 Hlab']; subst.
    destruct ns as [|n ns]; destruct ts as [|t ts]; try discriminate;
      cbn [combine] in Hnt; inversion Hnt as [|? ? ? ? Hsum Hnt']; subst.
    cbn [fst snd] in Hsum. cbn [assign_classes].
    eapply bind_succeeds; [apply permutation_succeeds |].
    intros perm Hperm. cbv beta in Hperm.
    set (perm_indices := map (fun i => nth i inds 0) perm).
    assert (Hpi : Permutation inds perm_indices).
    { unfold perm_indices. rewrite <- (map_nth_seq inds 0) at 1.
      now apply Permutation_map. }
    assert (Hlen_pi : length perm_indices = n + t)
      by now rewrite <- (Permutation_length Hpi).
    assert (Ht : firstn t (skipn n perm_indices) = skipn n perm_indices).
    { apply firstn_all2. rewrite length_skipn. lia. }
    rewrite Ht.
    assert (Hall : Forall (fun i => nth i y 0%Z = c0) perm_indices).
    { apply Forall_forall. intros i Hi.
      apply (proj1 (Forall_forall _ _) Hc0).
      eapply Permutation_in; [symmetry; exact Hpi | exact Hi]. }
    assert (HA : Forall (fun i => nth i y 0%Z = c0) (firstn n perm_indices)).
    { apply Forall_forall. intros i Hi.
      apply (proj1 (Forall_forall _ _) Hall).
      rewrite <- (firstn_skipn n perm_indices). apply in_or_app. now left. }
    assert (HB : Forall (fun i => nth i y 0%Z = c0) (skipn n perm_indices)).
    { apply Forall_forall. intros i Hi.
      apply (proj1 (Forall_forall _ _) Hall).
      rewrite <- (firstn_skipn n perm_indices). apply in_or_app. now right. }
    eapply succeeds_weaken.
    + apply (IH cs' ns ts); [exact Hlab' | exact Hnt' |].
      cbn [length] in Hlen. lia.
    + intros tt (HP & Hl1 & Hl2 & Hcount). cbv beta.
      split; [| split; [| split]].
      * rewrite HP. cbn [concat]. rewrite <- !app_assoc.
        apply Permutation_app_head.
        rewrite (app_assoc (firstn n perm_indices) test0).
        rewrite (Permutation_app_comm (firstn n perm_indices) test0).
        rewrite <- app_assoc. apply Permutation_app_head.
        rewrite app_assoc. apply Permutation_app_tail.
        rewrite firstn_skipn. now symmetry.
      * rewrite Hl1, length_app, length_firstn, Hlen_pi, sum_nat_cons. lia.
      * rewrite Hl2, length_app, length_skipn, Hlen_pi, sum_nat_cons. lia.
      * intros c. destruct (Hcount c) as [H1 H2].
        rewrite H1, H2, !count_label_app, !class_entry_cons.
        rewrite (count_label_const y c c0 _ HA), (count_label_const y c c0 _ HB).
        rewrite length_firstn, length_skipn, Hlen_pi.
        destruct (c0 =? c)%Z; lia.
Qed.

(** *** Class tables *)

Lemma class_entry_notin (c : Z) (cs : list Z) (ns : list nat) :
  ~ In c cs -> class_entry c cs ns = 0.
Proof.
  revert ns. induction cs as [|c0 cs IH]; intros ns Hc; [reflexivity |].
  destruct ns as [|n ns]; [reflexivity |]. rewrite class_entry_cons.
  destruct (Z.eqb_spec c0 c) as [-> | _]; [exfalso; apply Hc; now left |].
  rewrite IH; [reflexivity |]. intros H. apply Hc. now right.
Qed.

Lemma class_entry_In (c : Z) (cs : list Z) (ns : list nat) :
  NoDup cs -> length ns = length cs -> In c cs ->
  exists k, k < length cs /\ nth k cs 0%Z = c /\
            class_entry c cs ns = nth k ns 0.
Proof.
  intros Hnd. revert ns. induction Hnd as [|c0 cs Hnotin Hnd IH];
    intros ns Hlen Hin; [contradiction |].
  destruct ns as [|n ns]; [discriminate |]. rewrite class_entry_cons.
  destruct Hin as [-> | Hin].
  - exists 0. cbn [length nth]. split; [lia |]. split; [reflexivity |].
    rewrite Z.eqb_refl, (class_entry_notin c cs ns Hnotin). lia.
  - destruct (IH ns ltac:(cbn [length] in Hlen; lia) Hin) as (k & Hk & Hc & E).
    exists (S k). cbn [length nth]. split; [lia |]. split; [exact Hc |].
    destruct (Z.eqb_spec c0 c) as [-> | _]; [contradiction |]. exact E.
Qed.

Lemma sum_indicator_Z (cs : list Z) (x : Z) :
  NoDup cs -> In x cs ->
  sum_nat (map (fun c => if Z.eq_dec x c then 1 else 0) cs) = 1.
Proof.
  induction 1 as [|c cs Hnotin Hnd IH]; intros Hin; [contradiction |].
  cbn [map]. rewrite sum_nat_cons.
  destruct (Z.eq_dec x c) as [-> | Hne].
  - assert (E : sum_nat (map (fun c0 => if Z.eq_dec c c0 then 1 else 0) cs) = 0).
    { clear IH Hnd Hin. induction cs as [|w cs IHc]; [reflexivity |].
      cbn [map]. rewrite sum_nat_cons.
      destruct (Z.eq_dec c w) as [-> | _]; [exfalso; apply Hnotin; now left |].
      apply IHc. intros H. apply Hnotin. now right. }
    lia.
  - destruct Hin as [-> | Hin]; [contradiction |]. now rewrite IH.
Qed.

(** Every row belongs to exactly one class. *)
Lemma sum_class_counts (y cs : list Z) :
  NoDup cs -> (forall x, In x y -> In x cs) ->
  sum_nat (map (count_occ Z.eq_dec y) cs) = length y.
Proof.
  intros Hnd. induction y as [|x y IH]; intros Hcov.
  - cbn [count_occ length]. induction cs as [|c cs IHc]; [reflexivity |].
    cbn [map]. rewrite sum_nat_cons. inversion Hnd; subst. now rewrite IHc.
  - rewrite (map_ext _ (fun c => (if Z.eq_dec x c then 1 else 0)
                                 + count_occ Z.eq_dec y c)).
    + rewrite sum_nat_map_add, sum_indicator_Z, IH; cbn [length]; auto.
      * intros z Hz. apply Hcov. now right.
      * apply Hcov. now left.
    + intros c. cbn [count_occ]. destruct (Z.eq_dec x c); lia.
Qed.

Lemma class_counts_eq (y cs : list Z) :
  map (@length nat) (map (rows_of_class y) cs) = map (count_occ Z.eq_dec y) cs.
Proof. rewrite map_map. apply map_ext. intros c. apply rows_of_class_length. Qed.

Lemma class_labels (y cs : list Z) :
  Forall2 (fun c cls => Forall (fun i => nth i y 0%Z = c) cls)
    cs (map (rows_of_class y) cs).
Proof.
  induction cs as [|c cs IH]; cbn [map]; constructor; [| exact IH].
  apply Forall_forall. intros i Hi. now apply rows_of_class_In in Hi.
Qed.

Lemma concat_classes (y : list Z) :
  Permutation (concat (map (rows_of_class y) (unique y))) (seq 0 (length y)).
Proof.
  apply NoDup_Permutation.
  - pose proof (unique_NoDup y) as Hnd.
    induction Hnd as [|c cs Hnotin Hnd IH]; cbn [map concat]; [constructor |].
    apply NoDup_app; [apply rows_of_class_NoDup | exact IH |].
    intros i Hi Hin. apply in_concat in Hin. destruct Hin as (l & Hl & Hil).
    apply in_map_iff in Hl. destruct Hl as (c' & <- & Hc').
    apply rows_of_class_In in Hi. apply rows_of_class_In in Hil.
    apply Hnotin. destruct Hi as [_ <-]. destruct Hil as [_ <-]. exact Hc'.
  - apply seq_NoDup.
  - intros i. rewrite in_concat, in_seq. split.
    + intros (l & Hl & Hil). apply in_map_iff in Hl.
      destruct Hl as (c & <- & _). apply rows_of_class_In in Hil. lia.
    + intros Hi. exists (rows_of_class y (nth i y 0%Z)). split.
      * apply in_map, unique_In, nth_In. lia.
      * apply rows_of_class_In. split; [lia | reflexivity].
Qed.

(** *** Allocations within the class counts *)

Lemma Forall2_of_nth (P : nat -> nat -> Prop) (l l' : list nat) :
  length l = length l' -> (forall k, k < length l -> P (nth k l 0) (nth k l' 0)) ->
  Forall2 P l l'.
Proof.
  revert l'. induction l as [|a l IH]; intros [|b l'] Hlen H;
    try discriminate; constructor.
  - apply (H 0). cbn [length]. lia.
  - apply IH; [cbn [length] in Hlen; lia |].
    intros k Hk. apply (H (S k)). cbn [length]. lia.
Qed.

Lemma map2_sub_spec (counts ns : list nat) :
  Forall2 le ns counts ->
  length (map2 Nat.sub counts ns) = length ns /\
  sum_nat (map2 Nat.sub counts ns) + sum_nat ns = sum_nat counts.
Proof.
  induction 1 as [|n c ns counts Hle _ [IH1 IH2]]; [split; reflexivity |].
  cbn [map2 length]. rewrite !sum_nat_cons. split; lia.
Qed.

Lemma allocation_shape (clss : list (list nat)) (ns : list nat) :
  Forall2 le ns (map (@length nat) clss) ->
  Forall2 (fun cls nt => fst nt + snd nt = length cls) clss
    (combine ns (map2 Nat.sub (map (@length nat) clss) ns)).
Proof.
  revert ns. induction clss as [|cls clss IH]; intros ns H;
    inversion H as [|n ? ns' ? Hle H']; subst; cbn [map map2 combine];
    constructor.
  - cbn [fst snd]. lia.
  - now apply IH.
Qed.

Lemma nth_map2_sub (counts ns : list nat) (k : nat) :
  length ns = length counts ->
  nth k (map2 Nat.sub counts ns) 0 = nth k counts 0 - nth k ns 0.
Proof.
  revert ns k. induction counts as [|c counts IH]; intros [|n ns] k Hlen;
    try discriminate; [now destruct k |].
  destruct k as [|k]; [reflexivity |]. cbn [map2 nth]. apply IH.
  cbn [length] in Hlen. lia.
Qed.

(** When the draws are the whole population every class gives all it has. *)
Lemma approximate_mode_exact (class_counts : list nat) :
  0 < sum_nat class_counts ->
  approximate_mode class_counts (sum_nat class_counts) = ret class_counts.
Proof.
  intros Hpos. unfold approximate_mode.
  assert (E : map (fun c => c * sum_nat class_counts / sum_nat class_counts)
                class_counts = class_counts).
  { transitivity (map (fun c : nat => c) class_counts); [| apply map_id].
    apply map_ext. intros c. apply Nat.div_mul. lia. }
  rewrite E, Nat.sub_diag. reflexivity.
Qed.

(** *** The split itself *)

Lemma StratifiedShuffleSplit_succeeds (y : list Z) (n_train n_test : nat) :
  n_train + n_test = length y -> 0 < n_train -> 0 < n_test ->
  (forall c, In c y -> 2 <= count_occ Z.eq_dec y c) ->
  length (unique y) <= n_train -> length (unique y) <= n_test ->
  succeeds (StratifiedShuffleSplit y n_train n_test)
    (fun tt =>
       Permutation (fst tt ++ snd tt) (seq 0 (length y)) /\
       length (fst tt) = n_train /\ length (snd tt) = n_test /\
       forall c,
         count_occ Z.eq_dec y c * n_train / length y
           <= count_label y c (fst tt)
           <= count_occ Z.eq_dec y c * n_train / length y + 1 /\
         count_label y c (fst tt) + count_label y c (snd tt) =
           count_occ Z.eq_dec y c).
Proof.
  intros Hn Htr Hte Htwo Hc1 Hc2. unfold StratifiedShuffleSplit.
  set (classes := unique y) in *.
  set (class_indices := map (rows_of_class y) classes).
  set (class_counts := map (@length nat) class_indices).
  assert (Hcounts : class_counts = map (count_occ Z.eq_dec y) classes)
    by apply class_counts_eq.
  assert (Hge2 : forall x, In x class_counts -> 2 <= x).
  { intros x Hx. rewrite Hcounts in Hx. apply in_map_iff in Hx.
    destruct Hx as (c & <- & Hc). apply Htwo. now apply unique_In. }
  assert (E1 : existsb (fun c => c <? 2) class_counts = false).
  { destruct (existsb _ class_counts) eqn:E; [| reflexivity].
    apply existsb_exists in E. destruct E as (x & Hx & Hlt).
    apply Nat.ltb_lt in Hlt. apply Hge2 in Hx. lia. }
  rewrite E1.
  destruct (Nat.ltb_spec n_train (length classes)) as [? | _]; [lia |].
  destruct (Nat.ltb_spec n_test (length classes)) as [? | _]; [lia |].
  assert (Hsum : sum_nat class_counts = length y).
  { rewrite Hcounts. apply sum_class_counts; [apply unique_NoDup |].
    intros x Hx. now apply unique_In. }
  assert (Hlen_counts : length class_counts = length classes)
    by (unfold class_counts, class_indices; now rewrite !length_map).
  eapply bind_succeeds.
  { apply approximate_mode_succeeds; lia. }
  intros n_i (Hlen_n & Hbound & Hsum_n). cbv beta. rewrite Hsum in Hbound.
  assert (Hle : Forall2 le n_i class_counts).
  { apply Forall2_of_nth; [exact Hlen_n |]. intros k Hk.
    specialize (Hbound k).
    assert (Hin : In (nth k class_counts 0) class_counts)
      by (apply nth_In; lia).
    apply Hge2 in Hin.
    assert (nth k class_counts 0 * n_train / length y < nth k class_counts 0).
    { apply Nat.Div0.div_lt_upper_bound. nia. }
    lia. }
  destruct (map2_sub_spec class_counts n_i Hle) as [Hlen_r Hsum_r].
  assert (Hex : approximate_mode (map2 Nat.sub class_counts n_i) n_test =
                ret (map2 Nat.sub class_counts n_i)).
  { replace n_test with (sum_nat (map2 Nat.sub class_counts n_i)) by lia.
    apply approximate_mode_exact. lia. }
  rewrite Hex.
  eapply bind_succeeds;
    [apply (ret_succeeds _ (fun t => t = map2 Nat.sub class_counts n_i));
     reflexivity |].
  intros t_i ->.
  eapply bind_succeeds.
  { apply (assign_classes_succeeds y class_indices classes n_i
             (map2 Nat.sub class_counts n_i) [] []).
    - apply class_labels.
    - now apply allocation_shape.
    - now rewrite Hlen_r. }
  intros tt (HP & Hl1 & Hl2 & Hcount). cbv beta.
  eapply bind_succeeds; [apply shuffle_succeeds |].
  intros train Ptrain. cbv beta in Ptrain.
  eapply bind_succeeds; [apply shuffle_succeeds |].
  intros test Ptest. cbv beta in Ptest.
  apply ret_succeeds. cbn [fst snd].
  split; [| split; [| split]].
  - rewrite <- Ptrain, <- Ptest, HP. cbn [app].
    apply concat_classes.
  - rewrite <- (Permutation_length Ptrain), Hl1. cbn [length]. lia.
  - rewrite <- (Permutation_length Ptest), Hl2. cbn [length]. lia.
  - intros c.
    rewrite <- (count_label_Permutation y c _ _ Ptrain).
    rewrite <- (count_label_Permutation y c _ _ Ptest).
    destruct (Hcount c) as [H1 H2]. rewrite H1, H2.
    change (count_label y c []) with 0. cbn [Nat.add].
    destruct (in_dec Z.eq_dec c classes) as [Hin | Hout].
    + destruct (class_entry_In c classes n_i (unique_NoDup y)
                  ltac:(lia) Hin) as (k & Hk & Hck & En).
      destruct (class_entry_In c classes (map2 Nat.sub class_counts n_i)
                  (unique_NoDup y) ltac:(lia) Hin) as (k' & Hk' & Hck' & Et).
      assert (k' = k).
      { apply (proj1 (NoDup_nth classes 0%Z) (unique_NoDup y));
          first [lia | congruence]. }
      subst k'. rewrite En, Et, nth_map2_sub by exact Hlen_n.
      assert (Ec : nth k class_counts 0 = count_occ Z.eq_dec y c).
      { rewrite Hcounts, (nth_map_lt _ _ _ _ 0%Z) by exact Hk. now rewrite Hck. }
      specialize (Hbound k). rewrite Ec in Hbound.
      split; [exact Hbound |].
      assert (nth k n_i 0 <= nth k class_counts 0).
      { clear - Hle Hk Hlen_counts.
        revert k Hk. rewrite <- Hlen_counts. clear Hlen_counts.
        induction Hle as [|a b l l' Hab _ IH]; intros k Hk; cbn [length] in Hk;
          [lia |].
        destruct k as [|k]; [exact Hab |]. apply IH. lia. }
      lia.
    + rewrite !class_entry_notin by exact Hout.
      assert (Hz : count_occ Z.eq_dec y c = 0).
      { apply count_occ_not_In. intros Hy. apply Hout. now apply unique_In. }
      rewrite Hz. cbn [Nat.mul]. rewrite Nat.Div0.div_0_l. lia.
Qed.

(** *** Class shares *)

Lemma share_close (m a n N : R) :
  (0 < n)%R -> (0 < N)%R -> (- N <= m * N - a * n <= N)%R ->
  (Rabs (m / n - a / N) <= 1 / n)%R.
Proof.
  intros Hn HN [Hlo Hhi].
  assert (E : (m / n - a / N = (m * N - a * n) / (n * N))%R) by (field; lra).
  assert (E1 : (1 / n = N / (n * N))%R) by (field; lra).
  assert (HnN : (0 < n * N)%R) by nra.
  assert (Hinv : (0 < / (n * N))%R) by now apply Rinv_0_lt_compat.
  rewrite E, E1. unfold Rdiv. apply Rabs_le. split; nra.
Qed.

(** The floor of a share, read on real numbers. *)
Lemma floor_share (m a n N q : nat) :
  0 < N -> q = a * n / N -> q <= m <= q + 1 ->
  (- INR N <= INR m * INR N - INR a * INR n <= INR N)%R.
Proof.
  intros HN -> [Hlo Hhi].
  pose proof (Nat.div_mod (a * n) N ltac:(lia)) as E.
  pose proof (Nat.mod_upper_bound (a * n) N ltac:(lia)) as B.
  set (q := a * n / N) in *.
  assert (H1 : m * N <= a * n + N) by nia.
  assert (H2 : a * n <= m * N + N) by nia.
  apply le_INR in H1, H2.
  rewrite plus_INR, !mult_INR in H1, H2. split; lra.
Qed.

Lemma rate_count_label (y : list Z) (c : Z) (rows : list nat) :
  rate c (map (fun i => nth i y 0%Z) rows) =
  (INR (count_label y c rows) / INR (length rows))%R.
Proof. unfold rate, count_label. now rewrite length_map. Qed.

(** Train and test shares of every class stay within [1/n_train] and
    [1/n_test] of its share in the whole. *)
Lemma split_shares (y : list Z) (n_train n_test : nat) (train test : list nat)
    (c : Z) :
  n_train + n_test = length y -> 0 < n_train -> 0 < n_test ->
  length train = n_train -> length test = n_test ->
  count_occ Z.eq_dec y c * n_train / length y <= count_label y c train
    <= count_occ Z.eq_dec y c * n_train / length y + 1 ->
  count_label y c train + count_label y c test = count_occ Z.eq_dec y c ->
  (Rabs (rate c (map (fun i => nth i y 0%Z) train) - rate c y)
     <= 1 / INR n_train)%R /\
  (Rabs (rate c (map (fun i => nth i y 0%Z) test) - rate c y)
     <= 1 / INR n_test)%R.
Proof.
  intros Hn Htr Hte Hl1 Hl2 Hb Hsum.
  rewrite !rate_count_label, Hl1, Hl2. unfold rate.
  set (a := count_occ Z.eq_dec y c) in *.
  set (m := count_label y c train) in *.
  set (m' := count_label y c test) in *.
  assert (HN : 0 < length y) by lia.
  pose proof (floor_share m a n_train (length y) _ HN eq_refl Hb) as Hm.
  assert (Htr' : (0 < INR n_train)%R) by now apply lt_0_INR.
  assert (Hte' : (0 < INR n_test)%R) by now apply lt_0_INR.
  assert (HN' : (0 < INR (length y))%R) by now apply lt_0_INR.
  split; apply share_close; try assumption.
  assert (Ea : INR a = (INR m + INR m')%R) by now rewrite <- plus_INR, Hsum.
  assert (EN : INR (length y) = (INR n_train + INR n_test)%R)
    by now rewrite <- plus_INR, Hn.
  rewrite Ea, EN in *. split; nra.
Qed.

Lemma validate_n_records : validate_shuffle_split n_records 1 5 = Ok (4000, 1000).
Proof. vm_compute. reflexivity. Qed.

Lemma validate_shuffle_split_Ok (n n_train n_test : nat) :
  validate_shuffle_split n 1 5 = Ok (n_train, n_test) ->
  n_train + n_test = n /\ 0 < n_train /\ 0 < n_test.
Proof.
  unfold validate_shuffle_split. intros H.
  assert (Hq : 0 < n -> 1 <= (1 * n + 5 - 1) / 5 <= n).
  { intros Hn. split; [apply Nat.div_le_lower_bound; lia |].
    apply Nat.Div0.div_le_upper_bound; lia. }
  set (q := (1 * n + 5 - 1) / 5) in *.
  destruct (Nat.eqb_spec (n - q) 0) as [| Hne]; [discriminate |].
  injection H as <- <-. lia.
Qed.

(** The stratified split returns whenever every class has two rows and
    both parts can hold one row of each class. *)
Lemma stratified_split_total (X0 : DataFrame) (y0 : list Z) (rs : RandomState)
    (n_train n_test : nat) :
  nrows X0 = length y0 ->
  validate_shuffle_split (length y0) 1 5 = Ok (n_train, n_test) ->
  (forall c, In c y0 -> 2 <= count_occ Z.eq_dec y0 c) ->
  length (unique y0) <= n_train -> length (unique y0) <= n_test ->
  exists train test,
    train_test_split X0 y0 1 5 rs true =
      Ok (iloc train X0, iloc test X0,
          map (fun i => nth i y0 0%Z) train,
          map (fun i => nth i y0 0%Z) test) /\
    Permutation (train ++ test) (seq 0 (length y0)) /\
    length train = n_train /\ length test = n_test /\
    forall c,
      count_occ Z.eq_dec y0 c * n_train / length y0 <= count_label y0 c train
        <= count_occ Z.eq_dec y0 c * n_train / length y0 + 1 /\
      count_label y0 c train + count_label y0 c test = count_occ Z.eq_dec y0 c.
Proof.
  intros HX Hv Htwo Hc1 Hc2.
  destruct (validate_shuffle_split_Ok _ _ _ Hv) as (Hsum & Htr & Hte).
  destruct (StratifiedShuffleSplit_succeeds y0 n_train n_test Hsum
              Htr Hte Htwo Hc1 Hc2 rs)
    as ([train test] & rs' & E & HP & Hl1 & Hl2 & Hcount).
  cbn [fst snd] in HP, Hl1, Hl2, Hcount.
  exists train, test.
  split; [| split; [exact HP | split; [exact Hl1 | split; [exact Hl2 | exact Hcount]]]].
  unfold train_test_split. rewrite HX, Nat.eqb_refl. cbn [negb].
  rewrite Hv. cbn [rbind]. rewrite E. reflexivity.
Qed.

(** A stratified split that returned has passed its checks. *)
Lemma StratifiedShuffleSplit_Ok_checks (y : list Z) (n_train n_test : nat)
    (rs : RandomState) (tt : list nat * list nat) :
  fst (StratifiedShuffleSplit y n_train n_test rs) = Ok tt ->
  (forall c, In c y -> 2 <= count_occ Z.eq_dec y c) /\
  length (unique y) <= n_train /\ length (unique y) <= n_test.
Proof.
  unfold StratifiedShuffleSplit.
  destruct (existsb _ _) eqn:E1; [discriminate |].
  destruct (Nat.ltb_spec n_train (length (unique y))); [discriminate |].
  destruct (Nat.ltb_spec n_test (length (unique y))); [discriminate |].
  intros _. split; [| split; assumption].
  intros c Hc.
  destruct (Nat.lt_ge_cases (count_occ Z.eq_dec y c) 2) as [Hlt | Hge];
    [| exact Hge].
  exfalso. rewrite class_counts_eq in E1.
  assert (Ht : existsb (fun c0 => c0 <? 2)
                 (map (count_occ Z.eq_dec y) (unique y)) = true).
  { apply existsb_exists. exists (count_occ Z.eq_dec y c). split.
    - apply in_map. now apply unique_In.
    - now apply Nat.ltb_lt. }
  congruence.
Qed.

Lemma stratified_split_Ok_lengths (X0 : DataFrame) (y0 : list Z)
    (rs : RandomState) (parts : DataFrame * DataFrame * list Z * list Z) :
  train_test_split X0 y0 1 5 rs true = Ok parts ->
  length y0 = n_records ->
  length (snd (fst parts)) = 4000 /\ length (snd parts) = 1000.
Proof.
  intros H Hy.
  destruct (train_test_split_Ok _ _ _ _ _ _ _ H)
    as (n_train & n_test & train & test & HX & Hv & Hs & _).
  destruct (StratifiedShuffleSplit_Ok_checks _ _ _ _ _ Hs) as (Htwo & Hc1 & Hc2).
  destruct (stratified_split_total X0 y0 rs n_train n_test HX Hv Htwo Hc1 Hc2)
    as (train' & test' & E & _ & Hl1 & Hl2 & _).
  rewrite E in H. injection H as <-. cbn [fst snd]. rewrite !length_map.
  rewrite Hy, validate_n_records in Hv. injection Hv as <- <-.
  split; assumption.
Qed.

Lemma ShuffleSplit_Ok (n n_train n_test : nat) (rs : RandomState)
    (train test : list nat) :
  fst (ShuffleSplit n n_train n_test rs) = Ok (train, test) ->
  n_train + n_test = n ->
  Permutation (train ++ test) (seq 0 n) /\
  length train = n_train /\ length test = n_test.
Proof.
  intros H Hsum. destruct (permutation_succeeds n rs) as (perm & rs' & E & HP).
  unfold ShuffleSplit, bind in H. rewrite E in H. cbn in H.
  injection H as <- <-.
  assert (Hlen : length perm = n)
    by now rewrite <- (Permutation_length HP), length_seq.
  assert (Hall : firstn n_train (skipn n_test perm) = skipn n_test perm).
  { apply firstn_all2. rewrite length_skipn. lia. }
  rewrite Hall. split; [| split].
  - rewrite Permutation_app_comm, firstn_skipn. now symmetry.
  - rewrite length_skipn. lia.
  - rewrite length_firstn. lia.
Qed.

Lemma ShuffleSplit_total (n n_train n_test : nat) (rs : RandomState) :
  exists tt, fst (ShuffleSplit n n_train n_test rs) = Ok tt.
Proof.
  destruct (permutation_succeeds n rs) as (perm & rs' & E & _).
  unfold ShuffleSplit, bind. rewrite E. cbn. eauto.
Qed.

(** C4: the split of the preprocessor is the stratified one, with test size
    1/5 and the random state seeded with 42.  On a table of [n_records]
    rows whose label classes have at least 2 rows each (and are at most
    1000) it returns a partition of the rows into 4000 train and 1000 test
    rows, and the share of every label in each part is within 0.02 of its
    share in the whole table. *)
Theorem stratified_split_preserves_rates (rs42 : RandomState)
    (data X0 : DataFrame) (y0 : list Z) :
  drop ["CustomerID"; "Churn"] data = Ok X0 ->
  get_col "Churn" data = Ok (SInt y0) ->
  nrows X0 = n_records -> length y0 = n_records ->
  (forall c, In c y0 -> 2 <= count_occ Z.eq_dec y0 c) ->
  length (unique y0) <= 1000 ->
  exists s train test,
    split_dataset rs42 data = Ok s /\
    train_test_split X0 y0 1 5 rs42 true =
      Ok (X_train s, X_test s, y_train s, y_test s) /\
    X s = X0 /\ y s = y0 /\
    Permutation (train ++ test) (seq 0 n_records) /\
    length train = 4000 /\ length test = 1000 /\
    X_train s = iloc train X0 /\ X_test s = iloc test X0 /\
    y_train s = map (fun i => nth i y0 0%Z) train /\
    y_test s = map (fun i => nth i y0 0%Z) test /\
    forall c,
      (Rabs (rate c (y_train s) - rate c y0) <= 0.02)%R /\
      (Rabs (rate c (y_test s) - rate c y0) <= 0.02)%R.
Proof.
  intros Hdrop Hchurn HX Hy Htwo Hcls.
  assert (Hsum : 4000 + 1000 = length y0) by (rewrite Hy; reflexivity).
  assert (Hv : validate_shuffle_split (length y0) 1 5 = Ok (4000, 1000))
    by (rewrite Hy; exact validate_n_records).
  destruct (stratified_split_total X0 y0 rs42 4000 1000
              ltac:(congruence) Hv Htwo ltac:(lia) Hcls)
    as (train & test & Esplit & HP & Hl1 & Hl2 & Hcount).
  exists (mkSplit X0 y0 (iloc train X0) (iloc test X0)
            (map (fun i => nth i y0 0%Z) train)
            (map (fun i => nth i y0 0%Z) test)), train, test.
  cbn [X y X_train X_test y_train y_test].
  split.
  { unfold split_dataset. rewrite Hdrop, Hchurn. cbn [rbind].
    rewrite Esplit. reflexivity. }
  split; [exact Esplit |].
  split; [reflexivity |]. split; [reflexivity |].
  split; [now rewrite <- Hy |].
  split; [exact Hl1 |]. split; [exact Hl2 |].
  split; [reflexivity |]. split; [reflexivity |].
  split; [reflexivity |]. split; [reflexivity |].
  intros c. destruct (Hcount c) as [Hb Hs].
  destruct (split_shares y0 4000 1000 train test c Hsum ltac:(lia) ltac:(lia)
              Hl1 Hl2 Hb Hs) as [H1 H2].
  assert (B1 : (1 / INR 4000 <= 0.02)%R).
  { replace (INR 4000) with 4000%R by (rewrite INR_IZR_INZ; reflexivity). lra. }
  assert (B2 : (1 / INR 1000 <= 0.02)%R).
  { replace (INR 1000) with 1000%R by (rewrite INR_IZR_INZ; reflexivity). lra. }
  split; lra.
Qed.

Lemma stratified_split_preserves_rates_witness :
  exists s train test,
    split_dataset zeros churn_table = Ok s /\
    length (y_train s) = 4000 /\ length (y_test s) = 1000 /\
    Permutation (train ++ test) (seq 0 n_records) /\
    (Rabs (rate 1 (y_train s) - rate 1 (y s)) <= 0.02)%R /\
    (Rabs (rate 1 (y_test s) - rate 1 (y s)) <= 0.02)%R.
Proof.
  destruct (stratified_split_preserves_rates zeros churn_table
              [("Tenure", SInt (repeat 12%Z n_records))]
              (repeat 1%Z 1000 ++ repeat 0%Z 4000))
    as (s & train & test & Hs & _ & _ & Hy & HP & Hl1 & Hl2 & _ & _ & Htr
        & Hte & Hrate).
  - reflexivity.
  - reflexivity.
  - cbn [nrows series_len]. apply repeat_length.
  - rewrite length_app, !repeat_length. reflexivity.
  - intros c Hc. rewrite count_occ_app. apply in_app_or in Hc.
    destruct Hc as [Hc | Hc]; apply repeat_spec in Hc; subst c.
    + rewrite (count_occ_repeat_eq Z.eq_dec 1000 (eq_refl 1%Z)). lia.
    + rewrite (count_occ_repeat_eq Z.eq_dec 4000 (eq_refl 0%Z)). lia.
  - vm_compute. lia.
  - exists s, train, test. split; [exact Hs |].
    split; [now rewrite Htr, length_map |].
    split; [now rewrite Hte, length_map |].
    split; [exact HP |]. rewrite Hy. apply Hrate.
Defined.

End SplitFacts.

(** ** The cells in sequence *)

Module PipelineFacts.
Import NpRandom Pandas Sklearn Notebook.
Import NpRandomFacts PandasFacts GenerationFacts SklearnFacts PreprocessFacts.
Import SplitFacts.

Ltac cells :=
  cbn [get_col get_cols replace_col String.eqb Ascii.eqb Bool.eqb andb app
       rbind final_table scaled_table feature_table filter existsb negb fst
       snd orb].

Lemma scaled_values_length (v : list (option R)) :
  length (scaled_values v) = length v.
Proof.
  unfold scaled_values. destruct (non_null v); apply length_map.
Qed.

Lemma codes_length (v : list string) : length (codes v) = length v.
Proof. apply length_map. Qed.

Section Preprocessed.
Variables (d : Draws) (missing outliers : list nat).
Hypothesis Hd : draws_ok d.
Hypothesis Hm : rows_ok 50 missing.
Hypothesis Ho : rows_ok 10 outliers.

Lemma inflated_monthly_length :
  length (inflated_monthly d outliers) = n_records.
Proof.
  unfold inflated_monthly.
  now rewrite at_positions_length, float_values_length, (monthly_len d Hd).
Qed.

Lemma imputed_total_length : length (imputed_total d missing) = n_records.
Proof.
  unfold imputed_total.
  now rewrite length_map, at_positions_length, float_values_length,
    (total_len d Hd).
Qed.

Lemma total_observed :
  non_null (at_positions missing (fun _ => None) (float_values (total d)))
  <> [].
Proof.
  intros E. apply non_null_nil_count in E.
  destruct Hm as (Lm & Nm & Rm).
  rewrite count_null_at_positions in E
    by (try exact Nm; now rewrite (total_len d Hd)).
  rewrite at_positions_length, float_values_length, (total_len d Hd), Lm in E.
  unfold n_records in E. lia.
Qed.

Lemma handle_missing_values_final :
  handle_missing_values (final_table d missing outliers) =
  Ok (replace_col "TotalCharges" (SFloat (imputed_total d missing))
        (final_table d missing outliers)).
Proof.
  unfold handle_missing_values. cells.
  rewrite (impute_mean_Ok (SFloat _) _ eq_refl total_observed). cells.
  apply set_col_rows.
  - rewrite nrows_final_table. apply n_records_pos.
  - rewrite nrows_final_table. exact imputed_total_length.
Qed.

Lemma avg_length :
  length (map2 fdiv (float_values (total d))
            (int_values (map guard0 (tenure d)))) = n_records.
Proof.
  rewrite map2_length, float_values_length; [apply (total_len d Hd) |].
  now rewrite float_values_length, int_values_length, length_map,
    (total_len d Hd), (tenure_len d Hd).
Qed.

Lemma clv_length :
  length (map2 fmul (float_values (monthly d)) (int_values (tenure d))) =
  n_records.
Proof.
  rewrite map2_length, float_values_length; [apply (monthly_len d Hd) |].
  now rewrite float_values_length, int_values_length,
    (monthly_len d Hd), (tenure_len d Hd).
Qed.

Ltac len :=
  cbn [nrows series_len];
  rewrite ?scaled_values_length, ?codes_length, ?int_values_length,
    ?inflated_monthly_length, ?imputed_total_length, ?avg_length, ?clv_length,
    ?arange_length, ?at_positions_length, ?float_values_length;
  first [ reflexivity | apply n_records_pos | apply (age_len d Hd)
        | apply (gender_len d Hd) | apply (contract_len d Hd)
        | apply (monthly_len d Hd) | apply (total_len d Hd)
        | apply (tech_len d Hd) | apply (internet_len d Hd)
        | apply (tenure_len d Hd) | apply (paperless_len d Hd)
        | apply (payment_len d Hd) | apply (churn_len d Hd) ].

Lemma encode_step (col : string) (rest : list string) (df : DataFrame)
    (v : list string) :
  get_col col df = Ok (SObj v) -> 0 < nrows df -> length v = nrows df ->
  encode_categorical (col :: rest) df =
  encode_categorical rest (replace_col col (SInt (codes v)) df).
Proof.
  intros Hget Hpos Hlen. cbn [encode_categorical]. rewrite Hget. cbn [rbind].
  rewrite set_col_rows; [reflexivity | exact Hpos |].
  cbn [LabelEncoder_fit_transform series_len]. fold (codes v).
  now rewrite codes_length.
Qed.

Lemma encode_categorical_final :
  encode_categorical categorical_columns
    (replace_col "TotalCharges" (SFloat (imputed_total d missing))
       (final_table d missing outliers)) =
  Ok [("CustomerID", SInt (arange 1 (n_records + 1)));
      ("Age", SInt (age d));
      ("Gender", SInt (codes (gender d)));
      ("ContractType", SInt (codes (contract d)));
      ("MonthlyCharges", SFloat (inflated_monthly d outliers));
      ("TotalCharges", SFloat (imputed_total d missing));
      ("TechSupport", SInt (codes (tech d)));
      ("InternetService", SInt (codes (internet d)));
      ("Tenure", SInt (tenure d));
      ("PaperlessBilling", SInt (codes (paperless d)));
      ("PaymentMethod", SInt (codes (payment d)));
      ("Churn", SInt (codes (churn d)));
      ("average_monthly_charges",
        SFloat (map2 fdiv (float_values (total d))
                  (int_values (map guard0 (tenure d)))));
      ("customer_lifetime_value",
        SFloat (map2 fmul (float_values (monthly d))
                  (int_values (tenure d))))].
Proof.
  unfold categorical_columns. cells.
  do 7 (erewrite encode_step; [cells | reflexivity | len | len]).
  reflexivity.
Qed.

Lemma feature_scaling_final :
  feature_scaling
    [("CustomerID", SInt (arange 1 (n_records + 1)));
     ("Age", SInt (age d));
     ("Gender", SInt (codes (gender d)));
     ("ContractType", SInt (codes (contract d)));
     ("MonthlyCharges", SFloat (inflated_monthly d outliers));
     ("TotalCharges", SFloat (imputed_total d missing));
     ("TechSupport", SInt (codes (tech d)));
     ("InternetService", SInt (codes (internet d)));
     ("Tenure", SInt (tenure d));
     ("PaperlessBilling", SInt (codes (paperless d)));
     ("PaymentMethod", SInt (codes (payment d)));
     ("Churn", SInt (codes (churn d)));
     ("average_monthly_charges",
       SFloat (map2 fdiv (float_values (total d))
                 (int_values (map guard0 (tenure d)))));
     ("customer_lifetime_value",
       SFloat (map2 fmul (float_values (monthly d))
                 (int_values (tenure d))))] =
  Ok (scaled_table d missing outliers).
Proof.
  unfold feature_scaling, numeric_columns. cells.
  unfold StandardScaler_fit_transform. cbn [series_len].
  rewrite (age_len d Hd).
  change (n_records =? 0) with false. cbv iota.
  cbn [standardize_all standardize to_float rbind].
  fold (int_values (age d)). fold (int_values (tenure d)).
  cbn [set_cols].
  do 6 (rewrite set_col_rows; [cells | len | len]).
  reflexivity.
Qed.

Lemma drop_scaled :
  drop ["CustomerID"; "Churn"] (scaled_table d missing outliers) =
  Ok (feature_table d missing outliers).
Proof. reflexivity. Qed.

Lemma churn_scaled :
  get_col "Churn" (scaled_table d missing outliers) =
  Ok (SInt (codes (churn d))).
Proof. reflexivity. Qed.

Lemma nrows_feature_table :
  nrows (feature_table d missing outliers) = n_records.
Proof. unfold feature_table. len. Qed.

(** Whatever the random source, the cells before the split run through on
    the generated table. *)
Lemma preprocess_final (rs42 : RandomState) :
  preprocess rs42 (final_table d missing outliers) =
  split_dataset rs42 (scaled_table d missing outliers).
Proof.
  unfold preprocess. rewrite handle_missing_values_final. cbn [rbind].
  rewrite encode_categorical_final. cbn [rbind].
  rewrite feature_scaling_final. reflexivity.
Qed.

End Preprocessed.

(** *** The run goes through *)

Lemma get_col_iloc (c : string) (rows : list nat) (df : DataFrame) (s : Series) :
  get_col c df = Ok s -> get_col c (iloc rows df) = Ok (take_series rows s).
Proof.
  unfold iloc. induction df as [|[k s0] df IH]; cbn [get_col map fst snd];
    [discriminate |].
  destruct (String.eqb k c); [now intros [= ->] | exact IH].
Qed.

Lemma take_series_length (rows : list nat) (s : Series) :
  series_len (take_series rows s) = length rows.
Proof. destruct s; apply length_map. Qed.

Lemma nrows_iloc (rows : list nat) (df : DataFrame) :
  df <> [] -> nrows (iloc rows df) = length rows.
Proof.
  destruct df as [|[k s] df]; [congruence |]. intros _.
  apply take_series_length.
Qed.

Lemma add_ratio_total (X0 : DataFrame) (mv tv : list (option R)) :
  get_col "MonthlyCharges" X0 = Ok (SFloat mv) ->
  get_col "Tenure" X0 = Ok (SFloat tv) ->
  length mv = nrows X0 -> length tv = nrows X0 -> 0 < nrows X0 ->
  exists X', add_monthly_to_tenure_ratio X0 = Ok X'.
Proof.
  intros Hm Ht Lm Lt Hpos. unfold add_monthly_to_tenure_ratio.
  rewrite Hm, Ht. cbn [rbind].
  unfold series_div, where_eq0, to_float. cbn [rbind].
  rewrite length_map, Lm, Lt, Nat.eqb_refl. cbn [rbind].
  rewrite set_col_rows; [eauto | exact Hpos |].
  cbn [series_len]. rewrite map2_length; [exact Lm |].
  now rewrite length_map, Lm, Lt.
Qed.

Lemma add_ratio_iloc (d : Draws) (missing outliers rows : list nat) :
  0 < length rows ->
  exists X',
    add_monthly_to_tenure_ratio (iloc rows (feature_table d missing outliers))
    = Ok X'.
Proof.
  intros Hpos.
  assert (Hn : nrows (iloc rows (feature_table d missing outliers)) =
               length rows) by (apply nrows_iloc; discriminate).
  pose proof (get_col_iloc "MonthlyCharges" rows
                (feature_table d missing outliers) _ eq_refl) as Hm.
  pose proof (get_col_iloc "Tenure" rows
                (feature_table d missing outliers) _ eq_refl) as Ht.
  cbn [take_series] in Hm, Ht.
  eapply add_ratio_total; [exact Hm | exact Ht | | |].
  - rewrite Hn. apply length_map.
  - rewrite Hn. apply length_map.
  - now rewrite Hn.
Qed.

Lemma run_total (smote : Resampler) (rs42 rs2 : RandomState) (d : Draws)
    (missing outliers : list nat) (Xr : DataFrame) (yr : list Z)
    (n_train n_test : nat) :
  data_generation rs42 = (Ok (final_table d missing outliers), rs2) ->
  draws_ok d -> rows_ok 50 missing -> rows_ok 10 outliers ->
  (forall c, In c (codes (churn d)) ->
             2 <= count_occ Z.eq_dec (codes (churn d)) c) ->
  length (unique (codes (churn d))) <= 1000 ->
  smote (feature_table d missing outliers) (codes (churn d)) = Ok (Xr, yr) ->
  nrows Xr = length yr ->
  validate_shuffle_split (length yr) 1 5 = Ok (n_train, n_test) ->
  exists s t, run smote rs42 = Ok (final_table d missing outliers, s, t).
Proof.
  intros E Hd Hm Ho Htwo Hcls Hsm HXr Hv.
  assert (Leny : length (codes (churn d)) = n_records)
    by now rewrite codes_length, (churn_len d Hd).
  assert (Hv0 : validate_shuffle_split (length (codes (churn d))) 1 5 =
                Ok (4000, 1000)) by (rewrite Leny; exact validate_n_records).
  destruct (stratified_split_total (feature_table d missing outliers)
              (codes (churn d)) rs42 4000 1000
              ltac:(rewrite Leny; now apply nrows_feature_table)
              Hv0 Htwo ltac:(lia) Hcls)
    as (train & test & Esplit & _ & Hl1 & Hl2 & _).
  destruct (add_ratio_iloc d missing outliers train ltac:(lia)) as [X1 E1].
  destruct (add_ratio_iloc d missing outliers test ltac:(lia)) as [X2 E2].
  destruct (ShuffleSplit_total (length yr) n_train n_test rs42)
    as [[train' test'] Ess].
  unfold run. rewrite E. cbn [fst rbind].
  rewrite (preprocess_final d missing outliers Hd Hm).
  unfold split_dataset.
  rewrite (drop_scaled d missing outliers), (churn_scaled d missing outliers).
  cbn [rbind]. rewrite Esplit. cbn [rbind].
  unfold feature_engineering. cbn [X_train X_test X y y_train y_test].
  rewrite E1, E2. cbn [rbind].
  unfold address_class_imbalance. cbn [X y]. rewrite Hsm. cbn [rbind].
  unfold train_test_split. rewrite HXr, Nat.eqb_refl. cbn [negb].
  rewrite Hv. cbn [rbind]. rewrite Ess. cbn [rbind]. eauto.
Qed.

Lemma feature_engineering_Ok (s s' : Split) :
  feature_engineering s = Ok s' ->
  X s' = X s /\ y s' = y s /\ y_train s' = y_train s /\ y_test s' = y_test s.
Proof.
  unfold feature_engineering. intros H.
  apply rbind_Ok in H. destruct H as (X1 & _ & H).
  apply rbind_Ok in H. destruct H as (X2 & _ & H).
  injection H as <-. now repeat split.
Qed.


(** With the all-zero random source every customer churns. *)
Lemma churn_zeros :
  match fst (generate_data zeros) with
  | Ok raw => get_col "Churn" raw
  | Err e => Err e
  end = Ok (SObj (repeat "Yes" n_records)).
Proof. vm_compute. reflexivity. Qed.

Lemma codes_repeat_Yes (n : nat) : codes (repeat "Yes" n) = repeat 0%Z n.
Proof.
  unfold codes. rewrite map_repeat. f_equal. unfold rank.
  assert (E : filter (fun y0 => String.ltb y0 "Yes") (repeat "Yes" n) = []).
  { induction n as [|n IH]; [reflexivity |]. cbn [repeat filter].
    change (String.ltb "Yes" "Yes") with false. exact IH. }
  now rewrite E.
Qed.


End PipelineFacts.

(** ** The generated table *)

Module DatasetFacts.
Import NpRandom Pandas Sklearn Notebook.
Import NpRandomFacts PandasFacts GenerationFacts.

Lemma cumsum_length (p : list Z) (acc : Z) : length (cumsum acc p) = length p.
Proof.
  revert acc. induction p as [|x p IH]; intros acc; [reflexivity |].
  simpl. now rewrite IH.
Qed.

Lemma cumsum_last (p : list Z) (acc : Z) :
  p <> [] -> In (acc + fold_right Z.add 0 p)%Z (cumsum acc p).
Proof.
  revert acc. induction p as [|x p IH]; intros acc Hp; [congruence |].
  destruct p as [|x' p'].
  - left. simpl. lia.
  - right. replace (acc + fold_right Z.add 0 (x :: x' :: p'))%Z
      with ((acc + x) + fold_right Z.add 0 (x' :: p'))%Z by (simpl; lia).
    apply IH. discriminate.
Qed.

Lemma filter_length_lt {A} (f : A -> bool) (l : list A) (x : A) :
  In x l -> f x = false -> length (filter f l) < length l.
Proof.
  induction l as [|a l IH]; intros Hin Hx; [destruct Hin |].
  simpl. destruct Hin as [-> | Hin].
  - rewrite Hx. pose proof (filter_length_le f l). lia.
  - specialize (IH Hin Hx). destruct (f a); simpl; lia.
Qed.

Lemma searchsorted_right_lt (p : list Z) (den k : Z) :
  p <> [] -> fold_right Z.add 0%Z p = den -> (0 < den)%Z ->
  (0 <= k < two53)%Z ->
  searchsorted_right (map (fun c => (c * two53)%Z) (cumsum 0 p)) (k * den)
  < length p.
Proof.
  intros Hp Hsum Hden Hk. unfold searchsorted_right.
  rewrite <- (cumsum_length p 0).
  rewrite <- (length_map (fun c => (c * two53)%Z) (cumsum 0 p)).
  apply filter_length_lt with (x := (den * two53)%Z).
  - apply in_map_iff. exists den. split; [reflexivity |].
    rewrite <- Hsum. apply (cumsum_last p 0 Hp).
  - apply Z.leb_gt. nia.
Qed.

Lemma choice_p_values {A} (d : A) (a : list A) (p : list Z) (den : Z)
    (size : nat) :
  length a = length p -> p <> [] -> fold_right Z.add 0%Z p = den ->
  (0 < den)%Z ->
  succeeds (choice_p d a p den size)
    (fun l => length l = size /\ Forall (fun x => In x a) l).
Proof.
  intros Hlen Hp Hsum Hden. unfold choice_p.
  rewrite Hlen, Nat.eqb_refl, Hsum, Z.eqb_refl. simpl negb. cbv iota.
  apply draws_succeeds.
  eapply bind_succeeds; [apply random_sample_succeeds |].
  intros k Hk. apply ret_succeeds. apply nth_In. rewrite Hlen.
  now apply searchsorted_right_lt.
Qed.

Lemma generate_data_labels (rs : RandomState) :
  exists d rs1,
    generate_data rs = (Ok (raw_table d), rs1) /\
    Forall (fun x => In x ["Male"; "Female"]) (gender d) /\
    Forall (fun x => In x ["Month-to-month"; "One year"; "Two year"])
      (contract d) /\
    Forall (fun x => In x ["Yes"; "No"]) (tech d) /\
    Forall (fun x => In x ["DSL"; "Fiber optic"; "No"]) (internet d) /\
    Forall (fun x => In x ["Yes"; "No"]) (paperless d) /\
    Forall (fun x => In x ["Cash"; "UPI"; "Internet Banking"; "Debit card";
                           "Credit card"]) (payment d) /\
    Forall (fun x => In x ["Yes"; "No"]) (churn d).
Proof.
  destruct (randint_succeeds 18 70 n_records ltac:(lia) rs)
    as (v_age & s1 & E1 & L1 & R1).
  destruct (choice_succeeds "" ["Male"; "Female"] n_records
              ltac:(discriminate) s1) as (v_gender & s2 & E2 & L2 & D2).
  destruct (choice_succeeds "" ["Month-to-month"; "One year"; "Two year"]
              n_records ltac:(discriminate) s2)
    as (v_contract & s3 & E3 & L3 & D3).
  destruct (uniform_round2_succeeds 20 120 n_records ltac:(lia) s3)
    as (v_monthly & s4 & E4 & L4 & R4).
  destruct (uniform_round2_succeeds 100 8000 n_records ltac:(lia) s4)
    as (v_total & s5 & E5 & L5 & R5).
  destruct (choice_succeeds "" ["Yes"; "No"] n_records ltac:(discriminate) s5)
    as (v_tech & s6 & E6 & L6 & D6).
  destruct (choice_succeeds "" ["DSL"; "Fiber optic"; "No"] n_records
              ltac:(discriminate) s6) as (v_internet & s7 & E7 & L7 & D7).
  destruct (randint_succeeds 1 72 n_records ltac:(lia) s7)
    as (v_tenure & s8 & E8 & L8 & R8).
  destruct (choice_succeeds "" ["Yes"; "No"] n_records ltac:(discriminate) s8)
    as (v_paperless & s9 & E9 & L9 & D9).
  destruct (choice_succeeds ""
              ["Cash"; "UPI"; "Internet Banking"; "Debit card"; "Credit card"]
              n_records ltac:(discriminate) s9)
    as (v_payment & s10 & E10 & L10 & D10).
  destruct (choice_p_values "" ["Yes"; "No"] [2; 8]%Z 10 n_records
              eq_refl ltac:(discriminate) eq_refl eq_refl s10)
    as (v_churn & s11 & E11 & L11 & D11).
  exists (mkDraws v_age v_gender v_contract v_monthly v_total v_tech
            v_internet v_tenure v_paperless v_payment v_churn), s11.
  split.
  - unfold generate_data.
    run_draw E1. run_draw E2. run_draw E3. run_draw E4. run_draw E5.
    run_draw E6. run_draw E7. run_draw E8. run_draw E9. run_draw E10.
    run_draw E11.
    unfold lift, DataFrame_of_dict.
    cbn [forallb snd series_len nrows hundredths].
    rewrite arange_length, !float_values_length.
    rewrite L1, L2, L3, L4, L5, L6, L7, L8, L9, L10, L11.
    rewrite Nat.eqb_refl. reflexivity.
  - cbn [gender contract tech internet paperless payment churn].
    repeat (split; [assumption |]). assumption.
Qed.


Lemma data_generation_labels (rs : RandomState) :
  exists d missing outliers rs2,
    data_generation rs = (Ok (final_table d missing outliers), rs2) /\
    draws_ok d /\ rows_ok 50 missing /\ rows_ok 10 outliers /\
    Forall (fun x => In x ["Male"; "Female"]) (gender d) /\
    Forall (fun x => In x ["Month-to-month"; "One year"; "Two year"])
      (contract d) /\
    Forall (fun x => In x ["Yes"; "No"]) (tech d) /\
    Forall (fun x => In x ["DSL"; "Fiber optic"; "No"]) (internet d) /\
    Forall (fun x => In x ["Yes"; "No"]) (paperless d) /\
    Forall (fun x => In x ["Cash"; "UPI"; "Internet Banking"; "Debit card";
                           "Credit card"]) (payment d) /\
    Forall (fun x => In x ["Yes"; "No"]) (churn d).
Proof.
  destruct (data_generation_spec rs)
    as (d & missing & outliers & rs1 & rs2 & E1 & E2 & Hd & Hm & Ho).
  destruct (generate_data_labels rs) as (d' & rs1' & E1' & Hl).
  assert (E : raw_table d' = raw_table d).
  { pose proof (eq_trans (eq_sym E1') E1) as E.
    apply (f_equal fst) in E. cbn [fst] in E.
    apply (f_equal (fun r => match r with Ok a => a | Err _ => [] end)) in E.
    exact E. }
  assert (Hcol : forall c v v',
            get_col c (raw_table d') = Ok (SObj v') ->
            get_col c (raw_table d) = Ok (SObj v) -> v' = v).
  { intros c v v' H' H. rewrite E in H'. congruence. }
  pose proof (Hcol "Gender" (gender d) (gender d') eq_refl eq_refl) as G1.
  pose proof (Hcol "ContractType" (contract d) (contract d') eq_refl eq_refl)
    as G2.
  pose proof (Hcol "TechSupport" (tech d) (tech d') eq_refl eq_refl) as G3.
  pose proof (Hcol "InternetService" (internet d) (internet d')
                eq_refl eq_refl) as G4.
  pose proof (Hcol "PaperlessBilling" (paperless d) (paperless d')
                eq_refl eq_refl) as G5.
  pose proof (Hcol "PaymentMethod" (payment d) (payment d') eq_refl eq_refl)
    as G6.
  pose proof (Hcol "Churn" (churn d) (churn d') eq_refl eq_refl) as G7.
  rewrite G1, G2, G3, G4, G5, G6, G7 in Hl.
  exists d, missing, outliers, rs2.
  split; [exact E2 |]. split; [exact Hd |]. split; [exact Hm |].
  split; [exact Ho | exact Hl].
Qed.

Ltac column_length Hd :=
  cbn [snd series_len];
  rewrite ?at_positions_length, ?float_values_length, ?arange_length;
  first [ reflexivity | apply (age_len _ Hd) | apply (gender_len _ Hd)
        | apply (contract_len _ Hd) | apply (monthly_len _ Hd)
        | apply (total_len _ Hd) | apply (tech_len _ Hd)
        | apply (internet_len _ Hd) | apply (tenure_len _ Hd)
        | apply (paperless_len _ Hd) | apply (payment_len _ Hd)
        | apply (churn_len _ Hd) ].

(** X1: whatever the random source, the generation stage returns a table
    with the fourteen columns of the persisted dataset, in the order of the
    source, every column holding [n_records] entries. *)
Theorem generated_table_shape (rs : RandomState) :
  exists data rs',
    data_generation rs = (Ok data, rs') /\
    columns data =
      ["CustomerID"; "Age"; "Gender"; "ContractType"; "MonthlyCharges";
       "TotalCharges"; "TechSupport"; "InternetService"; "Tenure";
       "PaperlessBilling"; "PaymentMethod"; "Churn";
       "average_monthly_charges"; "customer_lifetime_value"] /\
    Forall (fun kv => series_len (snd kv) = n_records) data.
Proof.
  destruct (data_generation_spec rs)
    as (d & missing & outliers & rs1 & rs2 & _ & E2 & Hd & _ & _).
  exists (final_table d missing outliers), rs2.
  split; [exact E2 |]. split; [reflexivity |].
  pose proof (total_len d Hd) as Lt. pose proof (tenure_len d Hd) as Ln.
  pose proof (monthly_len d Hd) as Lc.
  unfold final_table.
  repeat (apply Forall_cons; [first [ column_length Hd | idtac ] |]);
    [| | apply Forall_nil].
  - cbn [snd series_len]. rewrite map2_length, float_values_length;
      [exact Lt |].
    now rewrite float_values_length, int_values_length, length_map, Lt, Ln.
  - cbn [snd series_len]. rewrite map2_length, float_values_length;
      [exact Lc |].
    now rewrite float_values_length, int_values_length, Lc, Ln.
Qed.

Lemma nth_arange (low high i : nat) :
  i < high - low -> nth i (arange low high) 0%Z = Z.of_nat (low + i).
Proof.
  intros Hi. unfold arange.
  rewrite (nth_map_lt Z.of_nat _ i 0%Z 0) by now rewrite length_seq.
  now rewrite seq_nth.
Qed.

Lemma arange_NoDup (low high : nat) : NoDup (arange low high).
Proof.
  unfold arange. apply Finite.Injective_map_NoDup.
  - intros a b. apply Nat2Z.inj.
  - apply seq_NoDup.
Qed.

(** X2: the customer identifiers of the generated table are 1, 2, ...,
    [n_records] in row order, so no identifier occurs twice. *)
Theorem customer_ids_consecutive (rs : RandomState) :
  exists data rs' ids,
    data_generation rs = (Ok data, rs') /\
    get_col "CustomerID" data = Ok (SInt ids) /\
    length ids = n_records /\ NoDup ids /\
    forall i, i < n_records -> nth i ids 0%Z = Z.of_nat (i + 1).
Proof.
  destruct (data_generation_spec rs)
    as (d & missing & outliers & rs1 & rs2 & _ & E2 & _ & _ & _).
  exists (final_table d missing outliers), rs2, (arange 1 (n_records + 1)).
  split; [exact E2 |]. split; [reflexivity |].
  split; [apply arange_length |]. split; [apply arange_NoDup |].
  intros i Hi. rewrite nth_arange by lia. f_equal. lia.
Qed.

(** X3: the value ranges of the generated numeric columns.  Age is an
    integer in [18, 69]; MonthlyCharges is drawn in [20, 120] and the
    outlier step leaves it as drawn or makes it 1.5 times that, so it stays
    in [20, 180]; every TotalCharges that is present lies in
    [100, 8000]. *)
Theorem generated_value_ranges (rs : RandomState) :
  exists raw rs1 data rs2 ages monthly0 monthly total,
    generate_data rs = (Ok raw, rs1) /\
    data_generation rs = (Ok data, rs2) /\
    get_col "Age" data = Ok (SInt ages) /\
    get_col "MonthlyCharges" raw = Ok (SFloat monthly0) /\
    get_col "MonthlyCharges" data = Ok (SFloat monthly) /\
    get_col "TotalCharges" data = Ok (SFloat total) /\
    length ages = n_records /\
    Forall (fun a => (18 <= a <= 69)%Z) ages /\
    forall i, i < n_records ->
      (exists x0 x,
         nth i monthly0 None = Some x0 /\ (20 <= x0 <= 120)%R /\
         nth i monthly None = Some x /\ (x = x0 \/ x = (x0 * 1.5)%R) /\
         (20 <= x <= 180)%R) /\
      (nth i total None = None \/
       exists x, nth i total None = Some x /\ (100 <= x <= 8000)%R).
Proof.
  destruct (data_generation_spec rs)
    as (d & missing & outliers & rs1 & rs2 & E1 & E2 & Hd & _ & _).
  pose proof (total_len d Hd) as Lt. pose proof (monthly_len d Hd) as Lc.
  exists (raw_table d), rs1, (final_table d missing outliers), rs2.
  eexists; eexists; eexists; eexists.
  split; [exact E1 |]. split; [exact E2 |]. split; [reflexivity |].
  split; [reflexivity |].
  split; [apply final_monthly |]. split; [apply final_total |].
  split; [apply (age_len d Hd) |]. split.
  - eapply Forall_impl; [| apply (age_range d Hd)].
    intros a Ha. cbv beta in Ha. lia.
  - intros i Hi. split.
    + rewrite nth_at_positions
        by (rewrite float_values_length, Lc; exact Hi).
      rewrite nth_float_values by (rewrite Lc; exact Hi).
      pose proof (nth_monthly_range d Hd i Hi) as [Hlo Hhi].
      apply IZR_le in Hlo, Hhi.
      destruct (existsb (Nat.eqb i) outliers).
      * eexists; eexists. split; [reflexivity |]. split; [lra |].
        split; [reflexivity |]. split; [right; reflexivity | lra].
      * eexists; eexists. split; [reflexivity |]. split; [lra |].
        split; [reflexivity |]. split; [left; reflexivity | lra].
    + rewrite nth_at_positions
        by (rewrite float_values_length, Lt; exact Hi).
      rewrite nth_float_values by (rewrite Lt; exact Hi).
      destruct (existsb (Nat.eqb i) missing); [left; reflexivity | right].
      assert (Hr : (10000 <= nth i (total d) 0 <= 800000)%Z).
      { pose proof (total_range d Hd) as H.
        rewrite Forall_forall in H. apply H, nth_In. rewrite Lt. exact Hi. }
      destruct Hr as [Hlo Hhi]. apply IZR_le in Hlo, Hhi.
      eexists. split; [reflexivity |]. lra.
Qed.

(** X4: every categorical column of the generated table holds only the
    options listed in the source; in particular every row carries a churn
    label, Yes or No. *)
Theorem categorical_values_in_options (rs : RandomState) :
  exists data rs' gender contract tech internet paperless payment churn,
    data_generation rs = (Ok data, rs') /\
    get_col "Gender" data = Ok (SObj gender) /\
    get_col "ContractType" data = Ok (SObj contract) /\
    get_col "TechSupport" data = Ok (SObj tech) /\
    get_col "InternetService" data = Ok (SObj internet) /\
    get_col "PaperlessBilling" data = Ok (SObj paperless) /\
    get_col "PaymentMethod" data = Ok (SObj payment) /\
    get_col "Churn" data = Ok (SObj churn) /\
    Forall (fun x => In x ["Male"; "Female"]) gender /\
    Forall (fun x => In x ["Month-to-month"; "One year"; "Two year"])
      contract /\
    Forall (fun x => In x ["Yes"; "No"]) tech /\
    Forall (fun x => In x ["DSL"; "Fiber optic"; "No"]) internet /\
    Forall (fun x => In x ["Yes"; "No"]) paperless /\
    Forall (fun x => In x ["Cash"; "UPI"; "Internet Banking"; "Debit card";
                           "Credit card"]) payment /\
    length churn = n_records /\
    Forall (fun x => x = "Yes" \/ x = "No") churn.
Proof.
  destruct (data_generation_labels rs)
    as (d & missing & outliers & rs2 & E2 & Hd & _ & _ & H1 & H2 & H3 & H4 &
        H5 & H6 & H7).
  exists (final_table d missing outliers), rs2, (Notebook.gender d),
    (Notebook.contract d), (Notebook.tech d), (Notebook.internet d),
    (Notebook.paperless d), (Notebook.payment d), (Notebook.churn d).
  split; [exact E2 |].
  do 7 (split; [reflexivity |]).
  do 6 (split; [assumption |]).
  split; [apply (churn_len d Hd) |].
  eapply Forall_impl; [| exact H7].
  intros x [Hx | [Hx | []]]; [left | right]; now symmetry.
Qed.


End DatasetFacts.

(** ** Assignments that change nothing *)

Module FrameFacts.
Import Pandas PandasFacts PreprocessFacts.

Lemma replace_col_same (c : string) (s : Series) (df : DataFrame) :
  get_col c df = Ok s -> replace_col c s df = df.
Proof.
  induction df as [|[k s0] df IH]; cbn [get_col replace_col];
    [discriminate |].
  destruct (String.eqb k c).
  - intros E. injection E as ->. reflexivity.
  - intros E. now rewrite IH.
Qed.

Lemma nrows_replace_len (c : string) (s : Series) (df : DataFrame) :
  df <> [] -> series_len s = nrows df -> nrows (replace_col c s df) = nrows df.
Proof.
  destruct df as [|[k s0] df]; [congruence |]. intros _ H.
  cbn [replace_col]. destruct (String.eqb k c); cbn [nrows]; [exact H |].
  reflexivity.
Qed.

(** What a successful [df[c] = s] did. *)
Lemma set_col_inv (c : string) (s : Series) (df df' : DataFrame) :
  set_col c s df = Ok df' -> df <> [] ->
  df' = replace_col c s df /\ series_len s = nrows df /\ nrows df' = nrows df.
Proof.
  intros H Hne. pose proof (set_col_Ok _ _ _ _ H) as ->.
  destruct df as [|kv df]; [congruence |].
  unfold set_col in H.
  destruct (Nat.eqb_spec (series_len s) (nrows (kv :: df))) as [E | _];
    [| discriminate].
  split; [reflexivity |]. split; [exact E |].
  now apply nrows_replace_len.
Qed.

Lemma set_col_same (c : string) (s : Series) (df : DataFrame) :
  get_col c df = Ok s -> series_len s = nrows df -> set_col c s df = Ok df.
Proof.
  intros Hc Hl. destruct df as [|kv df]; [discriminate |].
  unfold set_col. rewrite Hl, Nat.eqb_refl. f_equal.
  now apply replace_col_same.
Qed.

Lemma get_col_nonempty (c : string) (df : DataFrame) (s : Series) :
  get_col c df = Ok s -> df <> [].
Proof. destruct df; [discriminate | discriminate]. Qed.

Lemma get_col_absent (c : string) (df : DataFrame) :
  ~ In c (columns df) -> get_col c df = Err (KeyError c).
Proof.
  induction df as [|[k s] df IH]; intros H; [reflexivity |].
  cbn [get_col]. destruct (String.eqb_spec k c) as [-> | _].
  - exfalso. apply H. now left.
  - apply IH. intros Hin. apply H. now right.
Qed.

End FrameFacts.

(** ** The cell that injects the data defects *)

Module InjectionFacts.
Import NpRandom Pandas Sklearn Notebook.
Import NpRandomFacts PandasFacts GenerationFacts PreprocessFacts FrameFacts.

(** X6: the cell that injects the data defects needs 50 rows to choose
    from.  On a table with fewer rows it raises before it changes
    anything; on a table with at least 50 rows and float TotalCharges and
    MonthlyCharges columns it returns, keeping the columns, the row count
    and every other column. *)
Theorem missing_step_needs_fifty_rows (data : DataFrame) (rs : RandomState) :
  (nrows data < 50 ->
   introduce_missing_and_outliers data rs =
   (Err (ValueError "Cannot take a larger sample than population"), rs)) /\
  (forall tv mv,
     50 <= nrows data ->
     get_col "TotalCharges" data = Ok (SFloat tv) ->
     get_col "MonthlyCharges" data = Ok (SFloat mv) ->
     length tv = nrows data -> length mv = nrows data ->
     exists data' rs',
       introduce_missing_and_outliers data rs = (Ok data', rs') /\
       columns data' = columns data /\ nrows data' = nrows data /\
       forall c, c <> "TotalCharges" -> c <> "MonthlyCharges" ->
         get_col c data' = get_col c data).
Proof.
  split.
  - intros H. unfold introduce_missing_and_outliers, bind, choice_no_replace,
      index.
    rewrite length_seq.
    assert (E : (nrows data <? 50) = true) by (apply Nat.ltb_lt; exact H).
    rewrite E. reflexivity.
  - intros tv mv Hn Ht Hm Lt Lm.
    assert (Hpos : 0 < nrows data) by lia.
    assert (Hne : data <> []) by (apply (get_col_nonempty _ _ _ Ht)).
    destruct (choice_index_succeeds (nrows data) 50 Hn rs)
      as (missing & rs1 & E1 & _ & _ & R1).
    destruct (choice_index_succeeds (nrows data) 10 ltac:(lia) rs1)
      as (outliers & rs2 & E2 & _ & _ & R2).
    set (d1 := replace_col "TotalCharges"
                 (SFloat (at_positions missing (fun _ => None) tv)) data).
    assert (N1 : nrows d1 = nrows data).
    { apply nrows_replace_len; [exact Hne |].
      cbn [series_len]. rewrite at_positions_length. exact Lt. }
    assert (S1 : loc_set_nan missing "TotalCharges" data = Ok d1).
    { unfold loc_set_nan. rewrite (check_labels_ok _ _ R1). cbn [rbind].
      rewrite Ht. cbn [to_float rbind]. apply set_col_rows; [exact Hpos |].
      cbn [series_len]. rewrite at_positions_length. exact Lt. }
    assert (Hm1 : get_col "MonthlyCharges" d1 = Ok (SFloat mv)).
    { unfold d1. rewrite get_col_replace_other by discriminate. exact Hm. }
    set (d2 := replace_col "MonthlyCharges"
                 (SFloat (at_positions outliers
                            (fun x => fmul x (Some 1.5%R)) mv)) d1).
    assert (S2 : loc_imul outliers "MonthlyCharges" 1.5%R d1 = Ok d2).
    { unfold loc_imul. rewrite check_labels_ok by (rewrite N1; exact R2).
      cbn [rbind]. rewrite Hm1. cbn [to_float rbind].
      apply set_col_rows; [rewrite N1; exact Hpos |].
      cbn [series_len]. rewrite at_positions_length, N1. exact Lm. }
    exists d2, rs2. split.
    { unfold introduce_missing_and_outliers, index.
      run_draw E1. unfold bind at 1, lift at 1. rewrite S1. cbv beta iota.
      rewrite N1. run_draw E2. unfold lift. rewrite S2. reflexivity. }
    split.
    { unfold d2, d1.
      rewrite columns_replace_existing.
      - apply columns_replace_existing. apply get_col_In. eauto.
      - apply get_col_In. eauto. }
    split.
    { unfold d2. rewrite nrows_replace_len; [exact N1 | |].
      - unfold d1. destruct data as [|[k s0] df]; [congruence |].
        cbn [replace_col]. destruct (String.eqb k "TotalCharges");
          discriminate.
      - cbn [series_len]. rewrite at_positions_length, N1. exact Lm. }
    intros c Hc1 Hc2. unfold d2, d1.
    rewrite !get_col_replace_other by congruence. reflexivity.
Qed.

Lemma missing_step_needs_fifty_rows_witness :
  introduce_missing_and_outliers
    [("TotalCharges", SFloat [Some 1%R; Some 2%R]);
     ("MonthlyCharges", SFloat [Some 3%R; Some 4%R])] zeros =
  (Err (ValueError "Cannot take a larger sample than population"), zeros).
Proof.
  apply (missing_step_needs_fifty_rows
           [("TotalCharges", SFloat [Some 1%R; Some 2%R]);
            ("MonthlyCharges", SFloat [Some 3%R; Some 4%R])] zeros).
  cbn [nrows series_len length]. lia.
Defined.

End InjectionFacts.

(** ** Imputation *)

Module CleaningFacts.
Import Pandas Sklearn Notebook.
Import PandasFacts SklearnFacts PreprocessFacts FrameFacts.

Lemma handle_missing_values_Ok (data data' : DataFrame) :
  handle_missing_values data = Ok data' ->
  exists s before,
    get_col "TotalCharges" data = Ok s /\ to_float s = Ok before /\
    non_null before <> [] /\ length before = nrows data /\
    nrows data' = nrows data /\
    data' = replace_col "TotalCharges"
              (SFloat (map (fill (mean (non_null before))) before)) data.
Proof.
  unfold handle_missing_values. intros H.
  apply rbind_Ok in H. destruct H as (s & Hs & H).
  apply rbind_Ok in H. destruct H as (imp & Hi & H).
  unfold impute_mean in Hi.
  apply rbind_Ok in Hi. destruct Hi as (before & Hb & Hi).
  assert (Hne : non_null before <> []).
  { intros E. rewrite E in Hi. discriminate. }
  assert (Ei : imp = SFloat (map (fill (mean (non_null before))) before)).
  { destruct (non_null before); [congruence |]. now injection Hi. }
  subst imp.
  destruct (set_col_inv _ _ _ _ H (get_col_nonempty _ _ _ Hs))
    as (-> & Hl & Hn).
  cbn [series_len] in Hl. rewrite length_map in Hl.
  exists s, before. repeat split; assumption.
Qed.

Local Open Scope R_scope.

Lemma non_null_Some (x : R) (v : list (option R)) :
  non_null (Some x :: v) = x :: non_null v.
Proof. reflexivity. Qed.




Lemma non_null_fill (m : R) (v : list (option R)) :
  non_null (map (fill m) v) =
  map (fun x => match x with Some r => r | None => m end) v.
Proof.
  induction v as [|[x|] v IH]; [reflexivity | |]; cbn [map fill];
    rewrite non_null_Some, IH; reflexivity.
Qed.

Lemma non_null_fill_length (m : R) (v : list (option R)) :
  length (non_null (map (fill m) v)) = length v.
Proof. now rewrite non_null_fill, length_map. Qed.




Lemma fill_fixed (m m' : R) (v : list (option R)) :
  map (fill m') (map (fill m) v) = map (fill m) v.
Proof.
  rewrite map_map. apply map_ext. now intros [x|].
Qed.

Lemma non_null_fill_ne (m : R) (v : list (option R)) :
  v <> [] -> non_null (map (fill m) v) <> [].
Proof.
  intros Hv E. apply (f_equal (@length R)) in E.
  rewrite non_null_fill_length in E. destruct v; [congruence | discriminate].
Qed.



(** X8: the imputation cell touches TotalCharges only, and running it a
    second time changes nothing: no entry is missing any more. *)
Theorem imputation_rerun_changes_nothing (data data' : DataFrame) :
  handle_missing_values data = Ok data' ->
  handle_missing_values data' = Ok data' /\
  columns data' = columns data /\ nrows data' = nrows data /\
  forall c, c <> "TotalCharges" -> get_col c data' = get_col c data.
Proof.
  intros H.
  destruct (handle_missing_values_columns _ _ H) as [_ Hcols].
  destruct (handle_missing_values_Ok _ _ H)
    as (s & before & Hs & Hb & Hne & Hl & Hn & E).
  split; [| split; [exact Hcols | split; [exact Hn |]]].
  - set (after := map (fill (mean (non_null before))) before) in *.
    assert (Hc : get_col "TotalCharges" data' = Ok (SFloat after))
      by (rewrite E; apply get_col_replace_same).
    assert (Hv : before <> []).
    { intros ->. now apply Hne. }
    unfold handle_missing_values. rewrite Hc. cbn [rbind].
    rewrite (impute_mean_Ok (SFloat after) after eq_refl)
      by (apply non_null_fill_ne, Hv).
    cbn [rbind].
    replace (map (fill (mean (non_null after))) after) with after
      by (unfold after; now rewrite fill_fixed).
    apply set_col_same; [exact Hc |].
    cbn [series_len]. unfold after. rewrite length_map. congruence.
  - intros c Hc. rewrite E. apply get_col_replace_other. congruence.
Qed.

Lemma imputation_rerun_changes_nothing_witness :
  exists data',
    handle_missing_values
      [("TotalCharges", SFloat [Some 1%R; None; Some 3%R])] = Ok data' /\
    handle_missing_values data' = Ok data'.
Proof.
  eexists. split; [reflexivity |].
  apply (imputation_rerun_changes_nothing
           [("TotalCharges", SFloat [Some 1%R; None; Some 3%R])]).
  reflexivity.
Defined.

End CleaningFacts.

(** ** Label encoding *)

Module EncodingFacts.
Import Pandas Sklearn Notebook.
Import PandasFacts PreprocessFacts FrameFacts.

Section Rank.
Context {A : Type} (eq_dec : forall a b : A, {a = b} + {a <> b}).
Variable ltb : A -> A -> bool.
Hypothesis ltb_irrefl : forall x, ltb x x = false.
Hypothesis ltb_trans :
  forall x y z, ltb x y = true -> ltb y z = true -> ltb x z = true.
Hypothesis ltb_total : forall x y, ltb x y = true \/ x = y \/ ltb y x = true.

Let below (col : list A) (x : A) : list A :=
  nodup eq_dec (filter (fun y => ltb y x) col).

Lemma below_NoDup_cons (col : list A) (x : A) : NoDup (x :: below col x).
Proof.
  constructor; [| apply NoDup_nodup].
  unfold below. rewrite nodup_In, filter_In. intros [_ H].
  now rewrite ltb_irrefl in H.
Qed.

Lemma rank_lt (col : list A) (x y : A) :
  In x col -> ltb x y = true ->
  (rank eq_dec ltb col x < rank eq_dec ltb col y)%Z.
Proof.
  intros Hx Hxy. unfold rank. apply inj_lt.
  change (S (length (below col x)) <= length (below col y)).
  change (S (length (below col x))) with (length (x :: below col x)).
  apply NoDup_incl_length; [apply below_NoDup_cons |].
  intros z [<- | Hz]; unfold below in *; rewrite nodup_In, filter_In in *.
  - now split.
  - destruct Hz as [Hz Hzx]. split; [exact Hz |]. now apply ltb_trans with x.
Qed.

Lemma rank_lt_iff (col : list A) (x y : A) :
  In x col -> In y col ->
  ((rank eq_dec ltb col x < rank eq_dec ltb col y)%Z <-> ltb x y = true).
Proof.
  intros Hx Hy. split; [| now apply rank_lt].
  intros H. destruct (ltb_total x y) as [Hlt | [-> | Hgt]]; [exact Hlt | lia |].
  pose proof (rank_lt col y x Hy Hgt). lia.
Qed.

Lemma rank_eq_iff (col : list A) (x y : A) :
  In x col -> In y col ->
  (rank eq_dec ltb col x = rank eq_dec ltb col y <-> x = y).
Proof.
  intros Hx Hy. split; [| now intros ->].
  intros H. destruct (ltb_total x y) as [Hlt | [E | Hgt]]; [| exact E |].
  - pose proof (rank_lt col x y Hx Hlt). lia.
  - pose proof (rank_lt col y x Hy Hgt). lia.
Qed.

Lemma rank_bounds (col : list A) (x : A) :
  In x col ->
  (0 <= rank eq_dec ltb col x < Z.of_nat (length (nodup eq_dec col)))%Z.
Proof.
  intros Hx. unfold rank. split; [lia |]. apply inj_lt.
  change (S (length (below col x)) <= length (nodup eq_dec col)).
  change (S (length (below col x))) with (length (x :: below col x)).
  apply NoDup_incl_length; [apply below_NoDup_cons |].
  intros z [<- | Hz]; rewrite nodup_In; [exact Hx |].
  unfold below in Hz. rewrite nodup_In, filter_In in Hz. tauto.
Qed.

End Rank.

Lemma string_ltb_lt (x y : string) :
  String.ltb x y = true <-> OrdersEx.String_as_OT.lt x y.
Proof.
  unfold String.ltb, OrdersEx.String_as_OT.lt.
  change (OrdersEx.String_as_OT.compare x y) with (String.compare x y).
  destruct (String.compare x y); split; congruence.
Qed.

Lemma string_ltb_irrefl (x : string) : String.ltb x x = false.
Proof.
  destruct (String.ltb x x) eqn:E; [| reflexivity].
  apply string_ltb_lt in E.
  now apply (RelationClasses.StrictOrder_Irreflexive (R := OrdersEx.String_as_OT.lt)) in E.
Qed.

Lemma string_ltb_trans (x y z : string) :
  String.ltb x y = true -> String.ltb y z = true -> String.ltb x z = true.
Proof.
  rewrite !string_ltb_lt.
  apply (RelationClasses.StrictOrder_Transitive (R := OrdersEx.String_as_OT.lt)).
Qed.

Lemma string_ltb_total (x y : string) :
  String.ltb x y = true \/ x = y \/ String.ltb y x = true.
Proof.
  rewrite !string_ltb_lt.
  destruct (OrdersEx.String_as_OT.compare_spec x y) as [E | H | H]; auto.
Qed.


Lemma Z_ltb_total (x y : Z) : (x <? y)%Z = true \/ x = y \/ (y <? x)%Z = true.
Proof. rewrite !Z.ltb_lt. lia. Qed.

Lemma Z_ltb_trans (x y z : Z) :
  (x <? y)%Z = true -> (y <? z)%Z = true -> (x <? z)%Z = true.
Proof. rewrite !Z.ltb_lt. lia. Qed.

Lemma float_ltb_irrefl (x : option R) : float_ltb x x = false.
Proof.
  destruct x as [x|]; [| reflexivity]. cbn.
  destruct (Rlt_dec x x); [lra | reflexivity].
Qed.

Lemma float_ltb_trans (x y z : option R) :
  float_ltb x y = true -> float_ltb y z = true -> float_ltb x z = true.
Proof.
  destruct x as [x|], y as [y|], z as [z|]; cbn; try congruence.
  destruct (Rlt_dec x y), (Rlt_dec y z), (Rlt_dec x z); try congruence. lra.
Qed.

Lemma float_ltb_total (x y : option R) :
  float_ltb x y = true \/ x = y \/ float_ltb y x = true.
Proof.
  destruct x as [x|], y as [y|]; cbn; auto.
  destruct (Rlt_dec x y), (Rlt_dec y x); auto.
  right. left. f_equal. lra.
Qed.

Lemma filter_map_swap {A B} (p : B -> bool) (f : A -> B) (l : list A) :
  filter p (map f l) = map f (filter (fun a => p (f a)) l).
Proof.
  induction l as [|a l IH]; [reflexivity |]. cbn [map filter].
  destruct (p (f a)); cbn [map]; now rewrite IH.
Qed.

Lemma nodup_map_length {A B} (eqA : forall a b : A, {a = b} + {a <> b})
    (eqB : forall a b : B, {a = b} + {a <> b}) (f : A -> B) (l : list A) :
  (forall a b, In a l -> In b l -> f a = f b -> a = b) ->
  length (nodup eqB (map f l)) = length (nodup eqA l).
Proof.
  induction l as [|a l IH]; intros Hinj; [reflexivity |].
  cbn [map nodup].
  assert (IH' : length (nodup eqB (map f l)) = length (nodup eqA l)).
  { apply IH. intros x y Hx Hy. apply Hinj; now right. }
  destruct (in_dec eqB (f a) (map f l)) as [Hin | Hnin],
           (in_dec eqA a l) as [Hin' | Hnin']; cbn [length]; try lia.
  - exfalso. apply in_map_iff in Hin. destruct Hin as (b & E & Hb).
    apply Hnin'. rewrite (Hinj a b); [exact Hb | now left | now right |].
    now symmetry.
  - exfalso. apply Hnin. now apply in_map.
Qed.

Section Recode.
Context {A : Type} (eq_dec : forall a b : A, {a = b} + {a <> b}).
Variable ltb : A -> A -> bool.
Hypothesis ltb_irrefl : forall x, ltb x x = false.
Hypothesis ltb_trans :
  forall x y z, ltb x y = true -> ltb y z = true -> ltb x z = true.
Hypothesis ltb_total : forall x y, ltb x y = true \/ x = y \/ ltb y x = true.

Lemma rank_of_codes (col : list A) (x : A) :
  In x col ->
  rank Z.eq_dec Z.ltb (map (rank eq_dec ltb col) col) (rank eq_dec ltb col x)
  = rank eq_dec ltb col x.
Proof.
  intros Hx. unfold rank at 1.
  rewrite filter_map_swap.
  rewrite (filter_ext_in _ (fun y => ltb y x)).
  - rewrite (nodup_map_length eq_dec Z.eq_dec); [reflexivity |].
    intros a b Ha Hb. apply filter_In in Ha, Hb.
    apply (rank_eq_iff eq_dec ltb ltb_irrefl ltb_trans ltb_total); tauto.
  - intros y Hy.
    pose proof (rank_lt_iff eq_dec ltb ltb_irrefl ltb_trans ltb_total
                  col y x Hy Hx) as H.
    destruct (ltb y x).
    + apply Z.ltb_lt. now apply H.
    + apply Z.ltb_ge. apply Z.le_ngt. intros Hlt. apply H in Hlt. discriminate.
Qed.

Lemma recode_fixed (col : list A) :
  map (rank Z.eq_dec Z.ltb (map (rank eq_dec ltb col) col))
    (map (rank eq_dec ltb col) col) = map (rank eq_dec ltb col) col.
Proof.
  rewrite map_map. apply map_ext_in. intros x Hx. now apply rank_of_codes.
Qed.

End Recode.

Lemma LabelEncoder_length (s : Series) :
  series_len (LabelEncoder_fit_transform s) = series_len s.
Proof. destruct s; cbn; apply length_map. Qed.

Lemma LabelEncoder_idempotent (s : Series) :
  LabelEncoder_fit_transform (LabelEncoder_fit_transform s) =
  LabelEncoder_fit_transform s.
Proof.
  destruct s as [v | v | v]; cbn [LabelEncoder_fit_transform]; f_equal.
  - apply recode_fixed; [apply Z.ltb_irrefl | apply Z_ltb_trans
                        | apply Z_ltb_total].
  - apply recode_fixed; [apply float_ltb_irrefl | apply float_ltb_trans
                        | apply float_ltb_total].
  - apply recode_fixed; [apply string_ltb_irrefl | apply string_ltb_trans
                        | apply string_ltb_total].
Qed.

Lemma encode_categorical_spec (cols : list string) :
  NoDup cols -> forall data data',
  encode_categorical cols data = Ok data' ->
  (forall c, In c cols ->
     exists s, get_col c data = Ok s /\
               get_col c data' = Ok (LabelEncoder_fit_transform s) /\
               series_len s = nrows data) /\
  (forall c, ~ In c cols -> get_col c data' = get_col c data) /\
  nrows data' = nrows data.
Proof.
  induction 1 as [|col rest Hnin Hnd IH]; intros data data' H.
  - injection H as <-. split; [intros c [] |]. now split.
  - cbn [encode_categorical] in H.
    apply rbind_Ok in H. destruct H as (s & Hs & H).
    apply rbind_Ok in H. destruct H as (d1 & H1 & H).
    destruct (set_col_inv _ _ _ _ H1 (get_col_nonempty _ _ _ Hs))
      as (E1 & Hl & Hn).
    rewrite LabelEncoder_length in Hl.
    destruct (IH _ _ H) as (IHin & IHout & IHn).
    split; [| split].
    + intros c [<- | Hc].
      * exists s. split; [exact Hs |]. split; [| exact Hl].
        rewrite (IHout col Hnin). now apply (get_col_set_col_same _ _ _ _ H1).
      * destruct (IHin c Hc) as (s' & Hs' & Hc' & Hl').
        assert (Hne : col <> c) by (intros ->; contradiction).
        rewrite (get_col_set_col_other _ _ _ _ _ H1 Hne) in Hs'.
        exists s'. split; [exact Hs' |]. split; [exact Hc' | congruence].
    + intros c Hc. rewrite IHout by (intros Hin; apply Hc; now right).
      apply (get_col_set_col_other _ _ _ _ _ H1).
      intros ->. apply Hc. now left.
    + congruence.
Qed.

Lemma categorical_columns_NoDup : NoDup categorical_columns.
Proof.
  unfold categorical_columns.
  repeat (constructor; [cbn; intuition discriminate |]). constructor.
Qed.

(** X9: the code of a label is its position among the distinct labels of
    its column in alphabetical order: equal labels share a code, a label
    that sorts first has the smaller code, and every code is below the
    number of distinct labels. *)
Theorem label_codes_follow_label_order (data data' : DataFrame)
    (col : string) (v : list string) :
  encode_categorical categorical_columns data = Ok data' ->
  In col categorical_columns ->
  get_col col data = Ok (SObj v) ->
  exists cs,
    get_col col data' = Ok (SInt cs) /\ length cs = length v /\
    forall i j, i < length v -> j < length v ->
      (nth i cs 0%Z = nth j cs 0%Z <-> nth i v "" = nth j v "") /\
      ((nth i cs 0 < nth j cs 0)%Z <->
       String.ltb (nth i v "") (nth j v "") = true) /\
      (0 <= nth i cs 0 < Z.of_nat (length (nodup string_dec v)))%Z.
Proof.
  intros H Hcol Hv.
  destruct (encode_categorical_spec _ categorical_columns_NoDup _ _ H)
    as (Hin & _ & _).
  destruct (Hin col Hcol) as (s & Hs & Hc & _).
  rewrite Hv in Hs. injection Hs as <-.
  cbn [LabelEncoder_fit_transform] in Hc.
  eexists. split; [exact Hc |]. split; [apply length_map |].
  intros i j Hi Hj.
  rewrite !(nth_map_lt (rank string_dec String.ltb v) v _ 0%Z "") by assumption.
  pose proof (nth_In v "" Hi) as Ii. pose proof (nth_In v "" Hj) as Ij.
  split; [| split].
  - apply (rank_eq_iff string_dec String.ltb string_ltb_irrefl
             string_ltb_trans string_ltb_total); assumption.
  - apply (rank_lt_iff string_dec String.ltb string_ltb_irrefl
             string_ltb_trans string_ltb_total); assumption.
  - apply (rank_bounds string_dec String.ltb string_ltb_irrefl); assumption.
Qed.

Lemma label_codes_follow_label_order_witness :
  exists data' cs,
    encode_categorical categorical_columns sample_table = Ok data' /\
    get_col "Gender" data' = Ok (SInt cs) /\ length cs = 10 /\
    forall i j, i < 10 -> j < 10 ->
      (nth i cs 0%Z = nth j cs 0%Z <->
       nth i ["Male"; "Female"; "Male"; "Female"; "Male";
              "Female"; "Male"; "Female"; "Male"; "Female"] "" =
       nth j ["Male"; "Female"; "Male"; "Female"; "Male";
              "Female"; "Male"; "Female"; "Male"; "Female"] "") /\
      ((nth i cs 0 < nth j cs 0)%Z <->
       String.ltb
         (nth i ["Male"; "Female"; "Male"; "Female"; "Male";
                 "Female"; "Male"; "Female"; "Male"; "Female"] "")
         (nth j ["Male"; "Female"; "Male"; "Female"; "Male";
                 "Female"; "Male"; "Female"; "Male"; "Female"] "") = true) /\
      (0 <= nth i cs 0 <
       Z.of_nat (length (nodup string_dec
                           ["Male"; "Female"; "Male"; "Female"; "Male";
                            "Female"; "Male"; "Female"; "Male"; "Female"])))%Z.
Proof.
  assert (E : exists d, encode_categorical categorical_columns sample_table
                        = Ok d) by (eexists; run_cells).
  destruct E as (d & E). exists d.
  destruct (label_codes_follow_label_order sample_table d "Gender" _ E
              ltac:(now left) eq_refl) as (cs & H).
  exists cs. split; [exact E | exact H].
Defined.

Lemma codes_binary (v : list string) (lo hi : string) :
  String.ltb lo hi = true ->
  Forall (fun x => x = hi \/ x = lo) v ->
  (In lo v ->
   codes v = map (fun x => if String.eqb x hi then 1%Z else 0%Z) v) /\
  (~ In lo v -> codes v = map (fun _ => 0%Z) v).
Proof.
  intros Hlt Hall.
  assert (Hne : hi <> lo).
  { intros ->. now rewrite string_ltb_irrefl in Hlt. }
  assert (Hb : forall x, In x v ->
            (0 <= rank string_dec String.ltb v x
             < Z.of_nat (length (nodup string_dec v)))%Z).
  { intros x Hx.
    now apply (rank_bounds string_dec String.ltb string_ltb_irrefl). }
  rewrite Forall_forall in Hall.
  split; intros Hlo; unfold codes; apply map_ext_in; intros x Hx.
  - assert (Hk : length (nodup string_dec v) <= 2).
    { change 2 with (length [hi; lo]).
      apply NoDup_incl_length; [apply NoDup_nodup |].
      intros z Hz. apply nodup_In in Hz. destruct (Hall z Hz) as [-> | ->];
        cbn; auto. }
    destruct (Hall x Hx) as [-> | ->].
    + rewrite String.eqb_refl.
      pose proof (rank_lt string_dec String.ltb string_ltb_irrefl
                    string_ltb_trans v lo hi Hlo Hlt).
      pose proof (Hb lo Hlo). pose proof (Hb hi Hx). lia.
    + assert (E : String.eqb lo hi = false).
      { apply String.eqb_neq. congruence. }
      rewrite E. destruct (in_dec string_dec hi v) as [Hhi | Hhi].
      * pose proof (rank_lt string_dec String.ltb string_ltb_irrefl
                      string_ltb_trans v lo hi Hlo Hlt).
        pose proof (Hb lo Hlo). pose proof (Hb hi Hhi). lia.
      * assert (Hk1 : length (nodup string_dec v) <= 1).
        { change 1 with (length [lo]).
          apply NoDup_incl_length; [apply NoDup_nodup |].
          intros z Hz. apply nodup_In in Hz.
          destruct (Hall z Hz) as [-> | ->]; [contradiction | now left]. }
        pose proof (Hb lo Hlo). lia.
  - assert (Hk1 : length (nodup string_dec v) <= 1).
    { change 1 with (length [hi]).
      apply NoDup_incl_length; [apply NoDup_nodup |].
      intros z Hz. apply nodup_In in Hz.
      destruct (Hall z Hz) as [-> | ->]; [now left | contradiction]. }
    pose proof (Hb x Hx). lia.
Qed.

(** X10: on a Churn column of Yes and No labels the encoder gives No the
    code 0 and Yes the code 1, so the positive class of the evaluation is
    churn; on a column without a single No, Yes is the only label and gets
    the code 0. *)
Theorem churn_code_one_is_yes (data data' : DataFrame) (v : list string) :
  encode_categorical categorical_columns data = Ok data' ->
  get_col "Churn" data = Ok (SObj v) ->
  Forall (fun x => x = "Yes" \/ x = "No") v ->
  exists cs,
    get_col "Churn" data' = Ok (SInt cs) /\
    (In "No" v ->
     cs = map (fun x => if String.eqb x "Yes" then 1%Z else 0%Z) v) /\
    (~ In "No" v -> cs = map (fun _ => 0%Z) v).
Proof.
  intros H Hv Hall.
  destruct (encode_categorical_spec _ categorical_columns_NoDup _ _ H)
    as (Hin & _ & _).
  destruct (Hin "Churn") as (s & Hs & Hc & _).
  { unfold categorical_columns. cbn. tauto. }
  rewrite Hv in Hs. injection Hs as <-.
  cbn [LabelEncoder_fit_transform] in Hc.
  eexists. split; [exact Hc |].
  apply (codes_binary v "No" "Yes" eq_refl Hall).
Qed.

Lemma churn_code_one_is_yes_witness :
  exists data' cs,
    encode_categorical categorical_columns sample_table = Ok data' /\
    get_col "Churn" data' = Ok (SInt cs) /\
    (In "No" ["Yes"; "No"; "Yes"; "No"; "Yes"; "No"; "Yes"; "No"; "Yes"; "No"]
     -> cs = map (fun x => if String.eqb x "Yes" then 1%Z else 0%Z)
               ["Yes"; "No"; "Yes"; "No"; "Yes"; "No"; "Yes"; "No"; "Yes";
                "No"]) /\
    (~ In "No" ["Yes"; "No"; "Yes"; "No"; "Yes"; "No"; "Yes"; "No"; "Yes";
                "No"] ->
     cs = map (fun _ => 0%Z)
            ["Yes"; "No"; "Yes"; "No"; "Yes"; "No"; "Yes"; "No"; "Yes"; "No"]).
Proof.
  assert (E : exists d, encode_categorical categorical_columns sample_table
                        = Ok d) by (eexists; run_cells).
  destruct E as (d & E). exists d.
  destruct (churn_code_one_is_yes sample_table d _ E eq_refl) as (cs & H).
  { repeat (constructor; [tauto |]). constructor. }
  exists cs. split; [exact E | exact H].
Defined.

Lemma encode_categorical_fixed (cols : list string) (d : DataFrame) :
  (forall c, In c cols ->
     exists s, get_col c d = Ok s /\ LabelEncoder_fit_transform s = s /\
               series_len s = nrows d) ->
  encode_categorical cols d = Ok d.
Proof.
  induction cols as [|col rest IH]; intros H; [reflexivity |].
  cbn [encode_categorical].
  destruct (H col (or_introl eq_refl)) as (s & Hs & Hfix & Hl).
  rewrite Hs. cbn [rbind]. rewrite Hfix, (set_col_same _ _ _ Hs Hl).
  cbn [rbind]. apply IH. intros c Hc. apply H. now right.
Qed.

(** X11: the encoding cell touches the seven categorical columns only, and
    running it again changes nothing: the codes of a column of codes are
    the codes themselves. *)
Theorem encoding_rerun_changes_nothing (data data' : DataFrame) :
  encode_categorical categorical_columns data = Ok data' ->
  encode_categorical categorical_columns data' = Ok data' /\
  columns data' = columns data /\ nrows data' = nrows data /\
  forall c, ~ In c categorical_columns -> get_col c data' = get_col c data.
Proof.
  intros H.
  destruct (encode_categorical_columns _ _ _ H) as [_ Hcols].
  destruct (encode_categorical_spec _ categorical_columns_NoDup _ _ H)
    as (Hin & Hout & Hn).
  split; [| split; [exact Hcols | split; [exact Hn | exact Hout]]].
  apply encode_categorical_fixed. intros c Hc.
  destruct (Hin c Hc) as (s & _ & Hc' & Hl).
  exists (LabelEncoder_fit_transform s).
  split; [exact Hc' |]. split; [apply LabelEncoder_idempotent |].
  rewrite LabelEncoder_length. congruence.
Qed.

Lemma encoding_rerun_changes_nothing_witness :
  exists data',
    encode_categorical categorical_columns sample_table = Ok data' /\
    encode_categorical categorical_columns data' = Ok data'.
Proof.
  assert (E : exists d, encode_categorical categorical_columns sample_table
                        = Ok d) by (eexists; run_cells).
  destruct E as (d & E). exists d.
  split; [exact E | exact (proj1 (encoding_rerun_changes_nothing _ _ E))].
Defined.

End EncodingFacts.

(** ** Feature scaling *)

Module ScalingFacts.
Import Pandas Sklearn Notebook.
Import PandasFacts SklearnFacts PreprocessFacts FrameFacts.

Local Open Scope R_scope.


















End ScalingFacts.

(** ** The split cells *)

Module SplittingFacts.
Import NpRandom Pandas Sklearn Notebook.
Import PandasFacts PreprocessFacts SplitFacts FrameFacts.

Lemma get_col_filter_out (p : string -> bool) (c : string) (df : DataFrame) :
  p c = false ->
  get_col c (filter (fun kv => p (fst kv)) df) = Err (KeyError c).
Proof.
  intros Hp. induction df as [|[k s] df IH]; [reflexivity |].
  cbn [filter fst]. destruct (p k) eqn:Ek; [| exact IH].
  cbn [get_col]. destruct (String.eqb_spec k c) as [-> | _]; [congruence |].
  exact IH.
Qed.

Lemma get_col_dropped (cs : list string) (df df' : DataFrame) (c : string) :
  drop cs df = Ok df' -> In c cs -> get_col c df' = Err (KeyError c).
Proof.
  unfold drop. intros H Hc. apply rbind_Ok in H. destruct H as (ss & _ & H).
  injection H as <-.
  apply (get_col_filter_out (fun k => negb (existsb (String.eqb k) cs))).
  apply negb_false_iff, existsb_exists. exists c. split; [exact Hc |].
  apply String.eqb_refl.
Qed.

Lemma columns_iloc (rows : list nat) (df : DataFrame) :
  columns (iloc rows df) = columns df.
Proof. unfold columns, iloc. rewrite map_map. reflexivity. Qed.

Lemma split_dataset_parts (rs42 : RandomState) (data : DataFrame) (s : Split) :
  split_dataset rs42 data = Ok s ->
  exists train test,
    X_train s = iloc train (X s) /\ X_test s = iloc test (X s) /\
    y_train s = map (fun i => nth i (y s) 0%Z) train /\
    y_test s = map (fun i => nth i (y s) 0%Z) test.
Proof.
  intros H. destruct (split_dataset_Ok _ _ _ H) as (_ & _ & Hs).
  destruct (train_test_split_Ok _ _ _ _ _ _ _ Hs)
    as (n_train & n_test & train & test & _ & _ & _ & Hparts).
  injection Hparts as E1 E2 E3 E4. now exists train, test.
Qed.

(** X14: the feature table of the split has neither the label column nor
    the customer identifier, keeps every other column as it was, and the
    train and test subsets have the columns of the feature table. *)
Theorem features_exclude_label_and_id (rs42 : RandomState)
    (data : DataFrame) (s : Split) :
  split_dataset rs42 data = Ok s ->
  get_col "Churn" (X s) = Err (KeyError "Churn") /\
  get_col "CustomerID" (X s) = Err (KeyError "CustomerID") /\
  get_col "Churn" (X_train s) = Err (KeyError "Churn") /\
  get_col "Churn" (X_test s) = Err (KeyError "Churn") /\
  get_col "Churn" data = Ok (SInt (y s)) /\
  (forall c, c <> "CustomerID" -> c <> "Churn" ->
     get_col c (X s) = get_col c data) /\
  columns (X_train s) = columns (X s) /\ columns (X_test s) = columns (X s).
Proof.
  intros H. destruct (split_dataset_Ok _ _ _ H) as (Hdrop & Hy & _).
  destruct (split_dataset_parts _ _ _ H) as (train & test & E1 & E2 & _).
  assert (Hc : get_col "Churn" (X s) = Err (KeyError "Churn")).
  { apply (get_col_dropped _ _ _ _ Hdrop). cbn. tauto. }
  assert (Habs : forall rows,
            get_col "Churn" (iloc rows (X s)) = Err (KeyError "Churn")).
  { intros rows. apply get_col_absent. rewrite columns_iloc.
    intros Hin. apply get_col_In in Hin. destruct Hin as [z Hz]. congruence. }
  split; [exact Hc |].
  split; [apply (get_col_dropped _ _ _ _ Hdrop); cbn; tauto |].
  split; [rewrite E1; apply Habs |]. split; [rewrite E2; apply Habs |].
  split; [exact Hy |]. split.
  - intros c H1 H2. apply (get_col_drop _ _ _ _ Hdrop).
    cbn. intros [E | [E | []]]; congruence.
  - rewrite E1, E2, !columns_iloc. now split.
Qed.

(** The split of [churn_table] returns. *)
Lemma split_churn_table : exists s, split_dataset zeros churn_table = Ok s.
Proof.
  destruct (stratified_split_total
              [("Tenure", SInt (repeat 12%Z n_records))]
              (repeat 1%Z 1000 ++ repeat 0%Z 4000) zeros 4000 1000)
    as (train & test & Hs & _).
  - reflexivity.
  - reflexivity.
  - intros c Hc. apply in_app_or in Hc.
    rewrite count_occ_app.
    destruct Hc as [Hc | Hc]; apply repeat_spec in Hc; subst c.
    + rewrite (count_occ_repeat_eq Z.eq_dec 1000 (eq_refl 1%Z)). lia.
    + rewrite (count_occ_repeat_eq Z.eq_dec 4000 (eq_refl 0%Z)). lia.
  - vm_compute. lia.
  - vm_compute. lia.
  - eexists. unfold split_dataset, churn_table.
    cbn [drop get_cols get_col String.eqb Ascii.eqb Bool.eqb rbind filter
         existsb negb fst orb].
    rewrite Hs. cbn [rbind]. reflexivity.
Qed.

Lemma features_exclude_label_and_id_witness :
  exists s,
    split_dataset zeros churn_table = Ok s /\
    get_col "Churn" (X s) = Err (KeyError "Churn") /\
    get_col "CustomerID" (X s) = Err (KeyError "CustomerID").
Proof.
  destruct split_churn_table as (s & E). exists s.
  destruct (features_exclude_label_and_id zeros churn_table s E)
    as (H1 & H2 & _).
  split; [exact E | split; assumption].
Defined.

Lemma validate_small (n : nat) :
  n <= 1 ->
  validate_shuffle_split n 1 5 =
  Err (ValueError "the resulting train set will be empty").
Proof.
  intros H. destruct n as [|[|n]]; [reflexivity | reflexivity | lia].
Qed.

Lemma validate_large (n : nat) :
  2 <= n ->
  validate_shuffle_split n 1 5 = Ok (n - (n + 4) / 5, (n + 4) / 5).
Proof.
  intros H. unfold validate_shuffle_split.
  replace (1 * n + 5 - 1) with (n + 4) by lia.
  assert (Hq : (n + 4) / 5 < n) by (apply Nat.Div0.div_lt_upper_bound; lia).
  destruct (Nat.eqb_spec (n - (n + 4) / 5) 0) as [E | _]; [lia | reflexivity].
Qed.

(** X15: the split cell raises instead of returning a degenerate split: on
    a table of fewer than two rows the train subset would be empty, and a
    label carried by a single row cannot be stratified. *)
Theorem split_rejects_degenerate_labels (rs42 : RandomState)
    (data X0 : DataFrame) (y0 : list Z) :
  drop ["CustomerID"; "Churn"] data = Ok X0 ->
  get_col "Churn" data = Ok (SInt y0) ->
  nrows X0 = length y0 ->
  (length y0 <= 1 ->
   split_dataset rs42 data =
   Err (ValueError "the resulting train set will be empty")) /\
  (forall c, 2 <= length y0 -> count_occ Z.eq_dec y0 c = 1 ->
   split_dataset rs42 data =
   Err (ValueError "The least populated class in y has only 1 member")).
Proof.
  intros Hdrop Hchurn Hn.
  assert (Hsplit : split_dataset rs42 data =
            (parts <- train_test_split X0 y0 1 5 rs42 true ;;
             let '(X_train, X_test, y_train, y_test) := parts in
             Ok (mkSplit X0 y0 X_train X_test y_train y_test))%res).
  { unfold split_dataset. rewrite Hdrop, Hchurn. reflexivity. }
  rewrite Hsplit. unfold train_test_split. rewrite Hn, Nat.eqb_refl.
  cbn [negb]. split.
  - intros Hle. now rewrite (validate_small _ Hle).
  - intros c Hge Hone. rewrite (validate_large _ Hge). cbn [rbind].
    unfold StratifiedShuffleSplit.
    assert (E : existsb (fun k => k <? 2)
                  (map (@length nat) (map (rows_of_class y0) (unique y0)))
                = true).
    { apply existsb_exists. exists 1. split; [| reflexivity].
      rewrite class_counts_eq. apply in_map_iff. exists c.
      split; [exact Hone |]. apply unique_In.
      apply (count_occ_In Z.eq_dec). lia. }
    rewrite E. reflexivity.
Qed.

Lemma split_rejects_degenerate_labels_witness :
  split_dataset zeros
    [("CustomerID", SInt [1; 2; 3]%Z); ("Tenure", SInt [5; 6; 7]%Z);
     ("Churn", SInt [0; 0; 1]%Z)] =
  Err (ValueError "The least populated class in y has only 1 member").
Proof.
  apply (split_rejects_degenerate_labels zeros
           [("CustomerID", SInt [1; 2; 3]%Z); ("Tenure", SInt [5; 6; 7]%Z);
            ("Churn", SInt [0; 0; 1]%Z)]
           [("Tenure", SInt [5; 6; 7]%Z)] [0; 0; 1]%Z
           eq_refl eq_refl eq_refl) with (c := 1%Z).
  - cbn [length]. lia.
  - reflexivity.
Defined.

Lemma split_lengths (X0 : DataFrame) (y0 : list Z) (rs : RandomState)
    (stratify : bool) (parts : DataFrame * DataFrame * list Z * list Z) :
  train_test_split X0 y0 1 5 rs stratify = Ok parts ->
  nrows X0 = length y0 /\ 2 <= length y0 /\
  length (snd (fst parts)) = length y0 - (length y0 + 4) / 5 /\
  length (snd parts) = (length y0 + 4) / 5.
Proof.
  intros H.
  destruct (train_test_split_Ok _ _ _ _ _ _ _ H)
    as (n_train & n_test & train & test & Hn & Hv & Hss & ->).
  cbn [fst snd]. rewrite !length_map.
  assert (Hge : 2 <= length y0).
  { destruct (Nat.le_gt_cases 2 (length y0)) as [Hge | Hlt]; [exact Hge |].
    rewrite validate_small in Hv by lia. discriminate. }
  pose proof (validate_shuffle_split_Ok _ _ _ Hv) as (Hsum & Htr & Hte).
  rewrite (validate_large _ Hge) in Hv. injection Hv as <- <-.
  split; [exact Hn |]. split; [exact Hge |].
  destruct stratify.
  - destruct (StratifiedShuffleSplit_Ok_checks _ _ _ _ _ Hss)
      as (Htwo & Hc1 & Hc2).
    destruct (StratifiedShuffleSplit_succeeds y0 _ _ Hsum Htr Hte Htwo Hc1 Hc2
                rs) as (tt & rs' & E & _ & L1 & L2 & _).
    rewrite E in Hss. cbn [fst] in Hss. injection Hss as ->.
    cbn [fst snd] in L1, L2. now split.
  - destruct (ShuffleSplit_Ok _ _ _ _ _ _ Hss Hsum) as (_ & L1 & L2).
    now split.
Qed.

(** X16: the tuning split cuts whatever the resampler returned into a test
    subset of a fifth of the rows, rounded up, and a train subset of the
    rest; the resampled features and labels must have as many rows. *)
Theorem tuning_split_sizes (smote : Resampler) (rs42 : RandomState)
    (s : Split) (t : Tuning) :
  address_class_imbalance smote rs42 s = Ok t ->
  nrows (X_resampled t) = length (y_resampled t) /\
  2 <= length (y_resampled t) /\
  length (y_test_smote t) = (length (y_resampled t) + 4) / 5 /\
  length (y_train_smote t) =
    length (y_resampled t) - (length (y_resampled t) + 4) / 5 /\
  length (y_train_smote t) + length (y_test_smote t) =
    length (y_resampled t).
Proof.
  unfold address_class_imbalance. intros H.
  apply rbind_Ok in H. destruct H as ([Xr yr] & _ & H).
  apply rbind_Ok in H. destruct H as ([[[Xtr Xte] ytr] yte] & Hts & H).
  injection H as <-.
  cbn [X_resampled y_resampled y_train_smote y_test_smote].
  destruct (split_lengths _ _ _ _ _ Hts) as (Hn & Hge & L1 & L2).
  cbn [fst snd] in L1, L2.
  assert (Hq : (length yr + 4) / 5 < length yr)
    by (apply Nat.Div0.div_lt_upper_bound; lia).
  repeat split; try assumption. lia.
Qed.

Lemma tuning_split_sizes_witness :
  exists t,
    address_class_imbalance no_resampling zeros
      (mkSplit [("Tenure", SInt [5; 6; 7]%Z)] [0; 0; 1]%Z [] [] [] []) = Ok t /\
    length (y_test_smote t) = 1 /\ length (y_train_smote t) = 2.
Proof.
  assert (E : exists t,
            address_class_imbalance no_resampling zeros
              (mkSplit [("Tenure", SInt [5; 6; 7]%Z)] [0; 0; 1]%Z [] [] [] [])
            = Ok t) by (eexists; vm_compute; reflexivity).
  destruct E as (t & E). exists t.
  destruct (tuning_split_sizes _ _ _ _ E) as (H1 & _ & H3 & H4 & _).
  assert (Ey : y_resampled t = [0; 0; 1]%Z).
  { unfold address_class_imbalance, no_resampling in E. cbn [rbind X y] in E.
    apply rbind_Ok in E. destruct E as ([[[Xtr Xte] ytr] yte] & _ & E).
    now injection E as <-. }
  rewrite Ey in H3, H4. split; [exact E | split; assumption].
Defined.

End SplittingFacts.

(** ** Feature engineering *)

Module EngineeringFacts.
Import NpRandom Pandas Sklearn Notebook.
Import PandasFacts PreprocessFacts FrameFacts.

Lemma columns_replace_new (c : string) (s : Series) (df : DataFrame) :
  ~ In c (columns df) -> columns (replace_col c s df) = columns df ++ [c].
Proof.
  induction df as [|[k s0] df IH]; intros Hc; [reflexivity |].
  cbn [replace_col]. destruct (String.eqb_spec k c) as [-> | Hne].
  - exfalso. apply Hc. now left.
  - cbn [columns map fst app]. f_equal. apply IH.
    intros Hin. apply Hc. now right.
Qed.

Lemma add_ratio_Ok (X0 X' : DataFrame) :
  add_monthly_to_tenure_ratio X0 = Ok X' ->
  exists ms ts r,
    get_col "MonthlyCharges" X0 = Ok ms /\ get_col "Tenure" X0 = Ok ts /\
    series_div ms (where_eq0 ts) = Ok r /\
    X' = replace_col "monthly_to_tenure_ratio" r X0 /\
    series_len r = nrows X0 /\ nrows X' = nrows X0.
Proof.
  unfold add_monthly_to_tenure_ratio. intros H.
  apply rbind_Ok in H. destruct H as (ms & Hm & H).
  apply rbind_Ok in H. destruct H as (ts & Ht & H).
  apply rbind_Ok in H. destruct H as (r & Hr & H).
  destruct (set_col_inv _ _ _ _ H (get_col_nonempty _ _ _ Hm))
    as (E & Hl & Hn).
  exists ms, ts, r. repeat split; assumption.
Qed.

Lemma add_ratio_frame (X0 X' : DataFrame) :
  add_monthly_to_tenure_ratio X0 = Ok X' ->
  add_monthly_to_tenure_ratio X' = Ok X' /\
  nrows X' = nrows X0 /\
  (forall c, c <> "monthly_to_tenure_ratio" -> get_col c X' = get_col c X0) /\
  (~ In "monthly_to_tenure_ratio" (columns X0) ->
   columns X' = columns X0 ++ ["monthly_to_tenure_ratio"]) /\
  (In "monthly_to_tenure_ratio" (columns X0) -> columns X' = columns X0).
Proof.
  intros H.
  destruct (add_ratio_Ok _ _ H) as (ms & ts & r & Hm & Ht & Hr & E & Hl & Hn).
  assert (Hother : forall c, c <> "monthly_to_tenure_ratio" ->
            get_col c X' = get_col c X0).
  { intros c Hc. rewrite E. apply get_col_replace_other. congruence. }
  split; [| split; [exact Hn | split; [exact Hother | split]]].
  - unfold add_monthly_to_tenure_ratio.
    rewrite (Hother "MonthlyCharges"), (Hother "Tenure"), Hm, Ht
      by discriminate.
    cbn [rbind]. rewrite Hr. cbn [rbind].
    apply set_col_same; [rewrite E; apply get_col_replace_same | congruence].
  - intros Hc. rewrite E. now apply columns_replace_new.
  - intros Hc. rewrite E. now apply columns_replace_existing.
Qed.

(** X17: the feature-engineering cell adds one column to the train and to
    the test subset and leaves everything else as it was: the other
    columns, the row counts, the full feature table and the labels.
    Running the cell again changes nothing. *)
Theorem feature_engineering_adds_one_column (s s' : Split) :
  feature_engineering s = Ok s' ->
  feature_engineering s' = Ok s' /\
  X s' = X s /\ y s' = y s /\ y_train s' = y_train s /\ y_test s' = y_test s /\
  nrows (X_train s') = nrows (X_train s) /\
  nrows (X_test s') = nrows (X_test s) /\
  (forall c, c <> "monthly_to_tenure_ratio" ->
     get_col c (X_train s') = get_col c (X_train s) /\
     get_col c (X_test s') = get_col c (X_test s)) /\
  (~ In "monthly_to_tenure_ratio" (columns (X_train s)) ->
   columns (X_train s') =
   columns (X_train s) ++ ["monthly_to_tenure_ratio"]) /\
  (~ In "monthly_to_tenure_ratio" (columns (X_test s)) ->
   columns (X_test s') = columns (X_test s) ++ ["monthly_to_tenure_ratio"]).
Proof.
  unfold feature_engineering at 1. intros H.
  apply rbind_Ok in H. destruct H as (X1 & H1 & H).
  apply rbind_Ok in H. destruct H as (X2 & H2 & H).
  injection H as <-. cbn [X y X_train X_test y_train y_test].
  destruct (add_ratio_frame _ _ H1) as (F1 & N1 & O1 & C1 & _).
  destruct (add_ratio_frame _ _ H2) as (F2 & N2 & O2 & C2 & _).
  split.
  { unfold feature_engineering. cbn [X y X_train X_test y_train y_test].
    now rewrite F1, F2. }
  do 4 (split; [reflexivity |]).
  split; [exact N1 |]. split; [exact N2 |].
  split; [intros c Hc; split; [now apply O1 | now apply O2] |].
  split; assumption.
Qed.

Lemma feature_engineering_adds_one_column_witness :
  exists s',
    feature_engineering
      (mkSplit [] []
         [("MonthlyCharges", SFloat [Some 2%R; Some 3%R]);
          ("Tenure", SFloat [Some 0%R; Some 4%R])]
         [("MonthlyCharges", SFloat [Some 5%R]);
          ("Tenure", SInt [0%Z])]
         [0%Z; 1%Z] [1%Z]) = Ok s' /\
    feature_engineering s' = Ok s' /\
    columns (X_train s') =
      ["MonthlyCharges"; "Tenure"; "monthly_to_tenure_ratio"].
Proof.
  assert (E : exists s',
            feature_engineering
              (mkSplit [] []
                 [("MonthlyCharges", SFloat [Some 2%R; Some 3%R]);
                  ("Tenure", SFloat [Some 0%R; Some 4%R])]
                 [("MonthlyCharges", SFloat [Some 5%R]);
                  ("Tenure", SInt [0%Z])]
                 [0%Z; 1%Z] [1%Z]) = Ok s')
    by (eexists; reflexivity).
  destruct E as (s' & E). exists s'.
  destruct (feature_engineering_adds_one_column _ _ E)
    as (H1 & _ & _ & _ & _ & _ & _ & _ & H9 & _).
  split; [exact E |]. split; [exact H1 |].
  apply H9. cbn. intuition discriminate.
Defined.

Lemma guarded_ratio_null (m t : option R) :
  guarded_ratio m t = None <-> m = None \/ t = None.
Proof.
  unfold guarded_ratio, guardR, fdiv.
  destruct m as [x|], t as [u|]; try tauto.
  destruct (Req_dec_T u 0) as [-> | Hu].
  - destruct (Req_dec_T 1 0); [lra |]. split; [discriminate |].
    intros [H | H]; discriminate.
  - destruct (Req_dec_T u 0); [contradiction |]. split; [discriminate |].
    intros [H | H]; discriminate.
Qed.

Lemma guarded_ratio_value (x u : R) :
  guarded_ratio (Some x) (Some u) =
  Some (x / (if Req_dec_T u 0 then 1 else u))%R.
Proof.
  unfold guarded_ratio, guardR, fdiv.
  destruct (Req_dec_T u 0) as [-> | Hu].
  - destruct (Req_dec_T 1 0); [lra | reflexivity].
  - destruct (Req_dec_T u 0); [contradiction | reflexivity].
Qed.

(** X18: the ratio column never gains a missing entry of its own: the
    guarded divisor is never 0, so a row has no ratio only when its
    MonthlyCharges or its Tenure is missing, and otherwise the ratio is the
    quotient by the tenure, or by 1 for a tenure of 0. *)
Theorem ratio_missing_only_from_missing_input (X0 X' : DataFrame) :
  add_monthly_to_tenure_ratio X0 = Ok X' ->
  exists ms ts monthly tenure ratio,
    get_col "MonthlyCharges" X0 = Ok ms /\ to_float ms = Ok monthly /\
    get_col "Tenure" X0 = Ok ts /\ to_float ts = Ok tenure /\
    get_col "monthly_to_tenure_ratio" X' = Ok (SFloat ratio) /\
    length ratio = nrows X0 /\ length monthly = nrows X0 /\
    length tenure = nrows X0 /\
    forall i, i < nrows X0 ->
      (nth i ratio None = None <->
       nth i monthly None = None \/ nth i tenure None = None) /\
      (forall x u, nth i monthly None = Some x -> nth i tenure None = Some u ->
         nth i ratio None = Some (x / (if Req_dec_T u 0 then 1 else u))%R).
Proof.
  intros H.
  destruct (add_ratio_spec _ _ H)
    as (ms & ts & monthly & tenure & ratio & Hm & Hfm & Ht & Hft & Hr & Hl & Hv).
  destruct (add_ratio_Ok _ _ H)
    as (ms' & ts' & r & Hm' & Ht' & Hdiv & E & Hlr & _).
  rewrite Hm in Hm'. injection Hm' as <-. rewrite Ht in Ht'.
  injection Ht' as <-.
  assert (Er : r = SFloat ratio).
  { rewrite E, get_col_replace_same in Hr. now injection Hr. }
  subst r. cbn [series_len] in Hlr.
  destruct (series_div_Ok _ _ _ Hdiv) as (a & b & Ha & Hb & Hab & _).
  rewrite Hfm in Ha. injection Ha as <-.
  destruct (to_float_where_eq0 _ _ Hb) as (tenure' & Ht2 & ->).
  rewrite Hft in Ht2. injection Ht2 as <-. rewrite length_map in Hab.
  exists ms, ts, monthly, tenure, ratio.
  do 5 (split; [assumption |]).
  split; [exact Hlr |]. split; [congruence |]. split; [congruence |].
  intros i Hi. destruct (Hv i ltac:(congruence)) as [Hi1 _].
  rewrite Hi1. split; [apply guarded_ratio_null |].
  intros x u -> ->. apply guarded_ratio_value.
Qed.

Lemma ratio_missing_only_from_missing_input_witness :
  exists X' ratio,
    add_monthly_to_tenure_ratio
      [("MonthlyCharges", SFloat [Some 2%R; None; Some 3%R]);
       ("Tenure", SFloat [Some 0%R; Some 4%R; Some 5%R])] = Ok X' /\
    get_col "monthly_to_tenure_ratio" X' = Ok (SFloat ratio) /\
    length ratio = 3.
Proof.
  assert (E : exists X',
            add_monthly_to_tenure_ratio
              [("MonthlyCharges", SFloat [Some 2%R; None; Some 3%R]);
               ("Tenure", SFloat [Some 0%R; Some 4%R; Some 5%R])] = Ok X')
    by (eexists; reflexivity).
  destruct E as (X' & E). exists X'.
  destruct (ratio_missing_only_from_missing_input _ _ E)
    as (ms & ts & monthly & tenure & ratio & _ & _ & _ & _ & Hr & Hl & _).
  exists ratio. split; [exact E |]. split; [exact Hr | exact Hl].
Defined.

End EngineeringFacts.

(** ** Shapes along the run *)

Module RunFacts.
Import NpRandom Pandas Sklearn Notebook Inspection.
Import PandasFacts GenerationFacts SklearnFacts PreprocessFacts SplitFacts.
Import PipelineFacts DatasetFacts FrameFacts EncodingFacts SplittingFacts.
Import EngineeringFacts.

Lemma columns_feature_table (d : Draws) (missing outliers : list nat) :
  columns (feature_table d missing outliers) =
  ["Age"; "Gender"; "ContractType"; "MonthlyCharges"; "TotalCharges";
   "TechSupport"; "InternetService"; "Tenure"; "PaperlessBilling";
   "PaymentMethod"; "average_monthly_charges"; "customer_lifetime_value"].
Proof. reflexivity. Qed.

(** A run of the notebook on the all-zero random source returns. *)
Lemma run_zeros : exists data s t, run no_resampling zeros = Ok (data, s, t).
Proof.
  destruct (data_generation_spec zeros)
    as (d & missing & outliers & rs1 & rs2 & E1 & E2 & Hd & Hm & Ho).
  assert (Hchurn : churn d = repeat "Yes" n_records).
  { pose proof churn_zeros as H. rewrite E1 in H. cbn [fst] in H.
    change (get_col "Churn" (raw_table d)) with (Ok (SObj (churn d))) in H.
    now injection H. }
  assert (Hcodes : codes (churn d) = repeat 0%Z n_records)
    by (rewrite Hchurn; apply codes_repeat_Yes).
  destruct (run_total no_resampling zeros rs2 d missing outliers
              (feature_table d missing outliers) (codes (churn d)) 4000 1000
              E2 Hd Hm Ho) as (s & t & Hrun).
  - intros c Hc. rewrite Hcodes in *. apply repeat_spec in Hc. subst c.
    rewrite (count_occ_repeat_eq Z.eq_dec n_records (eq_refl 0%Z)).
    unfold n_records. lia.
  - rewrite Hcodes. vm_compute. lia.
  - reflexivity.
  - rewrite codes_length, (churn_len d Hd).
    now apply nrows_feature_table.
  - rewrite codes_length, (churn_len d Hd). exact validate_n_records.
  - now exists (final_table d missing outliers), s, t.
Qed.

(** X19: in a run the split cell shows the shapes (4000, 12) and
    (1000, 12): twelve feature columns, the identifier and the label left
    out.  Feature engineering then gives the train and test subsets a
    thirteenth column, while the full feature table, which the resampler
    and so the tuned models receive, stays without it. *)
Theorem run_shapes (smote : Resampler) (rs42 : RandomState)
    (data : DataFrame) (s : Split) (t : Tuning) :
  run smote rs42 = Ok (data, s, t) ->
  exists s0,
    preprocess rs42 data = Ok s0 /\ feature_engineering s0 = Ok s /\
    shape (X s0) = (n_records, 12) /\
    shape (X_train s0) = (4000, 12) /\ shape (X_test s0) = (1000, 12) /\
    columns (X s0) =
      ["Age"; "Gender"; "ContractType"; "MonthlyCharges"; "TotalCharges";
       "TechSupport"; "InternetService"; "Tenure"; "PaperlessBilling";
       "PaymentMethod"; "average_monthly_charges";
       "customer_lifetime_value"] /\
    shape (X_train s) = (4000, 13) /\ shape (X_test s) = (1000, 13) /\
    columns (X_train s) = columns (X s0) ++ ["monthly_to_tenure_ratio"] /\
    columns (X_test s) = columns (X s0) ++ ["monthly_to_tenure_ratio"] /\
    X s = X s0 /\
    get_col "monthly_to_tenure_ratio" (X s) =
      Err (KeyError "monthly_to_tenure_ratio") /\
    smote (X s) (y s) = Ok (X_resampled t, y_resampled t).
Proof.
  unfold run. intros H.
  destruct (data_generation_spec rs42)
    as (d & missing & outliers & rs1 & rs2 & _ & E & Hd & Hm & Ho).
  rewrite E in H. cbn [fst rbind] in H.
  apply rbind_Ok in H. destruct H as (s0 & Hpre & H).
  apply rbind_Ok in H. destruct H as (s1 & Hfe & H).
  apply rbind_Ok in H. destruct H as (t1 & Htune & H).
  injection H as <- <- <-.
  exists s0. split; [exact Hpre |]. split; [exact Hfe |].
  rewrite (preprocess_final d missing outliers Hd Hm) in Hpre.
  destruct (split_dataset_Ok _ _ _ Hpre) as (HX & Hy & Hsplit).
  rewrite (drop_scaled d missing outliers) in HX. injection HX as HX.
  rewrite (churn_scaled d missing outliers) in Hy. injection Hy as Hy.
  assert (Leny : length (y s0) = n_records)
    by now rewrite <- Hy, codes_length, (churn_len d Hd).
  destruct (stratified_split_Ok_lengths _ _ _ _ Hsplit Leny) as [Ltr Lte].
  cbn [fst snd] in Ltr, Lte.
  destruct (split_dataset_parts _ _ _ Hpre)
    as (train & test & E1 & E2 & E3 & E4).
  rewrite E3, length_map in Ltr. rewrite E4, length_map in Lte.
  assert (Hcols : columns (X s0) =
            ["Age"; "Gender"; "ContractType"; "MonthlyCharges";
             "TotalCharges"; "TechSupport"; "InternetService"; "Tenure";
             "PaperlessBilling"; "PaymentMethod"; "average_monthly_charges";
             "customer_lifetime_value"])
    by (rewrite <- HX; apply columns_feature_table).
  assert (Hne : X s0 <> []) by (rewrite <- HX; discriminate).
  assert (Htr : shape (X_train s0) = (4000, 12)).
  { unfold shape. rewrite E1, columns_iloc, Hcols, (nrows_iloc _ _ Hne), Ltr.
    reflexivity. }
  assert (Hte : shape (X_test s0) = (1000, 12)).
  { unfold shape. rewrite E2, columns_iloc, Hcols, (nrows_iloc _ _ Hne), Lte.
    reflexivity. }
  destruct (feature_engineering_Ok _ _ Hfe) as (EX & Ey & _ & _).
  unfold feature_engineering in Hfe.
  apply rbind_Ok in Hfe. destruct Hfe as (X1 & H1 & Hfe).
  apply rbind_Ok in Hfe. destruct Hfe as (X2 & H2 & Hfe).
  injection Hfe as <-. cbn [X y X_train X_test] in *.
  destruct (add_ratio_frame _ _ H1) as (_ & N1 & _ & C1 & _).
  destruct (add_ratio_frame _ _ H2) as (_ & N2 & _ & C2 & _).
  assert (Hnin : ~ In "monthly_to_tenure_ratio" (columns (X s0))).
  { rewrite Hcols. cbn. intuition discriminate. }
  rewrite E1, columns_iloc in C1. rewrite E2, columns_iloc in C2.
  specialize (C1 Hnin). specialize (C2 Hnin).
  injection Htr as Htr _. injection Hte as Hte _.
  split.
  { unfold shape. rewrite <- HX, nrows_feature_table by assumption.
    reflexivity. }
  split; [unfold shape; now rewrite Htr, E1, columns_iloc, Hcols |].
  split; [unfold shape; now rewrite Hte, E2, columns_iloc, Hcols |].
  split; [exact Hcols |].
  split; [unfold shape; rewrite N1, Htr, C1, Hcols; reflexivity |].
  split; [unfold shape; rewrite N2, Hte, C2, Hcols; reflexivity |].
  split; [exact C1 |]. split; [exact C2 |]. split; [reflexivity |].
  split.
  - now apply get_col_absent.
  - unfold address_class_imbalance in Htune. cbn [X y] in Htune.
    apply rbind_Ok in Htune. destruct Htune as ([Xr yr] & Hsm & Htune).
    apply rbind_Ok in Htune.
    destruct Htune as ([[[Xtr Xte] ytr] yte] & _ & Htune).
    injection Htune as <-. exact Hsm.
Qed.

Lemma run_shapes_witness :
  exists data s t,
    run no_resampling zeros = Ok (data, s, t) /\
    shape (X_train s) = (4000, 13) /\ shape (X_test s) = (1000, 13) /\
    get_col "monthly_to_tenure_ratio" (X s) =
      Err (KeyError "monthly_to_tenure_ratio").
Proof.
  destruct run_zeros as (data & s & t & E). exists data, s, t.
  destruct (run_shapes _ _ _ _ _ E)
    as (s0 & _ & _ & _ & _ & _ & _ & H1 & H2 & _ & _ & _ & H3 & _).
  split; [exact E |]. split; [exact H1 |]. split; [exact H2 | exact H3].
Defined.

(** X20: the correlation matrix of the exploration stage is computed over
    seven columns of the persisted table: the six numeric features and the
    customer identifier; no categorical column and not the label. *)
Theorem correlation_covers_numeric_columns (rs : RandomState) :
  exists data rs',
    data_generation rs = (Ok data, rs') /\
    columns (select_dtypes_number data) =
      ["CustomerID"; "Age"; "MonthlyCharges"; "TotalCharges"; "Tenure";
       "average_monthly_charges"; "customer_lifetime_value"] /\
    forall c s, get_col c (select_dtypes_number data) = Ok s ->
      get_col c data = Ok s /\ series_len s = n_records /\ is_number s = true.
Proof.
  destruct (data_generation_spec rs)
    as (d & missing & outliers & rs1 & rs2 & _ & E & Hd & _ & _).
  exists (final_table d missing outliers), rs2.
  split; [exact E |]. split; [reflexivity |].
  intros c s H.
  pose proof (total_len d Hd) as Lt. pose proof (tenure_len d Hd) as Ln.
  pose proof (monthly_len d Hd) as Lc. pose proof (age_len d Hd) as La.
  unfold select_dtypes_number, final_table in H.
  cbn [filter snd is_number get_col] in H.
  unfold final_table. cbn [get_col].
  repeat match type of H with
  | (if String.eqb ?k c then _ else _) = _ =>
      destruct (String.eqb_spec k c) as [<- | _];
      [ cbn [String.eqb Ascii.eqb Bool.eqb andb];
        injection H as <-; split; [reflexivity |]; split; [| reflexivity];
        cbn [series_len];
        rewrite ?at_positions_length, ?float_values_length, ?arange_length,
          ?avg_length, ?clv_length; first [ reflexivity | assumption ]
      | ]
  end.
  discriminate.
Qed.

Lemma Rsum_bounds (a b : R) (l : list R) :
  Forall (fun x => (a <= x <= b)%R) l ->
  (INR (length l) * a <= Rsum l <= INR (length l) * b)%R.
Proof.
  induction 1 as [|x l Hx _ IH].
  - cbn. lra.
  - change (Rsum (x :: l)) with (x + Rsum l)%R.
    change (length (x :: l)) with (S (length l)). rewrite S_INR. lra.
Qed.

Lemma mean_bounds (a b : R) (l : list R) :
  l <> [] -> Forall (fun x => (a <= x <= b)%R) l -> (a <= mean l <= b)%R.
Proof.
  intros Hne Hall. pose proof (Rsum_bounds a b l Hall) as [H1 H2].
  pose proof (INR_length_pos l Hne) as Hn. unfold mean, Rdiv. split.
  - apply (Rmult_le_reg_r (INR (length l))); [exact Hn |].
    rewrite Rmult_assoc, Rinv_l by lra. lra.
  - apply (Rmult_le_reg_r (INR (length l))); [exact Hn |].
    rewrite Rmult_assoc, Rinv_l by lra. lra.
Qed.

Lemma non_null_Forall (P : R -> Prop) (v : list (option R)) :
  Forall (fun o => match o with Some x => P x | None => True end) v ->
  Forall P (non_null v).
Proof.
  induction 1 as [|[x|] v Hx _ IH]; [constructor | | exact IH].
  now constructor.
Qed.

(** X21: after the imputation cell every row of the generated table has a
    TotalCharges between 100 and 8000: the observed values were drawn in
    that range and the mean that fills the gaps lies in it too. *)
Theorem imputed_total_within_range (rs : RandomState) :
  exists data rs' data' total,
    data_generation rs = (Ok data, rs') /\
    handle_missing_values data = Ok data' /\
    get_col "TotalCharges" data' = Ok (SFloat total) /\
    length total = n_records /\
    forall i, i < n_records ->
      exists x, nth i total None = Some x /\ (100 <= x <= 8000)%R.
Proof.
  destruct (data_generation_spec rs)
    as (d & missing & outliers & rs1 & rs2 & _ & E & Hd & Hm & _).
  pose proof (total_len d Hd) as Lt.
  pose proof (total_range d Hd) as Rt.
  pose proof (handle_missing_values_final d missing outliers Hd Hm) as Eh.
  pose proof (imputed_total_length d missing Hd) as Li.
  pose proof (total_observed d missing Hd Hm) as Hobs.
  clear Hd Hm.
  exists (final_table d missing outliers), rs2.
  eexists. exists (imputed_total d missing).
  split; [exact E |]. split; [exact Eh |].
  split; [apply get_col_replace_same |]. split; [exact Li |].
  set (v := at_positions missing (fun _ => None) (float_values (total d)))
    in *.
  assert (Lv : length v = n_records).
  { unfold v. rewrite at_positions_length, float_values_length. exact Lt. }
  assert (Hv : forall i, i < n_records ->
            match nth i v None with
            | Some x => (100 <= x <= 8000)%R
            | None => True
            end).
  { intros i Hi. unfold v.
    rewrite nth_at_positions
      by (rewrite float_values_length, Lt; exact Hi).
    rewrite nth_float_values by (rewrite Lt; exact Hi).
    destruct (existsb (Nat.eqb i) missing); [exact I |].
    assert (Hr : (10000 <= nth i (total d) 0 <= 800000)%Z).
    { rewrite Forall_forall in Rt. apply Rt, nth_In. rewrite Lt. exact Hi. }
    destruct Hr as [Hlo Hhi]. apply IZR_le in Hlo, Hhi. lra. }
  assert (Hall : Forall (fun x => (100 <= x <= 8000)%R) (non_null v)).
  { apply non_null_Forall. apply Forall_forall. intros o Ho'.
    destruct (In_nth _ _ None Ho') as (i & Hi & <-). apply Hv.
    rewrite <- Lv. exact Hi. }
  pose proof (mean_bounds 100 8000 (non_null v) Hobs Hall) as Hmean.
  intros i Hi. unfold imputed_total. fold v.
  rewrite (nth_map_lt (fill (mean (non_null v))) v i None None)
    by (rewrite Lv; exact Hi).
  specialize (Hv i Hi). destruct (nth i v None) as [x|]; cbn [fill].
  - exists x. split; [reflexivity | exact Hv].
  - eexists. split; [reflexivity | exact Hmean].
Qed.



End RunFacts.

(** ** Evaluation metrics *)

Module MetricsFacts.
Import Pandas Sklearn Metrics PandasFacts SplitFacts.

Lemma count_pairs_nil_l yp t p : count_pairs [] yp t p = 0.
Proof. reflexivity. Qed.

Lemma count_pairs_cons (a b : Z) (yt yp : list Z) (t p : Z) :
  count_pairs (a :: yt) (b :: yp) t p =
  (if (a =? t)%Z && (b =? p)%Z then 1 else 0) + count_pairs yt yp t p.
Proof.
  unfold count_pairs. cbn [combine filter fst snd].
  now destruct ((a =? t)%Z && (b =? p)%Z).
Qed.

Lemma sum_indicator_eqb (cs : list Z) (x : Z) :
  NoDup cs -> In x cs ->
  sum_nat (map (fun c => if (x =? c)%Z then 1 else 0) cs) = 1.
Proof.
  intros Hnd Hin.
  rewrite (map_ext _ (fun c => if Z.eq_dec x c then 1 else 0)).
  - now apply sum_indicator_Z.
  - intros c. destruct (Z.eqb_spec x c), (Z.eq_dec x c);
      first [reflexivity | contradiction].
Qed.

Lemma sum_zero_map {A} (l : list A) : sum_nat (map (fun _ => 0) l) = 0.
Proof. induction l; [reflexivity | exact IHl]. Qed.

(** Row sum: over labels covering the predictions, the counts of one true
    label add up to its number of rows. *)
Lemma row_sum (yt yp labels : list Z) (t : Z) :
  length yt = length yp -> NoDup labels -> (forall x, In x yp -> In x labels) ->
  sum_nat (map (count_pairs yt yp t) labels) = count_occ Z.eq_dec yt t.
Proof.
  intros Hlen Hnd. revert yp Hlen.
  induction yt as [|a yt IH]; intros [|b yp] Hlen Hcov; try discriminate.
  - cbn [count_occ]. apply sum_zero_map.
  - injection Hlen as Hlen.
    rewrite (map_ext _ (fun p => (if (a =? t)%Z && (b =? p)%Z then 1 else 0)
                                 + count_pairs yt yp t p))
      by (intros p; apply count_pairs_cons).
    rewrite sum_nat_map_add, IH; [| exact Hlen | intros x Hx; apply Hcov; now right].
    cbn [count_occ]. destruct (Z.eq_dec a t) as [-> | Hne].
    + rewrite Z.eqb_refl. cbn [andb].
      rewrite sum_indicator_eqb; [reflexivity | exact Hnd | apply Hcov; now left].
    + apply Z.eqb_neq in Hne. rewrite Hne. cbn [andb].
      now rewrite sum_zero_map.
Qed.

Lemma col_sum (yt yp labels : list Z) (p : Z) :
  length yt = length yp -> NoDup labels -> (forall x, In x yt -> In x labels) ->
  sum_nat (map (fun t => count_pairs yt yp t p) labels) = count_occ Z.eq_dec yp p.
Proof.
  intros Hlen Hnd. revert yp Hlen.
  induction yt as [|a yt IH]; intros [|b yp] Hlen Hcov; try discriminate.
  - cbn [count_occ]. apply sum_zero_map.
  - injection Hlen as Hlen.
    rewrite (map_ext _ (fun t => (if (a =? t)%Z && (b =? p)%Z then 1 else 0)
                                 + count_pairs yt yp t p))
      by (intros t; apply count_pairs_cons).
    rewrite sum_nat_map_add, IH; [| exact Hlen | intros x Hx; apply Hcov; now right].
    cbn [count_occ]. destruct (Z.eq_dec b p) as [-> | Hne].
    + rewrite Z.eqb_refl.
      rewrite (map_ext _ (fun t => if (a =? t)%Z then 1 else 0))
        by (intros t; now rewrite andb_true_r).
      rewrite sum_indicator_eqb; [reflexivity | exact Hnd | apply Hcov; now left].
    + apply Z.eqb_neq in Hne. rewrite Hne.
      rewrite (map_ext _ (fun _ => 0)) by (intros t; now rewrite andb_false_r).
      now rewrite sum_zero_map.
Qed.


Lemma diag_sum (yt yp labels : list Z) :
  length yt = length yp -> NoDup labels -> (forall x, In x yt -> In x labels) ->
  sum_nat (map (fun l => count_pairs yt yp l l) labels) =
  length (filter (fun tp => (fst tp =? snd tp)%Z) (combine yt yp)).
Proof.
  intros Hlen Hnd. revert yp Hlen.
  induction yt as [|a yt IH]; intros [|b yp] Hlen Hcov; try discriminate.
  - cbn [combine filter length]. apply sum_zero_map.
  - injection Hlen as Hlen.
    rewrite (map_ext _ (fun l => (if (a =? l)%Z && (b =? l)%Z then 1 else 0)
                                 + count_pairs yt yp l l))
      by (intros l; apply count_pairs_cons).
    rewrite sum_nat_map_add, IH; [| exact Hlen | intros x Hx; apply Hcov; now right].
    cbn [combine filter fst snd]. destruct (Z.eqb_spec a b) as [-> | Hne].
    + rewrite (map_ext _ (fun l => if (b =? l)%Z then 1 else 0))
        by (intros l; now destruct (b =? l)%Z).
      rewrite sum_indicator_eqb; [reflexivity | exact Hnd | apply Hcov; now left].
    + rewrite (map_ext _ (fun _ => 0)).
      * now rewrite sum_zero_map.
      * intros l. destruct (Z.eqb_spec a l), (Z.eqb_spec b l); cbn [andb];
          congruence.
Qed.

Lemma map_nth_seq_f {A B} (f : A -> B) (l : list A) (d : A) :
  map (fun i => f (nth i l d)) (seq 0 (length l)) = map f l.
Proof.
  rewrite <- (map_map (fun i => nth i l d) f).
  now rewrite NpRandomFacts.map_nth_seq.
Qed.

Lemma trace_square {A} (f : A -> A -> nat) (labels : list A) :
  trace (map (fun t => map (f t) labels) labels) =
  sum_nat (map (fun l => f l l) labels).
Proof.
  unfold trace. rewrite length_map. f_equal.
  destruct labels as [|d labels']; [reflexivity |].
  set (labels := d :: labels').
  rewrite <- (map_nth_seq_f (fun l => f l l) labels d).
  apply map_ext_in. intros i Hi. apply in_seq in Hi.
  rewrite (nth_map_lt (fun t => map (f t) labels) labels i [] d) by lia.
  now rewrite (nth_map_lt (f (nth i labels d)) labels i 0 d) by lia.
Qed.

Lemma check_consistent_length_Ok (yt yp : list Z) :
  check_consistent_length yt yp = Ok tt <-> length yt = length yp.
Proof.
  unfold check_consistent_length.
  destruct (Nat.eqb_spec (length yt) (length yp)); split; congruence.
Qed.

Lemma confusion_matrix_Ok (yt yp : list Z) (C : list (list nat)) :
  confusion_matrix yt yp = Ok C ->
  length yt = length yp /\
  C = map (fun t => map (count_pairs yt yp t) (unique_labels yt yp))
        (unique_labels yt yp).
Proof.
  unfold confusion_matrix, check_consistent_length.
  destruct (Nat.eqb_spec (length yt) (length yp)); cbn [rbind];
    [| discriminate].
  intros E. injection E as <-. now split.
Qed.

Lemma unique_labels_cover (yt yp : list Z) :
  NoDup (unique_labels yt yp) /\
  (forall x, In x yt -> In x (unique_labels yt yp)) /\
  (forall x, In x yp -> In x (unique_labels yt yp)).
Proof.
  unfold unique_labels. split; [apply unique_NoDup |].
  split; intros x Hx; apply unique_In, in_or_app; [now left | now right].
Qed.

(** X23: the confusion matrix is square over the labels that occur, its rows
    add up to the class sizes of the true labels, its columns to those of
    the predictions, and all entries together to the number of evaluated
    rows. *)
Theorem confusion_matrix_accounts_for_every_row (y_true y_pred : list Z)
    (C : list (list nat)) :
  confusion_matrix y_true y_pred = Ok C ->
  let labels := unique_labels y_true y_pred in
  length C = length labels /\
  Forall (fun row => length row = length labels) C /\
  (forall i, i < length labels ->
     sum_nat (nth i C []) = count_occ Z.eq_dec y_true (nth i labels 0%Z) /\
     sum_nat (map (fun row => nth i row 0) C) =
       count_occ Z.eq_dec y_pred (nth i labels 0%Z)) /\
  matrix_total C = length y_true.
Proof.
  intros H labels. apply confusion_matrix_Ok in H. destruct H as [Hlen ->].
  fold labels.
  destruct (unique_labels_cover y_true y_pred) as (Hnd & Ht & Hp).
  fold labels in Hnd, Ht, Hp.
  split; [apply length_map |]. split.
  { apply Forall_forall. intros row Hrow. apply in_map_iff in Hrow.
    destruct Hrow as (t & <- & _). apply length_map. }
  split.
  - intros i Hi. split.
    + rewrite (nth_map_lt (fun t => map (count_pairs y_true y_pred t) labels)
                 labels i [] 0%Z Hi).
      now apply row_sum.
    + rewrite map_map.
      rewrite (map_ext_in _ (fun t => count_pairs y_true y_pred t
                                        (nth i labels 0%Z))).
      * now apply col_sum.
      * intros t _.
        now rewrite (nth_map_lt (count_pairs y_true y_pred t) labels i 0 0%Z Hi).
  - unfold matrix_total. rewrite map_map.
    rewrite (map_ext _ (count_occ Z.eq_dec y_true)).
    + now apply sum_class_counts.
    + intros t. now apply row_sum.
Qed.


Lemma confusion_matrix_accounts_for_every_row_witness :
  let C := [[1; 1]; [1; 2]] in
  let labels := unique_labels [0; 1; 1; 0; 1]%Z [0; 1; 0; 1; 1]%Z in
  length C = length labels /\
  Forall (fun row => length row = length labels) C /\
  (forall i, i < length labels ->
     sum_nat (nth i C []) =
       count_occ Z.eq_dec [0; 1; 1; 0; 1]%Z (nth i labels 0%Z) /\
     sum_nat (map (fun row => nth i row 0) C) =
       count_occ Z.eq_dec [0; 1; 0; 1; 1]%Z (nth i labels 0%Z)) /\
  matrix_total C = 5.
Proof.
  apply (confusion_matrix_accounts_for_every_row
           [0; 1; 1; 0; 1]%Z [0; 1; 0; 1; 1]%Z).
  reflexivity.
Defined.

Lemma correct_le (yt yp : list Z) :
  length (filter (fun tp => (fst tp =? snd tp)%Z) (combine yt yp)) <= length yt.
Proof.
  etransitivity; [apply filter_length_le |].
  rewrite length_combine. apply Nat.le_min_l.
Qed.

Lemma all_correct (yt yp : list Z) :
  length yt = length yp ->
  (length (filter (fun tp => (fst tp =? snd tp)%Z) (combine yt yp)) = length yt
   <-> yt = yp).
Proof.
  revert yp. induction yt as [|a yt IH]; intros [|b yp] Hlen; try discriminate.
  - split; reflexivity.
  - injection Hlen as Hlen. cbn [combine filter fst snd].
    pose proof (correct_le yt yp) as Hle.
    destruct (Z.eqb_spec a b) as [-> | Hne]; cbn [length].
    + rewrite Nat.succ_inj_wd, (IH yp Hlen). split; congruence.
    + split; [lia | congruence].
Qed.

(** X24: accuracy is the diagonal of the confusion matrix over the number
    of evaluated rows; it lies between 0 and 1 and is 1 exactly when every
    prediction is the true label. *)
Theorem accuracy_is_confusion_diagonal (y_true y_pred : list Z)
    (C : list (list nat)) :
  confusion_matrix y_true y_pred = Ok C -> y_true <> [] ->
  exists a,
    accuracy_score y_true y_pred = Ok (Some a) /\
    a = (INR (trace C) / INR (length y_true))%R /\
    (0 <= a <= 1)%R /\
    (a = 1%R <-> y_pred = y_true).
Proof.
  intros H Hne. apply confusion_matrix_Ok in H. destruct H as [Hlen ->].
  destruct (unique_labels_cover y_true y_pred) as (Hnd & Ht & _).
  rewrite trace_square, (diag_sum y_true y_pred _ Hlen Hnd Ht).
  set (k := length (filter _ _)).
  assert (Hn : (0 < INR (length y_true))%R).
  { apply lt_0_INR. destruct y_true; [congruence | cbn; lia]. }
  assert (Hk : (INR k <= INR (length y_true))%R)
    by apply le_INR, correct_le.
  pose proof (pos_INR k) as Hk0.
  exists (INR k / INR (length y_true))%R.
  split.
  { unfold accuracy_score, check_consistent_length.
    rewrite Hlen, Nat.eqb_refl. cbn [rbind]. fold k. rewrite <- Hlen.
    unfold fdiv. destruct (Req_dec_T (INR (length y_true)) 0); [lra |].
    reflexivity. }
  split; [reflexivity |]. split.
  { split.
    - apply Rmult_le_pos; [exact Hk0 |]. left. now apply Rinv_0_lt_compat.
    - apply (Rmult_le_reg_r (INR (length y_true))); [exact Hn |].
      unfold Rdiv. rewrite Rmult_assoc, Rinv_l by lra. lra. }
  split.
  - intros E. symmetry. apply (all_correct y_true y_pred Hlen).
    apply INR_eq. fold k.
    apply (Rmult_eq_compat_r (INR (length y_true))) in E.
    unfold Rdiv in E. rewrite Rmult_assoc, Rinv_l in E by lra. lra.
  - intros E. symmetry in E. apply (all_correct y_true y_pred Hlen) in E.
    fold k in E. rewrite E. field. lra.
Qed.

Lemma accuracy_is_confusion_diagonal_witness :
  exists a,
    accuracy_score [0; 1; 1; 0; 1]%Z [0; 1; 0; 1; 1]%Z = Ok (Some a) /\
    a = (INR (trace [[1; 1]; [1; 2]]%nat) / INR 5)%R /\
    (0 <= a <= 1)%R /\
    (a = 1%R <-> [0; 1; 0; 1; 1]%Z = [0; 1; 1; 0; 1]%Z).
Proof.
  apply (accuracy_is_confusion_diagonal [0; 1; 1; 0; 1]%Z [0; 1; 0; 1; 1]%Z).
  - reflexivity.
  - discriminate.
Defined.

Lemma tp_le_pred (yt yp : list Z) : tp_sum yt yp <= pred_sum yp.
Proof.
  unfold tp_sum, pred_sum. revert yp.
  induction yt as [|a yt IH]; intros [|b yp];
    try (unfold count_pairs; cbn [combine filter length]; lia).
  rewrite count_pairs_cons. cbn [count_occ]. specialize (IH yp).
  destruct (Z.eq_dec b 1) as [-> | Hne].
  - destruct ((a =? 1)%Z && (1 =? 1)%Z); lia.
  - apply Z.eqb_neq in Hne. rewrite Hne, andb_false_r. lia.
Qed.

Lemma tp_le_true (yt yp : list Z) : tp_sum yt yp <= true_sum yt.
Proof.
  unfold tp_sum, true_sum. revert yp.
  induction yt as [|a yt IH]; intros [|b yp];
    try (unfold count_pairs; cbn [combine filter length]; lia).
  rewrite count_pairs_cons. cbn [count_occ]. specialize (IH yp).
  destruct (Z.eq_dec a 1) as [-> | Hne].
  - destruct ((1 =? 1)%Z && (b =? 1)%Z); lia.
  - apply Z.eqb_neq in Hne. rewrite Hne. cbn [andb]. lia.
Qed.

Lemma prf_divide_bounds (num den : nat) :
  num <= den -> (0 <= prf_divide num den <= 1)%R.
Proof.
  intros H. unfold prf_divide. destruct (Nat.eqb_spec den 0); [lra |].
  assert (Hd : (0 < INR den)%R) by (apply lt_0_INR; lia).
  pose proof (pos_INR num) as Hn. apply le_INR in H. split.
  - apply Rmult_le_pos; [exact Hn |]. left. now apply Rinv_0_lt_compat.
  - apply (Rmult_le_reg_r (INR den)); [exact Hd |].
    unfold Rdiv. rewrite Rmult_assoc, Rinv_l by lra. lra.
Qed.

(** X25: whenever the binary checks pass, precision, recall and F1 all
    return a value in [0, 1]; F1 is the harmonic mean of precision and
    recall, and 0 when no positive row is predicted positive. *)
Theorem f1_is_harmonic_mean (y_true y_pred : list Z) :
  check_binary y_true y_pred = Ok tt ->
  exists p r f,
    precision_score y_true y_pred = Ok p /\
    recall_score y_true y_pred = Ok r /\
    f1_score y_true y_pred = Ok f /\
    (0 <= p <= 1)%R /\ (0 <= r <= 1)%R /\ (0 <= f <= 1)%R /\
    (tp_sum y_true y_pred = 0 -> p = 0%R /\ r = 0%R /\ f = 0%R) /\
    (0 < tp_sum y_true y_pred ->
     p = (INR (tp_sum y_true y_pred) / INR (pred_sum y_pred))%R /\
     r = (INR (tp_sum y_true y_pred) / INR (true_sum y_true))%R /\
     f = (2 * p * r / (p + r))%R).
Proof.
  intros Hc.
  pose proof (tp_le_pred y_true y_pred) as Hp.
  pose proof (tp_le_true y_true y_pred) as Ht.
  unfold precision_score, recall_score, f1_score. rewrite Hc. cbn [rbind].
  do 3 eexists. do 3 (split; [reflexivity |]).
  split; [now apply prf_divide_bounds |].
  split; [now apply prf_divide_bounds |].
  split; [apply prf_divide_bounds; lia |].
  split.
  - intros E. rewrite E. unfold prf_divide. cbn [Nat.mul].
    repeat split.
    + destruct (pred_sum y_pred =? 0); [reflexivity |].
      cbn [INR]. unfold Rdiv. now rewrite Rmult_0_l.
    + destruct (true_sum y_true =? 0); [reflexivity |].
      cbn [INR]. unfold Rdiv. now rewrite Rmult_0_l.
    + destruct (true_sum y_true + pred_sum y_pred =? 0); [reflexivity |].
      cbn [INR]. unfold Rdiv. now rewrite Rmult_0_l.
  - intros Hpos. unfold prf_divide.
    destruct (Nat.eqb_spec (pred_sum y_pred) 0) as [E | _]; [lia |].
    destruct (Nat.eqb_spec (true_sum y_true) 0) as [E | _]; [lia |].
    destruct (Nat.eqb_spec (true_sum y_true + pred_sum y_pred) 0) as [E | _];
      [lia |].
    split; [reflexivity |]. split; [reflexivity |].
    rewrite mult_INR, plus_INR. change (INR 2) with 2%R.
    assert (H1 : (0 < INR (tp_sum y_true y_pred))%R) by now apply lt_0_INR.
    assert (H2 : (0 < INR (pred_sum y_pred))%R) by (apply lt_0_INR; lia).
    assert (H3 : (0 < INR (true_sum y_true))%R) by (apply lt_0_INR; lia).
    field. repeat split; try lra; nra.
Qed.

Lemma f1_is_harmonic_mean_witness :
  exists p r f,
    precision_score [0; 1; 1; 0; 1]%Z [0; 1; 0; 1; 1]%Z = Ok p /\
    recall_score [0; 1; 1; 0; 1]%Z [0; 1; 0; 1; 1]%Z = Ok r /\
    f1_score [0; 1; 1; 0; 1]%Z [0; 1; 0; 1; 1]%Z = Ok f /\
    (0 <= p <= 1)%R /\ (0 <= r <= 1)%R /\ (0 <= f <= 1)%R /\
    (tp_sum [0; 1; 1; 0; 1]%Z [0; 1; 0; 1; 1]%Z = 0 ->
     p = 0%R /\ r = 0%R /\ f = 0%R) /\
    (0 < tp_sum [0; 1; 1; 0; 1]%Z [0; 1; 0; 1; 1]%Z ->
     p = (INR (tp_sum [0; 1; 1; 0; 1]%Z [0; 1; 0; 1; 1]%Z)
          / INR (pred_sum [0; 1; 0; 1; 1]%Z))%R /\
     r = (INR (tp_sum [0; 1; 1; 0; 1]%Z [0; 1; 0; 1; 1]%Z)
          / INR (true_sum [0; 1; 1; 0; 1]%Z))%R /\
     f = (2 * p * r / (p + r))%R).
Proof.
  apply (f1_is_harmonic_mean [0; 1; 1; 0; 1]%Z [0; 1; 0; 1; 1]%Z).
  reflexivity.
Defined.

End MetricsFacts.
